(** * ExpenseScreen: aggregation, time windows and form validation

    A shallow embedding of [src/ExpenseScreen.js] (a React Native screen over
    an SQLite table of expenses) together with the parts of the JavaScript
    run time its logic relies on: IEEE-754 binary64 numbers, strings of
    UTF-16 code units, the [||] and [+] operators, [Number], [parseFloat],
    [String.prototype.trim], ordinary-object property lookup and enumeration
    order, and the time-value arithmetic of [Date]. *)

From Stdlib Require Import ZArith List Bool Lia String Ascii NArith Permutation Sorted.
From Stdlib Require Import Floats.SpecFloat.
Import ListNotations.

Local Open Scope Z_scope.

(* ================================================================== *)
(** * Part I. Definitions                                              *)
(* ================================================================== *)

(** ** JavaScript strings

    A JavaScript string is a finite sequence of UTF-16 code units. *)

Module JSString.

Definition char16 := N.
Definition jsstring := list char16.

(** The code units of an ASCII literal. *)
Fixpoint js (s : string) : jsstring :=
  match s with
  | EmptyString => []
  | String c s' => N_of_ascii c :: js s'
  end.

Definition eqb (a b : jsstring) : bool :=
  if list_eq_dec N.eq_dec a b then true else false.

(** [WhiteSpace] and [LineTerminator] code points (ECMA-262 12.2, 12.3):
    TAB, LF, VT, FF, CR, SP, NBSP, the category-Zs spaces, LS, PS and
    ZWNBSP.  These are what [trim], [Number] and [parseFloat] strip. *)
Definition isWhiteSpace (c : char16) : bool :=
  match c with
  | 9 | 10 | 11 | 12 | 13 | 32 | 160 | 5760
  | 8232 | 8233 | 8239 | 8287 | 12288 | 65279 => true
  | _ => (8192 <=? c)%N && (c <=? 8202)%N
  end%N.

Fixpoint trimStart (s : jsstring) : jsstring :=
  match s with
  | [] => []
  | c :: s' => if isWhiteSpace c then trimStart s' else s
  end.

Definition trimEnd (s : jsstring) : jsstring := rev (trimStart (rev s)).

(** [String.prototype.trim] *)
Definition trim (s : jsstring) : jsstring := trimEnd (trimStart s).

(** [s.slice(0, n)] for [0 <= n] *)
Definition slice0 (n : nat) (s : jsstring) : jsstring := firstn n s.

Definition isDigit (c : char16) : bool := (48 <=? c)%N && (c <=? 57)%N.

Definition digitValue (c : char16) : Z := Z.of_N c - 48.

(** The longest prefix of decimal digits, and the rest. *)
Fixpoint spanDigits (s : jsstring) : jsstring * jsstring :=
  match s with
  | [] => ([], [])
  | c :: s' =>
      if isDigit c then let (d, r) := spanDigits s' in (c :: d, r)
      else ([], s)
  end.

(** The value of a sequence of decimal digits. *)
Definition decimalValue (ds : jsstring) : Z :=
  fold_left (fun acc c => 10 * acc + digitValue c) ds 0.

Fixpoint isPrefix (p s : jsstring) : bool :=
  match p, s with
  | [], _ => true
  | _, [] => false
  | a :: p', b :: s' => (a =? b)%N && isPrefix p' s'
  end.

End JSString.
Export JSString.

(** ** JavaScript numbers: IEEE-754 binary64

    Numbers are [spec_float]s at precision 53 and maximal exponent 1024,
    with the correctly rounded operations of the standard library's
    [SpecFloat] (a single NaN, signed zeros and infinities). *)

Module JSNumber.

Definition number := spec_float.

Definition prec : Z := 53.
Definition emax : Z := 1024.

Definition NaN : number := S754_nan.
Definition zero : number := S754_zero false.
Definition negZero : number := S754_zero true.
Definition Infinity : number := S754_infinity false.

(** The number nearest to an integer (ties to even). *)
Definition ofZ (z : Z) : number := binary_normalize prec emax z 0 false.

Definition add (x y : number) : number := SFadd prec emax x y.

Definition isNaN (x : number) : bool :=
  match x with S754_nan => true | _ => false end.

Definition isZero (x : number) : bool :=
  match x with S754_zero _ => true | _ => false end.

(** [x <= y] and [x < y] on numbers: false as soon as one side is NaN. *)
Definition leb (x y : number) : bool := SFleb x y.
Definition ltb (x y : number) : bool := SFltb x y.

(** [ToBoolean] on a number: [+0], [-0] and NaN are falsy. *)
Definition truthy (x : number) : bool := negb (isZero x || isNaN x).

(** The mathematical value [(-1)^s * m * 10^e] rounded to the nearest
    number, ties to even: what a decimal literal denotes. *)
Definition ofDecimal (s : bool) (m : Z) (e : Z) : number :=
  match m with
  | Zpos p =>
      match e with
      | Z0 => binary_normalize prec emax (if s then Zneg p else Zpos p) 0 false
      | Zpos k =>
          binary_normalize prec emax
            ((if s then Zneg p else Zpos p) * Z.pow_pos 10 k) 0 false
      | Zneg k =>
          SFdiv prec emax (S754_finite s p 0)
                (S754_finite false (Pos.pow 10 k) 0)
      end
  | _ => S754_zero s
  end.

(** The integer part of a finite number, truncated toward zero
    ([ToIntegerOrInfinity] on finite arguments); [None] on NaN and the
    infinities. *)
Definition truncate (x : number) : option Z :=
  match x with
  | S754_zero _ => Some 0
  | S754_finite s m e =>
      let a := match e with
               | Zneg k => Z.shiftr (Zpos m) (Zpos k)
               | _ => Z.shiftl (Zpos m) e
               end in
      Some (if s then - a else a)
  | _ => None
  end.

End JSNumber.
Export JSNumber.

(** ** Numeric string literals: [Number(string)] and [parseFloat] *)

Module NumericLiteral.

(** The result of scanning a [StrDecimalLiteral]: the value it denotes and
    the unread rest of the string. *)
Definition scanned := option (number * jsstring).

Definition cPlus : char16 := 43%N.
Definition cMinus : char16 := 45%N.
Definition cDot : char16 := 46%N.
Definition cLowerE : char16 := 101%N.
Definition cUpperE : char16 := 69%N.

(** [ExponentPart_opt]: when an [e] or [E] is followed by an optionally
    signed non-empty digit sequence, the exponent and what follows it;
    otherwise exponent 0 and the input untouched. *)
Definition scanExponent (s : jsstring) : Z * jsstring :=
  match s with
  | c :: s1 =>
      if (c =? cLowerE)%N || (c =? cUpperE)%N then
        let '(neg, s2) :=
          match s1 with
          | c' :: s2 =>
              if (c' =? cMinus)%N then (true, s2)
              else if (c' =? cPlus)%N then (false, s2)
              else (false, s1)
          | [] => (false, s1)
          end in
        let (ds, s3) := spanDigits s2 in
        match ds with
        | [] => (0, s)
        | _ => ((if neg then - decimalValue ds else decimalValue ds), s3)
        end
      else (0, s)
  | [] => (0, s)
  end.

(** [StrUnsignedDecimalLiteral], longest match: [Infinity], or digits with
    an optional fraction and exponent, or a fraction alone. *)
Definition scanUnsigned (neg : bool) (s : jsstring) : scanned :=
  if isPrefix (js "Infinity") s then
    Some (S754_infinity neg, skipn 8 s)
  else
    let (ip, s1) := spanDigits s in
    let '(fp, s2, hasDigits) :=
      match s1 with
      | c :: s1' =>
          if (c =? cDot)%N then
            let (fp, s2) := spanDigits s1' in
            match ip, fp with
            | [], [] => ([], s1, false)
            | _, _ => (fp, s2, true)
            end
          else ([], s1, match ip with [] => false | _ => true end)
      | [] => ([], s1, match ip with [] => false | _ => true end)
      end in
    if hasDigits then
      let (e, s3) := scanExponent s2 in
      Some (ofDecimal neg (decimalValue (ip ++ fp)%list)
                       (e - Z.of_nat (List.length fp)), s3)
    else None.

(** [StrDecimalLiteral]: an optional sign, then the unsigned literal. *)
Definition scanDecimal (s : jsstring) : scanned :=
  match s with
  | c :: s' =>
      if (c =? cMinus)%N then scanUnsigned true s'
      else if (c =? cPlus)%N then scanUnsigned false s'
      else scanUnsigned false s
  | [] => None
  end.

(** Digits of radix 2, 8 or 16. *)
Definition radixDigit (radix : Z) (c : char16) : option Z :=
  let v :=
    if isDigit c then Some (digitValue c)
    else if (97 <=? c)%N && (c <=? 102)%N then Some (Z.of_N c - 87)
    else if (65 <=? c)%N && (c <=? 70)%N then Some (Z.of_N c - 55)
    else None in
  match v with
  | Some d => if d <? radix then Some d else None
  | None => None
  end.

Fixpoint radixValue (radix : Z) (acc : Z) (s : jsstring) : option Z :=
  match s with
  | [] => Some acc
  | c :: s' =>
      match radixDigit radix c with
      | Some d => radixValue radix (radix * acc + d) s'
      | None => None
      end
  end.

(** [NonDecimalIntegerLiteral]: [0b], [0o] or [0x] (either case) and at
    least one digit of that radix. *)
Definition nonDecimalLiteral (s : jsstring) : option number :=
  match s with
  | 48%N :: p :: (_ :: _) as ds =>
      let radix :=
        match p with
        | 98%N | 66%N => Some 2
        | 111%N | 79%N => Some 8
        | 120%N | 88%N => Some 16
        | _ => None
        end in
      match radix with
      | Some r =>
          match radixValue r 0 ds with
          | Some v => Some (ofZ v)
          | None => None
          end
      | None => None
      end
  | _ => None
  end.

(** [StringToNumber] (ECMA-262 7.1.4.1.1): the whole trimmed string must be
    a numeric literal; the empty string is [+0]; anything else is NaN. *)
Definition StringToNumber (s : jsstring) : number :=
  match trim s with
  | [] => zero
  | t =>
      match nonDecimalLiteral t with
      | Some x => x
      | None =>
          match scanDecimal t with
          | Some (x, []) => x
          | _ => NaN
          end
      end
  end.

(** [parseFloat] (ECMA-262 19.2.4): leading white space is skipped and the
    longest prefix that is a decimal literal is read; NaN when there is
    none. *)
Definition parseFloat (s : jsstring) : number :=
  match scanDecimal (trimStart s) with
  | Some (x, _) => x
  | None => NaN
  end.

End NumericLiteral.
Export NumericLiteral.

(** ** Primitive values and expense rows *)

Module JSValue.

(** The primitive values a row attribute may hold.  [VUndefined] is what
    reading an absent attribute yields. *)
Inductive value :=
| VUndefined
| VNull
| VNumber (x : number)
| VString (s : jsstring).

(** [ToBoolean] *)
Definition truthyValue (v : value) : bool :=
  match v with
  | VUndefined | VNull => false
  | VNumber x => truthy x
  | VString [] => false
  | VString (_ :: _) => true
  end.

(** [a || b] on primitive values *)
Definition orElse (a b : value) : value := if truthyValue a then a else b.

(** [ToNumber], which is also [Number(v)] *)
Definition ToNumber (v : value) : number :=
  match v with
  | VUndefined => NaN
  | VNull => zero
  | VNumber x => x
  | VString s => StringToNumber s
  end.

End JSValue.
Export JSValue.

(** A row of the [expenses] table as the driver hands it to the screen:
    [id INTEGER PRIMARY KEY AUTOINCREMENT], [amount REAL NOT NULL],
    [category TEXT NOT NULL], [note TEXT], [date TEXT NOT NULL].  SQLite
    types are affinities, and the code guards every attribute with [||],
    so attributes other than [id] are arbitrary primitive values. *)
Module Expense.
Record expense := {
  id : Z;
  amount : value;
  category : value;
  note : value;
  date : value
}.
End Expense.
Export Expense(expense).

(** ** Ordinary objects used as maps, and the aggregation *)

Section Host.

(** Two pieces of the host that the code reaches only in corner cases are
    left as parameters: [Number::toString] and the implementation-defined
    source text that [Function.prototype.toString] yields for a built-in
    method of [Object.prototype]. *)
Variable NumberToString : number -> jsstring.
Variable functionSource : jsstring -> jsstring.

(** [ToString] on primitive values *)
Definition ToString (v : value) : jsstring :=
  match v with
  | VUndefined => js "undefined"
  | VNull => js "null"
  | VNumber x => NumberToString x
  | VString s => s
  end.

(** The binary [+] on primitive values: concatenation as soon as one side
    is a string, numeric addition otherwise. *)
Definition plus (a b : value) : value :=
  match a, b with
  | VString _, _ | _, VString _ => VString (ToString a ++ ToString b)
  | _, _ => VNumber (add (ToNumber a) (ToNumber b))
  end.

(** The own data properties of an object literal [{}], oldest first. *)
Definition object := list (jsstring * value).

(** The function-valued properties of [Object.prototype] (ECMA-262 20.1.3
    and B.2.2), which every [{}] inherits. *)
Definition objectPrototypeMethods : list jsstring :=
  map js ["constructor"; "hasOwnProperty"; "isPrototypeOf";
          "propertyIsEnumerable"; "toLocaleString"; "toString"; "valueOf";
          "__defineGetter__"; "__defineSetter__";
          "__lookupGetter__"; "__lookupSetter__"]%string.

(** The accessor property [Object.prototype.__proto__]. *)
Definition protoKey : jsstring := js "__proto__".

(** Every property name that a fresh [{}] already answers to. *)
Definition inheritedKeys : list jsstring := protoKey :: objectPrototypeMethods.

(** What [map[key]] evaluates to. *)
Inductive lookup :=
| Own (v : value)
| InheritedMethod (key : jsstring)
| InheritedProto
| Missing.

Fixpoint getOwn (m : object) (key : jsstring) : option value :=
  match m with
  | [] => None
  | (k, v) :: m' => if JSString.eqb k key then Some v else getOwn m' key
  end.

(** [map[key]] as an expression: own properties first, then the prototype. *)
Definition get (m : object) (key : jsstring) : lookup :=
  match getOwn m key with
  | Some v => Own v
  | None =>
      if JSString.eqb key protoKey then InheritedProto
      else if existsb (JSString.eqb key) objectPrototypeMethods
           then InheritedMethod key
           else Missing
  end.

Fixpoint replaceOwn (m : object) (key : jsstring) (v : value) : object :=
  match m with
  | [] => []
  | (k, w) :: m' =>
      if JSString.eqb k key then (k, v) :: m' else (k, w) :: replaceOwn m' key v
  end.

(** [map[key] = v] for a primitive [v].  The setter of [__proto__] ignores
    primitives; any other key overwrites the own property or creates it
    (the inherited methods are writable, so assignment shadows them). *)
Definition set (m : object) (key : jsstring) (v : value) : object :=
  if JSString.eqb key protoKey then m
  else match getOwn m key with
       | Some _ => replaceOwn m key v
       | None => m ++ [(key, v)]
       end.

(** [ToBoolean] of a looked-up property: objects are truthy. *)
Definition truthyLookup (l : lookup) : bool :=
  match l with
  | Own v => truthyValue v
  | InheritedMethod _ | InheritedProto => true
  | Missing => false
  end.

(** [ToPrimitive] of a looked-up property, as [+] applies it. *)
Definition ToPrimitive (l : lookup) : value :=
  match l with
  | Own v => v
  | InheritedMethod key => VString (functionSource key)
  | InheritedProto => VString (js "[object Object]")
  | Missing => VUndefined
  end.

(** An array index (ECMA-262 6.1.7): the canonical decimal string of an
    integer in [0, 2^32 - 2]. *)
Definition arrayIndex (key : jsstring) : option Z :=
  match key with
  | [] => None
  | c :: rest =>
      if forallb isDigit key
         && (negb (c =? 48)%N || match rest with [] => true | _ => false end)
         && (decimalValue key <=? 4294967294)
      then Some (decimalValue key)
      else None
  end.

Fixpoint insertIndexed (i : Z) (kv : jsstring * value)
    (l : list (Z * (jsstring * value))) : list (Z * (jsstring * value)) :=
  match l with
  | [] => [(i, kv)]
  | (j, kv') :: l' =>
      if i <? j then (i, kv) :: l else (j, kv') :: insertIndexed i kv l'
  end.

(** The own properties whose keys are array indices, by ascending index. *)
Fixpoint indexedEntries (m : object) : list (Z * (jsstring * value)) :=
  match m with
  | [] => []
  | (k, v) :: m' =>
      match arrayIndex k with
      | Some i => insertIndexed i (k, v) (indexedEntries m')
      | None => indexedEntries m'
      end
  end.

Definition namedEntries (m : object) : object :=
  filter (fun kv => match arrayIndex (fst kv) with Some _ => false | None => true end) m.

(** [Object.entries(m)]: array-index keys in ascending numeric order, then
    the other keys in order of creation (OrdinaryOwnPropertyKeys). *)
Definition entries (m : object) : object :=
  map snd (indexedEntries m) ++ namedEntries m.

(** *** The aggregator *)

(** [exp.category || 'Uncategorized'], as the property key it is used as. *)
Definition categoryKey (exp : expense) : jsstring :=
  ToString (orElse (Expense.category exp) (VString (js "Uncategorized"))).

(** [Number(exp.amount || 0)] *)
Definition contribution (exp : expense) : number :=
  ToNumber (orElse (Expense.amount exp) (VNumber zero)).

(** One iteration of the loop of [totalsByCategory]:
    [map[cat] = (map[cat] || 0) + Number(exp.amount || 0)]. *)
Definition accumulate (m : object) (exp : expense) : object :=
  let cat := categoryKey exp in
  let cur := get m cat in
  let lhs := if truthyLookup cur then ToPrimitive cur else VNumber zero in
  set m cat (plus lhs (VNumber (contribution exp))).

(** [totalsByCategory]: the loop over the filtered expenses from [{}]. *)
Definition totalsByCategory (filteredExpenses : list expense) : object :=
  fold_left accumulate filteredExpenses [].

(** [overallTotal]:
    [filteredExpenses.reduce((sum, exp) => sum + Number(exp.amount || 0), 0)] *)
Definition overallTotal (filteredExpenses : list expense) : number :=
  fold_left (fun sum exp => add sum (contribution exp)) filteredExpenses zero.

(** *** The chart series *)

Record segment := {
  name : jsstring;
  population : value;
  color : jsstring;
  legendFontColor : jsstring;
  legendFontSize : Z
}.

Definition palette : list jsstring :=
  map js ["#f87171"; "#60a5fa"; "#fbbf24"; "#34d399"; "#a78bfa"; "#f472b6"]%string.

Definition noData : segment :=
  {| name := js "No Data";
     population := VNumber (ofZ 1);
     color := js "#374151";
     legendFontColor := js "#9ca3af";
     legendFontSize := 12 |}.

(** The callback of [.map(([cat, total], idx) => ...)]. *)
Definition toSegment (idx : nat) (entry : jsstring * value) : segment :=
  {| name := fst entry;
     population := snd entry;
     color := nth (idx mod 6) palette [];
     legendFontColor := js "#f9fafb";
     legendFontSize := 12 |}.

(** [array.map(f)] with the element's position passed to [f]. *)
Fixpoint mapIndexed {A B : Type} (f : nat -> A -> B) (idx : nat) (l : list A) : list B :=
  match l with
  | [] => []
  | x :: l' => f idx x :: mapIndexed f (S idx) l'
  end.

(** [chartData] *)
Definition chartData (totals : object) : list segment :=
  if (0 <? List.length (entries totals))%nat
  then mapIndexed toSegment 0%nat (entries totals)
  else [noData].

End Host.

(** ** Time values and the calendar of [Date] (ECMA-262 21.4.1)

    A time value is a whole number of milliseconds since the epoch, or NaN
    (an invalid date), which is [None] here.  The small integral numbers
    that the code computes from date fields are modelled the same way. *)

Module JSDate.

Definition timevalue := option Z.

Definition msPerDay : Z := 86400000.
Definition msPerHour : Z := 3600000.
Definition msPerMinute : Z := 60000.
Definition msPerSecond : Z := 1000.

Definition Day (t : Z) : Z := t / msPerDay.
Definition TimeWithinDay (t : Z) : Z := t mod msPerDay.

Definition DaysInYear (y : Z) : Z :=
  if (y mod 4 =? 0) && (negb (y mod 100 =? 0) || (y mod 400 =? 0))
  then 366 else 365.

Definition DayFromYear (y : Z) : Z :=
  365 * (y - 1970) + (y - 1969) / 4 - (y - 1901) / 100 + (y - 1601) / 400.

Definition TimeFromYear (y : Z) : Z := msPerDay * DayFromYear y.

(** [YearFromTime(t)] is the largest [y] with [TimeFromYear(y) <= t]: the
    estimate from the mean length of a Gregorian year is off by at most
    one, so one of three candidates is it. *)
Definition YearFromTime (t : Z) : Z :=
  let d := Day t in
  let y := 1970 + (400 * d) / 146097 in
  if DayFromYear (y + 1) <=? d then y + 1
  else if DayFromYear y <=? d then y
  else y - 1.

Definition InLeapYear (t : Z) : Z :=
  if DaysInYear (YearFromTime t) =? 366 then 1 else 0.

Definition DayWithinYear (t : Z) : Z := Day t - DayFromYear (YearFromTime t).

Definition MonthFromTime (t : Z) : Z :=
  let d := DayWithinYear t in
  let leap := InLeapYear t in
  if d <? 31 then 0
  else if d <? 59 + leap then 1
  else if d <? 90 + leap then 2
  else if d <? 120 + leap then 3
  else if d <? 151 + leap then 4
  else if d <? 181 + leap then 5
  else if d <? 212 + leap then 6
  else if d <? 243 + leap then 7
  else if d <? 273 + leap then 8
  else if d <? 304 + leap then 9
  else if d <? 334 + leap then 10
  else 11.

Definition DateFromTime (t : Z) : Z :=
  let d := DayWithinYear t in
  let leap := InLeapYear t in
  match MonthFromTime t with
  | 0 => d + 1
  | 1 => d - 30
  | 2 => d - 58 - leap
  | 3 => d - 89 - leap
  | 4 => d - 119 - leap
  | 5 => d - 150 - leap
  | 6 => d - 180 - leap
  | 7 => d - 211 - leap
  | 8 => d - 242 - leap
  | 9 => d - 272 - leap
  | 10 => d - 303 - leap
  | _ => d - 333 - leap
  end.

Definition WeekDay (t : Z) : Z := (Day t + 4) mod 7.

Definition HourFromTime (t : Z) : Z := (t / msPerHour) mod 24.
Definition MinFromTime (t : Z) : Z := (t / msPerMinute) mod 60.
Definition SecFromTime (t : Z) : Z := (t / msPerSecond) mod 60.
Definition msFromTime (t : Z) : Z := t mod msPerSecond.

Definition MakeTime (hour min sec ms : Z) : Z :=
  hour * msPerHour + min * msPerMinute + sec * msPerSecond + ms.

(** The number of days of year [ym] that precede its month [mn]
    (0 = January). *)
Definition daysBeforeMonth (ym mn : Z) : Z :=
  let leap := if DaysInYear ym =? 366 then 1 else 0 in
  match mn with
  | 0 => 0
  | 1 => 31
  | 2 => 59 + leap
  | 3 => 90 + leap
  | 4 => 120 + leap
  | 5 => 151 + leap
  | 6 => 181 + leap
  | 7 => 212 + leap
  | 8 => 243 + leap
  | 9 => 273 + leap
  | 10 => 304 + leap
  | _ => 334 + leap
  end.

(** [MakeDay(year, month, date)]: the day number of the first of the month
    [month] (which may lie outside 0..11) of [year], plus [date - 1].  The
    arithmetic is carried out whatever the year, as engines do; a result
    out of range is caught by [TimeClip]. *)
Definition MakeDay (year month date : Z) : Z :=
  let ym := year + month / 12 in
  let mn := month mod 12 in
  DayFromYear ym + daysBeforeMonth ym mn + date - 1.

Definition MakeDate (day time : Z) : Z := day * msPerDay + time.

Definition maxTime : Z := 8640000000000000.

(** [TimeClip]: times beyond 100,000,000 days from the epoch are invalid. *)
Definition TimeClip (t : Z) : timevalue :=
  if Z.abs t <=? maxTime then Some t else None.

(** [a >= b] and [a < b] on dates: both compare the time values as numbers,
    so they are false when either side is invalid. *)
Definition dateGeb (a b : timevalue) : bool :=
  match a, b with
  | Some x, Some y => y <=? x
  | _, _ => false
  end.

Definition dateLtb (a b : timevalue) : bool :=
  match a, b with
  | Some x, Some y => x <? y
  | _, _ => false
  end.

(** Arithmetic on integral numbers that may be NaN. *)
Definition lift2 (f : Z -> Z -> Z) (a b : option Z) : option Z :=
  match a, b with
  | Some x, Some y => Some (f x y)
  | _, _ => None
  end.

(** Fixed-width decimal digits, most significant first. *)
Fixpoint pad (width : nat) (n : Z) : jsstring :=
  match width with
  | O => []
  | S w => (pad w (n / 10) ++ [Z.to_N (48 + n mod 10)])%list
  end.

(** [Date.prototype.toISOString] of a valid time value: four-digit years
    from 0 to 9999, a sign and six digits otherwise. *)
Definition toISOString (t : Z) : jsstring :=
  let y := YearFromTime t in
  ((if (0 <=? y) && (y <=? 9999) then pad 4 y
    else (if y <? 0 then js "-" else js "+") ++ pad 6 (Z.abs y))
   ++ js "-" ++ pad 2 (MonthFromTime t + 1)
   ++ js "-" ++ pad 2 (DateFromTime t)
   ++ js "T" ++ pad 2 (HourFromTime t)
   ++ js ":" ++ pad 2 (MinFromTime t)
   ++ js ":" ++ pad 2 (SecFromTime t)
   ++ js "." ++ pad 3 (msFromTime t)
   ++ js "Z")%list.

Section Zone.

(** The host's time zone: [LocalTZA(t, isUTC)] is the offset of local time
    from UTC in milliseconds, at the UTC instant [t] when [isUTC] and at
    the local time [t] otherwise. *)
Variable LocalTZA : Z -> bool -> Z.

(** The host's [Date.parse]: the time value a string denotes, or NaN. *)
Variable DateParse : jsstring -> option Z.

Definition LocalTime (t : Z) : Z := t + LocalTZA t true.
Definition UTC (t : Z) : Z := t - LocalTZA t false.

Definition getDay (d : timevalue) : option Z :=
  option_map (fun t => WeekDay (LocalTime t)) d.

Definition getDate (d : timevalue) : option Z :=
  option_map (fun t => DateFromTime (LocalTime t)) d.

Definition getMonth (d : timevalue) : option Z :=
  option_map (fun t => MonthFromTime (LocalTime t)) d.

Definition getFullYear (d : timevalue) : option Z :=
  option_map (fun t => YearFromTime (LocalTime t)) d.

(** [d.setDate(dt)], as the new time value of [d] *)
Definition setDate (d : timevalue) (dt : option Z) : timevalue :=
  match d, dt with
  | Some t, Some dt =>
      let t := LocalTime t in
      TimeClip (UTC (MakeDate (MakeDay (YearFromTime t) (MonthFromTime t) dt)
                              (TimeWithinDay t)))
  | _, _ => None
  end.

(** [d.setHours(0, 0, 0, 0)], as the new time value of [d] *)
Definition setHoursZero (d : timevalue) : timevalue :=
  match d with
  | Some t =>
      let t := LocalTime t in
      TimeClip (UTC (MakeDate (Day t) (MakeTime 0 0 0 0)))
  | None => None
  end.

(** [new Date(year, month, 1)]: years 0 to 99 mean 1900 to 1999. *)
Definition newDateYM1 (year month : option Z) : timevalue :=
  match year, month with
  | Some y, Some m =>
      let yr := if (0 <=? y) && (y <=? 99) then 1900 + y else y in
      TimeClip (UTC (MakeDate (MakeDay yr m 1) (MakeTime 0 0 0 0)))
  | _, _ => None
  end.

(** [new Date(v)] for a primitive [v]: a string is parsed, anything else
    is converted to a number of milliseconds. *)
Definition newDate (v : value) : timevalue :=
  match v with
  | VString s =>
      match DateParse s with
      | Some t => TimeClip t
      | None => None
      end
  | _ =>
      match truncate (ToNumber v) with
      | Some t => TimeClip t
      | None => None
      end
  end.

(** [getWeekBounds(date)], as the pair [(start, end)] *)
Definition getWeekBounds (date : timevalue) : timevalue * timevalue :=
  let d := date in
  let day := getDay d in
  let diffToMonday := option_map (fun day => Z.rem (day + 6) 7) day in
  let start := setHoursZero (setDate d (lift2 Z.sub (getDate d) diffToMonday)) in
  let end_ := setHoursZero (setDate start (lift2 Z.add (getDate start) (Some 7))) in
  (start, end_).

(** [getMonthBounds(date)], as the pair [(start, end)] *)
Definition getMonthBounds (date : timevalue) : timevalue * timevalue :=
  let year := getFullYear date in
  let month := getMonth date in
  let start := setHoursZero (newDateYM1 year month) in
  let end_ := setHoursZero (newDateYM1 year (lift2 Z.add month (Some 1))) in
  (start, end_).

(** The three values the [filter] state takes. *)
Inductive filterKind := FILTER_ALL | FILTER_WEEK | FILTER_MONTH.

(** The predicate passed to [expenses.filter]. *)
Definition inWindow (start end_ : timevalue) (exp : expense) : bool :=
  let d := newDate (Expense.date exp) in
  dateGeb d start && dateLtb d end_.

(** [filteredExpenses], with the clock reading [now] that [new Date()]
    returns when the memo is recomputed.  [expenses] is [None] when the
    state holds a falsy value instead of an array. *)
Definition filteredExpenses (expenses : option (list expense))
    (filter : filterKind) (now : Z) : list expense :=
  match expenses with
  | None => []
  | Some l =>
      match filter with
      | FILTER_ALL => l
      | FILTER_WEEK =>
          let (start, end_) := getWeekBounds (Some now) in
          List.filter (inWindow start end_) l
      | FILTER_MONTH =>
          let (start, end_) := getMonthBounds (Some now) in
          List.filter (inWindow start end_) l
      end
  end.

End Zone.

(** [getTodayIsoDate()], at the clock reading [now] *)
Definition getTodayIsoDate (now : Z) : jsstring := slice0 10 (toISOString now).

End JSDate.
Export JSDate.

(** ** The table, the screen state and the operations on them *)

Module Store.

(** The [expenses] table: its rows in rowid order, and the largest rowid
    ever handed out (what [AUTOINCREMENT] keeps in [sqlite_sequence]). *)
Record database := {
  rows : list expense;
  sequence : Z
}.

(** The four statements the screen sends, with their bound parameters. *)
Inductive statement :=
| INSERT (amount : number) (category : jsstring) (note : value) (date : jsstring)
| UPDATE (amount : number) (category : jsstring) (note : value) (date : jsstring) (id : Z)
| DELETE (id : Z)
| SELECT_ALL.

Definition maxId (l : list expense) : Z :=
  fold_left (fun acc exp => Z.max acc (Expense.id exp)) l 0.

(** [db.runAsync(statement, params)] *)
Definition runAsync (st : statement) (d : database) : database :=
  match st with
  | INSERT a c n dt =>
      let newId := Z.max (sequence d) (maxId (rows d)) + 1 in
      {| rows := rows d ++
           [ {| Expense.id := newId; Expense.amount := VNumber a;
                Expense.category := VString c; Expense.note := n;
                Expense.date := VString dt |} ];
         sequence := newId |}
  | UPDATE a c n dt i =>
      {| rows := map (fun exp =>
                        if Expense.id exp =? i
                        then {| Expense.id := i; Expense.amount := VNumber a;
                                Expense.category := VString c; Expense.note := n;
                                Expense.date := VString dt |}
                        else exp) (rows d);
         sequence := sequence d |}
  | DELETE i =>
      {| rows := filter (fun exp => negb (Expense.id exp =? i)) (rows d);
         sequence := sequence d |}
  | SELECT_ALL => d
  end.

Section Ordering.

(** How SQLite orders two stored values of a column (storage class first,
    then numeric order or the BINARY collation of the text). *)
Variable compareStored : value -> value -> comparison.

(** Whether [a] comes before [b] under [ORDER BY date DESC, id DESC]. *)
Definition precedes (a b : expense) : bool :=
  match compareStored (Expense.date a) (Expense.date b) with
  | Gt => true
  | Lt => false
  | Eq => Expense.id b <=? Expense.id a
  end.

Fixpoint insertRow (exp : expense) (sorted : list expense) : list expense :=
  match sorted with
  | [] => [exp]
  | x :: rest =>
      if precedes exp x then exp :: sorted else x :: insertRow exp rest
  end.

(** [db.getAllAsync('SELECT * FROM expenses ORDER BY date DESC, id DESC;')] *)
Definition getAllAsync (d : database) : list expense :=
  fold_right insertRow [] (rows d).

End Ordering.

End Store.

Module Screen.
Import Store.

(** The [useState] cells of [ExpenseScreen]. *)
Record screen := {
  expenses : option (list expense);
  filter : filterKind;
  amount : jsstring;
  category : jsstring;
  note : jsstring;
  editingExpense : option expense;
  editAmount : jsstring;
  editCategory : jsstring;
  editNote : jsstring;
  editDate : jsstring
}.

(** The initial state: [useState([])], [useState(FILTER_ALL)], empty form
    fields and no expense being edited. *)
Definition initial : screen :=
  {| expenses := Some []; filter := FILTER_ALL;
     amount := []; category := []; note := [];
     editingExpense := None;
     editAmount := []; editCategory := []; editNote := []; editDate := [] |}.

(** Everything an operation can touch: the table, the statements sent to
    it so far (oldest first), and the screen state. *)
Record world := {
  db : database;
  sent : list statement;
  ui : screen
}.

Definition setFilter (f : filterKind) (w : world) : world :=
  let s := ui w in
  {| db := db w; sent := sent w;
     ui := {| expenses := expenses s; filter := f;
              amount := amount s; category := category s; note := note s;
              editingExpense := editingExpense s;
              editAmount := editAmount s; editCategory := editCategory s;
              editNote := editNote s; editDate := editDate s |} |}.

(** [s.trim() || null] *)
Definition trimOrNull (s : jsstring) : value :=
  match trim s with
  | [] => VNull
  | t => VString t
  end.

Section Operations.

Variable compareStored : value -> value -> comparison.

(** [loadExpenses]: read every row and replace the cached list. *)
Definition loadExpenses (w : world) : world :=
  let s := ui w in
  {| db := runAsync SELECT_ALL (db w);
     sent := sent w ++ [SELECT_ALL];
     ui := {| expenses := Some (getAllAsync compareStored (db w));
              filter := filter s;
              amount := amount s; category := category s; note := note s;
              editingExpense := editingExpense s;
              editAmount := editAmount s; editCategory := editCategory s;
              editNote := editNote s; editDate := editDate s |} |}.

(** [db.runAsync(...)] from the screen: the statement is sent and applied. *)
Definition execute (st : statement) (w : world) : world :=
  {| db := runAsync st (db w); sent := sent w ++ [st]; ui := ui w |}.

(** [setAmount(''); setCategory(''); setNote('')] *)
Definition clearForm (w : world) : world :=
  let s := ui w in
  {| db := db w; sent := sent w;
     ui := {| expenses := expenses s; filter := filter s;
              amount := []; category := []; note := [];
              editingExpense := editingExpense s;
              editAmount := editAmount s; editCategory := editCategory s;
              editNote := editNote s; editDate := editDate s |} |}.

(** [cancelEdit] *)
Definition cancelEdit (w : world) : world :=
  let s := ui w in
  {| db := db w; sent := sent w;
     ui := {| expenses := expenses s; filter := filter s;
              amount := amount s; category := category s; note := note s;
              editingExpense := None;
              editAmount := []; editCategory := []; editNote := [];
              editDate := [] |} |}.

(** The guard of [addExpense]:
    [isNaN(amt) || amt <= 0 || !category.trim()] *)
Definition addRejected (s : screen) : bool :=
  let amt := parseFloat (amount s) in
  isNaN amt || leb amt zero
  || match trim (category s) with [] => true | _ => false end.

(** [addExpense], run at the clock reading [now] *)
Definition addExpense (now : Z) (w : world) : world :=
  let s := ui w in
  let amt := parseFloat (amount s) in
  if addRejected s then w
  else
    loadExpenses
      (clearForm
         (execute (INSERT amt (trim (category s)) (trimOrNull (note s))
                          (getTodayIsoDate now)) w)).

(** The guard of [saveEdit] after [if (!editingExpense) return]:
    [isNaN(amt) || amt <= 0 || !editCategory.trim() || !editDate.trim()] *)
Definition editRejected (s : screen) : bool :=
  let amt := parseFloat (editAmount s) in
  isNaN amt || leb amt zero
  || match trim (editCategory s) with [] => true | _ => false end
  || match trim (editDate s) with [] => true | _ => false end.

(** [saveEdit] *)
Definition saveEdit (w : world) : world :=
  let s := ui w in
  match editingExpense s with
  | None => w
  | Some editing =>
      let amt := parseFloat (editAmount s) in
      if editRejected s then w
      else
        loadExpenses
          (cancelEdit
             (execute (UPDATE amt (trim (editCategory s)) (trimOrNull (editNote s))
                              (trim (editDate s)) (Expense.id editing)) w))
  end.

(** [deleteExpense(id)] *)
Definition deleteExpense (i : Z) (w : world) : world :=
  loadExpenses (execute (DELETE i) w).

End Operations.

End Screen.

(** ** The other handlers of the screen *)

Module Handlers.
Import Store Screen.

(** [getFilterLabel(filter)] *)
Definition getFilterLabel (filter : filterKind) : jsstring :=
  match filter with
  | FILTER_WEEK => js "This Week"
  | FILTER_MONTH => js "This Month"
  | _ => js "All Time"
  end.

(** The text inputs of the add form and of the edit panel, each bound to
    one state cell through [value] and [onChangeText]. *)
Inductive field :=
| Amount | Category | Note
| EditAmount | EditCategory | EditNote | EditDate.

(** [onChangeText] of the input bound to [f]: the cell takes the text. *)
Definition changeText (f : field) (text : jsstring) (w : world) : world :=
  let s := ui w in
  {| db := db w; sent := sent w;
     ui := {| expenses := expenses s; filter := filter s;
              amount := match f with Amount => text | _ => amount s end;
              category := match f with Category => text | _ => category s end;
              note := match f with Note => text | _ => note s end;
              editingExpense := editingExpense s;
              editAmount := match f with EditAmount => text | _ => editAmount s end;
              editCategory := match f with EditCategory => text | _ => editCategory s end;
              editNote := match f with EditNote => text | _ => editNote s end;
              editDate := match f with EditDate => text | _ => editDate s end |} |}.

(** What a text cell of the screen record takes from a value.  The record
    keeps strings in these cells; a value that is not a string has no
    place in it. *)
Definition textCell (v : value) : option jsstring :=
  match v with
  | VString s => Some s
  | _ => None
  end.

Section Editing.

Variable NumberToString : number -> jsstring.

(** [startEditing(exp)], at the clock reading [now] that
    [getTodayIsoDate()] would read: [String(exp.amount)], [exp.category],
    [exp.note || ''] and [exp.date || getTodayIsoDate()] go to the cells of
    the edit panel.  The result is [None] when one of the last three is not
    a string. *)
Definition startEditing (now : Z) (exp : expense) (w : world) : option world :=
  let s := ui w in
  match textCell (Expense.category exp),
        textCell (orElse (Expense.note exp) (VString [])),
        textCell (orElse (Expense.date exp) (VString (getTodayIsoDate now))) with
  | Some c, Some n, Some d =>
      Some {| db := db w; sent := sent w;
              ui := {| expenses := expenses s; filter := filter s;
                       amount := amount s; category := category s; note := note s;
                       editingExpense := Some exp;
                       editAmount := ToString NumberToString (Expense.amount exp);
                       editCategory := c; editNote := n; editDate := d |} |}
  | _, _, _ => None
  end.

End Editing.

Section Mount.

Variable compareStored : value -> value -> comparison.

(** [CREATE TABLE IF NOT EXISTS expenses (...)] on a database file that
    has the table ([Some]) or does not have it yet ([None]). *)
Definition createTable (file : option database) : database :=
  match file with
  | Some d => d
  | None => {| rows := []; sequence := 0 |}
  end.

(** The effect of mounting the screen: the state cells take their initial
    values, [setup] makes sure the table exists and calls [loadExpenses].
    The log keeps the statements that read or write rows. *)
Definition setup (file : option database) : world :=
  loadExpenses compareStored
    {| db := createTable file; sent := []; ui := initial |}.

End Mount.

End Handlers.

(** ** What the screen prints *)

Module Display.
Import Handlers.

Section Texts.

Variable NumberToString : number -> jsstring.

(** The decimal digits of a natural number, most significant first, with
    as many steps as the number has binary digits at most. *)
Fixpoint digitsFuel (fuel : nat) (n : Z) : jsstring :=
  match fuel with
  | O => []
  | S k =>
      if n <? 10 then [Z.to_N (48 + n)]
      else (digitsFuel k (n / 10) ++ [Z.to_N (48 + n mod 10)])%list
  end.

Definition decimalDigits (n : Z) : jsstring :=
  digitsFuel (S (Z.to_nat (Z.log2 n))) n.

(** [x.toFixed(2)] (ECMA-262 21.1.3.3).  A number that is not finite is
    printed as [String(x)].  Otherwise the sign is set aside; from 10^21 on
    the magnitude is printed as [String] prints it; below, [n] is the
    integer for which [n / 100] is closest to the magnitude (the larger of
    two that are as close), and its digits, filled with zeros on the left
    up to three, get a dot before the last two. *)
Definition toFixed2 (x : number) : jsstring :=
  match x with
  | S754_zero _ => js "0.00"
  | S754_finite s m e =>
      let sign := if s then js "-" else [] in
      if (0 <=? e) && (10 ^ 21 <=? Zpos m * 2 ^ e)
      then (sign ++ NumberToString (S754_finite false m e))%list
      else
        let n := match e with
                 | Zneg k => (200 * Zpos m + 2 ^ Zpos k) / 2 ^ (Zpos k + 1)
                 | _ => 100 * (Zpos m * 2 ^ e)
                 end in
        let ds := decimalDigits n in
        let ds := (repeat 48%N (3 - List.length ds) ++ ds)%list in
        let k := List.length ds in
        (sign ++ firstn (k - 2) ds ++ js "." ++ skipn (k - 2) ds)%list
  | _ => NumberToString x
  end.

(** The title and the amount of the summary card:
    [Total Spending ({getFilterLabel(filter)})] and
    [${overallTotal.toFixed(2)}]. *)
Definition summaryTitle (filter : filterKind) : jsstring :=
  (js "Total Spending (" ++ getFilterLabel filter ++ js ")")%list.

Definition summaryAmount (overallTotal : number) : jsstring :=
  (js "$" ++ toFixed2 overallTotal)%list.

(** The amount line of a listed row: [${Number(item.amount).toFixed(2)}]. *)
Definition expenseAmount (item : expense) : jsstring :=
  (js "$" ++ toFixed2 (ToNumber (Expense.amount item)))%list.

End Texts.

End Display.

(** ** Vocabulary of the properties

    Notions that the properties of Part II are stated with.  They are not
    part of the program. *)

Module NumberReading.

(** [shiftl p n] is [p * 2^n]. *)
Definition shiftl (p : positive) (n : nat) : positive := Nat.iter n xO p.

(** The number that a positive integer [c] of at most 53 bits is: its
    mantissa shifted up to 53 bits, with the exponent that undoes it. *)
Definition canonical (c : positive) : number :=
  S754_finite false (shiftl c (Z.to_nat (53 - Zpos (digits2_pos c))))
              (Zpos (digits2_pos c) - 53).

(** [+0], the positive finite numbers and [+Infinity]. *)
Definition nonneg (x : number) : bool :=
  match x with
  | S754_zero false | S754_infinity false | S754_finite false _ _ => true
  | _ => false
  end.

(** The number that the integer [k] is, as a value. *)
Definition wholeValue (k : Z) : value := VNumber (ofZ k).

(** The sum of a list of integers. *)
Definition zsum (l : list Z) : Z := fold_right Z.add 0 l.

End NumberReading.
Export NumberReading.

Module Reading.

(** The keys without their repetitions, each where it first occurs. *)
Fixpoint firstOccurrences (keys : list jsstring) : list jsstring :=
  match keys with
  | [] => []
  | k :: rest => k :: filter (fun k' => negb (JSString.eqb k' k)) (firstOccurrences rest)
  end.

(** A key that a fresh [{}] does not answer to: neither [__proto__] nor a
    method of [Object.prototype]. *)
Definition ordinaryKey (key : jsstring) : bool :=
  negb (existsb (JSString.eqb key) inheritedKeys).

Definition isArrayIndex (key : jsstring) : bool :=
  match arrayIndex key with Some _ => true | None => false end.

(** The index an array-index key spells (0 for any other key). *)
Definition indexOf (key : jsstring) : Z :=
  match arrayIndex key with Some i => i | None => 0 end.

(** The amount of [exp] is the whole number [n]. *)
Definition wholeAmount (exp : expense) (n : Z) : Prop :=
  0 <= n /\ Expense.amount exp = VNumber (ofZ n).

(** The sum of the amounts of a list of records, left to right from 0. *)
Definition sumOfAmounts (l : list expense) : number :=
  fold_left add (map contribution l) zero.

Section Words.
Variable NumberToString : number -> jsstring.

(** The category label a record is counted under. *)
Definition label (exp : expense) : jsstring := categoryKey NumberToString exp.

(** The labels of the records, in order of first occurrence. *)
Definition labelsByFirstOccurrence (l : list expense) : list jsstring :=
  firstOccurrences (map label l).

(** The records counted under the label [c], in their order. *)
Definition recordsLabelled (c : jsstring) (l : list expense) : list expense :=
  filter (fun exp => JSString.eqb (label exp) c) l.

(** The sum of the values of a mapping, in enumeration order from 0:
    [Object.values(m).reduce((sum, v) => sum + v, 0)]. *)
Definition sumOfValues (m : object) : value :=
  fold_left (plus NumberToString) (map snd (entries m)) (VNumber zero).

End Words.

(** Entries ordered by the index they carry. *)
Definition byIndex (a b : Z * (jsstring * value)) : Prop := fst a <= fst b.

(** Keys ascending by the index they spell. *)
Definition ascending (keys : list jsstring) : Prop :=
  Sorted (fun a b => indexOf a <= indexOf b) keys.

End Reading.
Export Reading.

Module Samples.

(** A row with a numeric amount written as a decimal literal. *)
Definition row (i : Z) (amt cat day : string) : expense :=
  {| Expense.id := i;
     Expense.amount := VNumber (StringToNumber (js amt));
     Expense.category := VString (js cat);
     Expense.note := VNull;
     Expense.date := VString (js day) |}.

(** [exp] with its amount replaced. *)
Definition withAmount (exp : expense) (v : value) : expense :=
  {| Expense.id := Expense.id exp;
     Expense.amount := v;
     Expense.category := Expense.category exp;
     Expense.note := Expense.note exp;
     Expense.date := Expense.date exp |}.

(** The example of the specification. *)
Definition january : list expense :=
  [ row 1 "10" "Food" "2024-01-05";
    row 2 "20" "Food" "2024-01-20";
    row 3 "5" "Transit" "2024-02-01" ].

(** Three everyday amounts in two categories. *)
Definition groceries : list expense :=
  [ row 1 "0.1" "Food" "2024-01-05";
    row 2 "0.2" "Transit" "2024-01-05";
    row 3 "12.50" "Food" "2024-01-05" ].

(** A category whose name is a number. *)
Definition numbered : list expense :=
  [ row 1 "1" "Food" "2024-01-05";
    row 2 "2" "7" "2024-01-05" ].

(** A row whose amount is text that is not a number. *)
Definition garbled : expense :=
  withAmount (row 2 "0" "Food" "2024-01-05") (VString (js "abc")).

(** A host whose two parameters are never consulted by ordinary data. *)
Definition noText (x : number) : jsstring := [].
Definition noSource (key : jsstring) : jsstring := [].

End Samples.

Module WindowReading.
Section ZoneReading.
Variable LocalTZA : Z -> bool -> Z.

(** A zone whose offset changes leave the local days whole: converting a
    local time to UTC and back stays on the same local day, every local
    midnight exists, no instant before a local midnight shows a local time
    at or after it, and offsets are at most a day. *)
Record regularZone : Prop := {
  zone_days : forall x, Day (LocalTime LocalTZA (UTC LocalTZA x)) = Day x;
  zone_midnights : forall x,
      TimeWithinDay x = 0 -> LocalTime LocalTZA (UTC LocalTZA x) = x;
  zone_order : forall u v,
      TimeWithinDay (LocalTime LocalTZA v) = 0 ->
      (u < v <-> LocalTime LocalTZA u < LocalTime LocalTZA v);
  zone_offsets : forall t b, Z.abs (LocalTZA t b) <= msPerDay
}.

(** The index of the local weekday of [t] counted from Monday. *)
Definition weekdayIndex (t : Z) : Z := (WeekDay (LocalTime LocalTZA t) + 6) mod 7.

(** The day number of the Monday of the local week of [t]. *)
Definition mondayOf (t : Z) : Z := Day (LocalTime LocalTZA t) - weekdayIndex t.

(** The day numbers of the first of the local month of [t] and of the
    first of the month after it. *)
Definition monthStartOf (t : Z) : Z :=
  MakeDay (YearFromTime (LocalTime LocalTZA t)) (MonthFromTime (LocalTime LocalTZA t)) 1.

Definition monthEndOf (t : Z) : Z :=
  MakeDay (YearFromTime (LocalTime LocalTZA t)) (MonthFromTime (LocalTime LocalTZA t) + 1) 1.

(** [start <= d < end] on dates, none of them invalid. *)
Definition within (start end_ d : timevalue) : Prop :=
  exists s e x, start = Some s /\ end_ = Some e /\ d = Some x /\ s <= x < e.

(** The window a filter selects at the clock reading [now]; none for ALL. *)
Definition windowOf (f : filterKind) (now : Z) : option (timevalue * timevalue) :=
  match f with
  | FILTER_ALL => None
  | FILTER_WEEK => Some (getWeekBounds LocalTZA (Some now))
  | FILTER_MONTH => Some (getMonthBounds LocalTZA (Some now))
  end.

End ZoneReading.

(** [Subsequence a b]: [a] is [b] with some elements left out, the others
    in their original order. *)
Inductive Subsequence {A : Type} : list A -> list A -> Prop :=
| Subsequence_nil : Subsequence [] []
| Subsequence_keep x a b : Subsequence a b -> Subsequence (x :: a) (x :: b)
| Subsequence_drop x a b : Subsequence a b -> Subsequence a (x :: b).

(** The time value [t] is at least [days] days away from both ends of the
    range of valid time values. *)
Definition wellInside (days : Z) (t : Z) : Prop :=
  Z.abs t <= maxTime - days * msPerDay.

(** A zone at a constant offset from UTC. *)
Definition fixedOffset (offset : Z) : Z -> bool -> Z := fun _ _ => offset.

(** A zone that is at UTC until the instant 02:00 of day 19797
    (2024-03-15) and one hour ahead from then on: local times from 02:00 to
    03:00 of that day do not exist and are read with the earlier offset. *)
Definition springForward : Z -> bool -> Z :=
  fun t isUTC =>
    let change := 19797 * msPerDay + 2 * msPerHour in
    if isUTC then (if t <? change then 0 else msPerHour)
    else (if t <? change + msPerHour then 0 else msPerHour).

End WindowReading.
Export WindowReading.

Module FormReading.

(** The data model's notion of a valid date: ten characters [YYYY-MM-DD]
    naming a day of the calendar. *)
Definition validDateText (s : jsstring) : bool :=
  match s with
  | [y1; y2; y3; y4; h1; m1; m2; h2; d1; d2] =>
      let year := decimalValue [y1; y2; y3; y4] in
      let month := decimalValue [m1; m2] in
      let day := decimalValue [d1; d2] in
      forallb isDigit [y1; y2; y3; y4; m1; m2; d1; d2]
      && (h1 =? 45)%N && (h2 =? 45)%N
      && (1 <=? month) && (month <=? 12)
      && (1 <=? day) && (day <=? MakeDay year month 1 - MakeDay year (month - 1) 1)
  | _ => false
  end.

(** The calendar day of a time value as [YYYY-MM-DD], for years 0 to 9999. *)
Definition isoDay (t : Z) : jsstring :=
  (pad 4 (YearFromTime t) ++ js "-" ++ pad 2 (MonthFromTime t + 1)
   ++ js "-" ++ pad 2 (DateFromTime t))%list.

(** The day number that a valid date text names: what the date-only ISO
    format denotes, in days since the epoch. *)
Definition dayOfDateText (s : jsstring) : option Z :=
  match s with
  | [y1; y2; y3; y4; _; m1; m2; _; d1; d2] =>
      if validDateText s
      then Some (MakeDay (decimalValue [y1; y2; y3; y4])
                         (decimalValue [m1; m2] - 1)
                         (decimalValue [d1; d2]))
      else None
  | _ => None
  end.

End FormReading.
Export FormReading.

Module WindowSamples.

(** A host parser that knows the dates of the sample rows, each as the UTC
    midnight the date-only ISO format denotes, and nothing else. *)
Definition sampleParse (s : jsstring) : option Z :=
  if JSString.eqb s (js "2024-01-05") then Some 1704412800000
  else if JSString.eqb s (js "2024-01-07") then Some 1704585600000
  else if JSString.eqb s (js "2024-01-20") then Some 1705708800000
  else if JSString.eqb s (js "2024-02-01") then Some 1706745600000
  else None.

(** 2024-01-15T12:00:00Z, a Monday. *)
Definition midJanuary : Z := 1705320000000.

(** 2024-03-15T12:00:00Z, the Friday on which [springForward] changes. *)
Definition clockChangeNoon : Z := 1710504000000.

Definition dated (i : Z) (day : value) : expense :=
  {| Expense.id := i; Expense.amount := VNumber (ofZ 10);
     Expense.category := VString (js "Food"); Expense.note := VNull;
     Expense.date := day |}.

End WindowSamples.

Module FormSamples.
Import Screen Store.

Definition lunch : expense :=
  {| Expense.id := 1; Expense.amount := VNumber (ofZ 10);
     Expense.category := VString (js "Food"); Expense.note := VNull;
     Expense.date := VString (js "2024-01-05") |}.

(** A world with one stored row, shown unfiltered, and what was typed
    into the add form. *)
Definition typing (amt cat : string) : world :=
  {| db := {| rows := [lunch]; sequence := 1 |};
     sent := [];
     ui := {| expenses := Some [lunch]; filter := FILTER_ALL;
              amount := js amt; category := js cat; note := [];
              editingExpense := None;
              editAmount := []; editCategory := []; editNote := [];
              editDate := [] |} |}.

(** The same world while [lunch] is being edited, with what was typed
    into the edit panel. *)
Definition editing (amt cat day : string) : world :=
  {| db := {| rows := [lunch]; sequence := 1 |};
     sent := [];
     ui := {| expenses := Some [lunch]; filter := FILTER_ALL;
              amount := []; category := []; note := [];
              editingExpense := Some lunch;
              editAmount := js amt; editCategory := js cat; editNote := [];
              editDate := js day |} |}.

(** An ordering of stored values that considers them all equal. *)
Definition anyOrder (a b : value) : comparison := Eq.

(** 2024-01-07T22:30:00Z: already Monday 8 January two hours east. *)
Definition sundayNight : Z := 1704666600000.

End FormSamples.

Module BucketReading.
Section Buckets.
Variable NumberToString : number -> jsstring.
Variable functionSource : jsstring -> jsstring.

(** What [map[c] || 0] is as a primitive, given the own property of the
    mapping under the key [c], if it has one. *)
Definition runningValue (c : jsstring) (cur : option value) : value :=
  match cur with
  | Some v => if truthyValue v then v else VNumber zero
  | None =>
      if existsb (JSString.eqb c) objectPrototypeMethods
      then VString (functionSource c)
      else VNumber zero
  end.

(** The own property under the key [c] after one more record, given the
    one before it: a record with another label, or with the label
    [__proto__], leaves it alone. *)
Definition bucketStep (c : jsstring) (cur : option value) (exp : expense)
  : option value :=
  if JSString.eqb (label NumberToString exp) c && negb (JSString.eqb c protoKey)
  then Some (plus NumberToString (runningValue c cur) (VNumber (contribution exp)))
  else cur.

(** The own property under the key [c] after the records [l], from [{}]. *)
Definition bucket (c : jsstring) (l : list expense) : option value :=
  fold_left (bucketStep c) l None.

(** The amounts of the records as the host prints them, one after another. *)
Definition amountsText (l : list expense) : jsstring :=
  List.concat (map (fun exp => NumberToString (contribution exp)) l).

End Buckets.
End BucketReading.
Export BucketReading.

Module TextReading.

(** A text made of white space only (the empty text included). *)
Definition blank (s : jsstring) : bool := forallb isWhiteSpace s.

(** A text that is not empty and has no white space at either end. *)
Definition tidy (s : jsstring) : Prop :=
  s <> []
  /\ (forall c r, s = c :: r -> isWhiteSpace c = false)
  /\ (forall r c, s = (r ++ [c])%list -> isWhiteSpace c = false).

(** Whether a text starts with a character that continues a decimal
    literal after its integer digits: a digit, a dot or an exponent mark. *)
Definition continuesLiteral (s : jsstring) : bool :=
  match s with
  | [] => false
  | c :: _ => isDigit c || (c =? cDot)%N || (c =? cLowerE)%N || (c =? cUpperE)%N
  end.

(** Lexicographic comparison of two texts, code unit by code unit. *)
Fixpoint compareUnits (a b : jsstring) : comparison :=
  match a, b with
  | [], [] => Eq
  | [], _ :: _ => Lt
  | _ :: _, [] => Gt
  | x :: a', y :: b' =>
      match (x ?= y)%N with
      | Eq => compareUnits a' b'
      | c => c
      end
  end.

End TextReading.
Export TextReading.

Module SessionReading.
Import Store Screen Handlers.

(** The rows the screen holds, none while the cell is not an array. *)
Definition shown (w : world) : list expense :=
  match expenses (ui w) with
  | Some l => l
  | None => []
  end.

(** A row as the two forms write it: a positive number as the amount, a
    tidy text as the category and as the date, and a note that is null or
    a tidy text. *)
Definition formRow (exp : expense) : Prop :=
  (exists a, Expense.amount exp = VNumber a /\ ltb zero a = true)
  /\ (exists c, Expense.category exp = VString c /\ tidy c)
  /\ (Expense.note exp = VNull \/ exists n, Expense.note exp = VString n /\ tidy n)
  /\ (exists d, Expense.date exp = VString d /\ tidy d).

(** A table whose rows are form rows with pairwise distinct positive ids,
    none above the recorded sequence number. *)
Definition soundTable (d : database) : Prop :=
  Forall formRow (rows d)
  /\ NoDup (map Expense.id (rows d))
  /\ Forall (fun r => 0 < Expense.id r <= sequence d) (rows d).

(** A database file whose table, if there is one, is sound. *)
Definition soundFile (file : option database) : Prop :=
  match file with
  | Some d => soundTable d
  | None => True
  end.

(** The row that an UPDATE with these parameters leaves under the id [i]. *)
Definition updatedRow (i : Z) (a : number) (c : jsstring) (n : value) (d : jsstring)
  : expense :=
  {| Expense.id := i; Expense.amount := VNumber a;
     Expense.category := VString c; Expense.note := n;
     Expense.date := VString d |}.

(** An ordering of stored values as a collation gives it: comparing the
    other way round gives the opposite answer, and each of the three
    answers is transitive. *)
Record storageOrder (cmp : value -> value -> comparison) : Prop := {
  order_opp : forall a b, cmp b a = CompOpp (cmp a b);
  order_trans : forall r a b c, cmp a b = r -> cmp b c = r -> cmp a c = r
}.

(** Stored values ordered as texts unit by unit, the values that are not
    texts ranking equal and below every text. *)
Definition textOrder (a b : value) : comparison :=
  match a, b with
  | VString x, VString y => compareUnits x y
  | VString _, _ => Gt
  | _, VString _ => Lt
  | _, _ => Eq
  end.

Section Session.

Variable compareStored : value -> value -> comparison.
Variable NumberToString : number -> jsstring.

(** One thing the user does: typing into an input, choosing a filter,
    pressing Add, pressing Edit or the delete mark on a listed row,
    pressing Cancel or Save. *)
Inductive press : world -> world -> Prop :=
| press_key f text w : press w (changeText f text w)
| press_filter f w : press w (setFilter f w)
| press_add now w : press w (addExpense compareStored now w)
| press_edit now item w w' :
    In item (shown w) ->
    startEditing NumberToString now item w = Some w' ->
    press w w'
| press_cancel w : press w (cancelEdit w)
| press_save w : press w (saveEdit compareStored w)
| press_delete item w :
    In item (shown w) ->
    press w (deleteExpense compareStored (Expense.id item) w).

(** [later w w']: the screen gets from [w] to [w'] by user actions. *)
Inductive later : world -> world -> Prop :=
| later_now w : later w w
| later_press w w' w'' : later w w' -> press w' w'' -> later w w''.

(** What every state of a session satisfies. *)
Record sessionInvariant (w : world) : Prop := {
  session_table : soundTable (db w);
  session_cache : expenses (ui w) = Some (getAllAsync compareStored (db w))
}.

End Session.

End SessionReading.
Export SessionReading.

(* ================================================================== *)
(** * Part II. Properties                                              *)
(* ================================================================== *)

Module NumberFacts.

(** [iter_pos] is iteration over the corresponding natural number. *)
Lemma iter_pos_nat {A : Type} (f : A -> A) (p : positive) (x : A) :
  iter_pos f p x = Nat.iter (Pos.to_nat p) f x.
Proof.
  revert x; induction p as [p IH | p IH |]; intro x; cbn [iter_pos].
  - rewrite !IH, Pos2Nat.inj_xI, Nat.iter_succ_r.
    replace (2 * Pos.to_nat p)%nat with (Pos.to_nat p + Pos.to_nat p)%nat by lia.
    rewrite Nat.iter_add. reflexivity.
  - rewrite !IH, Pos2Nat.inj_xO.
    replace (2 * Pos.to_nat p)%nat with (Pos.to_nat p + Pos.to_nat p)%nat by lia.
    rewrite Nat.iter_add. reflexivity.
  - reflexivity.
Qed.

Lemma pos_iter_nat {A : Type} (f : A -> A) (p : positive) (x : A) :
  Pos.iter f x p = Nat.iter (Pos.to_nat p) f x.
Proof. rewrite Pos2Nat.inj_iter. reflexivity. Qed.

Lemma shiftl_add p n k : shiftl (shiftl p n) k = shiftl p (k + n).
Proof. unfold shiftl. rewrite Nat.iter_add. reflexivity. Qed.

Lemma shiftl_value p n : Zpos (shiftl p n) = Zpos p * 2 ^ Z.of_nat n.
Proof.
  induction n as [| n IH].
  - simpl. lia.
  - unfold shiftl in *. simpl Nat.iter. rewrite (Pos2Z.inj_xO (Nat.iter n xO p)), IH.
    rewrite Nat2Z.inj_succ, Z.pow_succ_r by lia. lia.
Qed.

Lemma digits_shiftl p n :
  Zpos (digits2_pos (shiftl p n)) = Zpos (digits2_pos p) + Z.of_nat n.
Proof.
  induction n as [| n IH].
  - simpl. lia.
  - unfold shiftl in *. simpl Nat.iter. simpl digits2_pos.
    rewrite Pos2Z.inj_succ, IH. lia.
Qed.

Lemma digits_bounds p :
  2 ^ (Zpos (digits2_pos p) - 1) <= Zpos p < 2 ^ Zpos (digits2_pos p).
Proof.
  induction p as [p IH | p IH |]; simpl digits2_pos.
  - rewrite Pos2Z.inj_succ, (Pos2Z.inj_xI p).
    replace (Z.succ (Zpos (digits2_pos p)) - 1) with (Z.succ (Zpos (digits2_pos p) - 1)) by lia.
    rewrite !Z.pow_succ_r by lia. lia.
  - rewrite Pos2Z.inj_succ, (Pos2Z.inj_xO p).
    replace (Z.succ (Zpos (digits2_pos p)) - 1) with (Z.succ (Zpos (digits2_pos p) - 1)) by lia.
    rewrite !Z.pow_succ_r by lia. lia.
  - simpl. lia.
Qed.

Lemma digits_le p n : 0 <= n -> Zpos p < 2 ^ n -> Zpos (digits2_pos p) <= n.
Proof.
  intros Hn Hp. destruct (Z_le_gt_dec (Zpos (digits2_pos p)) n) as [H | H]; [exact H |].
  exfalso. pose proof (digits_bounds p) as [Hlo _].
  assert (2 ^ n <= 2 ^ (Zpos (digits2_pos p) - 1)) by (apply Z.pow_le_mono_r; lia).
  lia.
Qed.

(** Shifting an exact record right over zero bits stays exact. *)
Lemma shr_exact p n :
  Nat.iter n shr_1 (Build_shr_record (Zpos (shiftl p n)) false false)
  = Build_shr_record (Zpos p) false false.
Proof.
  induction n as [| n IH].
  - reflexivity.
  - rewrite Nat.iter_succ_r. unfold shiftl. simpl Nat.iter at 2. simpl shr_1.
    exact IH.
Qed.

Lemma fexp_normal d : -1021 <= d -> fexp prec emax d = d - 53.
Proof. intro H. unfold fexp, emin, prec, emax. lia. Qed.

Lemma shr_zero mrs e : shr mrs e 0 = (mrs, e).
Proof. reflexivity. Qed.

Lemma shr_nat p n e :
  shr (Build_shr_record (Zpos (shiftl p n)) false false) e (Z.of_nat n)
  = (Build_shr_record (Zpos p) false false, e + Z.of_nat n).
Proof.
  destruct n as [| n].
  - simpl. f_equal. lia.
  - change (Z.of_nat (S n)) with (Zpos (Pos.of_succ_nat n)).
    unfold shr. rewrite iter_pos_nat, SuccNat2Pos.id_succ, shr_exact.
    reflexivity.
Qed.

(** Rounding a mantissa that is a 53-bit number times a power of two is
    exact: the trailing zeros are shifted out and nothing is lost. *)
Lemma round_aux_shift m k e :
  Zpos (digits2_pos m) = 53 ->
  -1074 <= e + Z.of_nat k <= 971 ->
  binary_round_aux prec emax false (Zpos (shiftl m k)) e loc_Exact
  = S754_finite false m (e + Z.of_nat k).
Proof.
  intros Hm He. unfold binary_round_aux, shr_fexp.
  cbn [Zdigits2 shr_record_of_loc]. rewrite digits_shiftl, Hm.
  rewrite fexp_normal by lia.
  replace (53 + Z.of_nat k + e - 53 - e) with (Z.of_nat k) by lia.
  rewrite shr_nat. cbn [shr_m loc_of_shr_record round_nearest_even Zdigits2 shr_record_of_loc].
  rewrite Hm, fexp_normal by lia.
  replace (53 + (e + Z.of_nat k) - 53 - (e + Z.of_nat k)) with 0 by lia.
  rewrite shr_zero. cbn [shr_m].
  replace (e + Z.of_nat k <=? emax - prec) with true; [reflexivity |].
  symmetry. apply Z.leb_le. unfold emax, prec. lia.
Qed.

Lemma binary_round_exact c n :
  Zpos (digits2_pos c) <= 53 ->
  binary_round prec emax false (shiftl c n) (- Z.of_nat n) = canonical c.
Proof.
  intro Hc. unfold binary_round. rewrite digits_shiftl.
  replace (Zpos (digits2_pos c) + Z.of_nat n + - Z.of_nat n)
    with (Zpos (digits2_pos c)) by lia.
  rewrite fexp_normal by lia.
  set (d := Zpos (digits2_pos c)) in *.
  assert (Hd : 1 <= d) by (subst d; lia).
  unfold shl_align.
  destruct (d - 53 - - Z.of_nat n) as [| q | q] eqn:Hq.
  - replace (shiftl c n) with (shiftl (shiftl c (Z.to_nat (53 - d))) 0) at 1.
    2:{ rewrite shiftl_add. f_equal. lia. }
    rewrite round_aux_shift.
    + unfold canonical. fold d. f_equal. lia.
    + rewrite digits_shiftl. fold d. lia.
    + lia.
  - replace (shiftl c n)
      with (shiftl (shiftl c (Z.to_nat (53 - d))) (Pos.to_nat q)) at 1.
    2:{ rewrite shiftl_add. f_equal. lia. }
    rewrite round_aux_shift.
    + unfold canonical. fold d. f_equal. lia.
    + rewrite digits_shiftl. fold d. lia.
    + lia.
  - rewrite pos_iter_nat. fold (shiftl (shiftl c n) (Pos.to_nat q)).
    rewrite shiftl_add.
    replace (Pos.to_nat q + n)%nat with (Z.to_nat (53 - d)) by lia.
    change (shiftl c (Z.to_nat (53 - d)))
      with (shiftl (shiftl c (Z.to_nat (53 - d))) 0).
    rewrite round_aux_shift.
    + unfold canonical. fold d. f_equal. lia.
    + rewrite digits_shiftl. fold d. lia.
    + lia.
Qed.

Lemma ofZ_pos c : Zpos (digits2_pos c) <= 53 -> ofZ (Zpos c) = canonical c.
Proof.
  intro Hc. unfold ofZ, binary_normalize.
  exact (binary_round_exact c 0 Hc).
Qed.


Lemma shl_align_fst m e e' :
  e' <= e -> fst (shl_align m e e') = shiftl m (Z.to_nat (e - e')).
Proof.
  intro H. unfold shl_align.
  destruct (e' - e) as [| q | q] eqn:Hq; cbn [fst].
  - replace (e - e') with 0 by lia. reflexivity.
  - lia.
  - rewrite pos_iter_nat. unfold shiftl. f_equal. lia.
Qed.

Lemma digits_mono a b : (a <= b)%positive -> Zpos (digits2_pos a) <= Zpos (digits2_pos b).
Proof.
  intro H. apply digits_le; [lia |].
  pose proof (digits_bounds b) as [_ Hb]. lia.
Qed.

Lemma shiftl_plus a b k : (shiftl a k + shiftl b k)%positive = shiftl (a + b) k.
Proof.
  apply Pos2Z.inj. rewrite Pos2Z.inj_add, !shiftl_value, Pos2Z.inj_add. lia.
Qed.

(** Adding two whole numbers whose sum fits 53 bits is exact. *)
Lemma add_canonical a b :
  Zpos (digits2_pos (a + b)) <= 53 ->
  add (canonical a) (canonical b) = canonical (a + b).
Proof.
  intro Hab.
  assert (Ha : Zpos (digits2_pos a) <= 53)
    by (pose proof (digits_mono a (a + b)); lia).
  assert (Hb : Zpos (digits2_pos b) <= 53)
    by (pose proof (digits_mono b (a + b)); lia).
  assert (Hab_a : Zpos (digits2_pos a) <= Zpos (digits2_pos (a + b)))
    by (apply digits_mono; lia).
  unfold add, canonical at 1 2, SFadd.
  set (da := Zpos (digits2_pos a)) in *. set (db := Zpos (digits2_pos b)) in *.
  set (ez := Z.min (da - 53) (db - 53)).
  rewrite !shl_align_fst by (subst ez; lia).
  rewrite !shiftl_add.
  replace (Z.to_nat (da - 53 - ez) + Z.to_nat (53 - da))%nat with (Z.to_nat (- ez))
    by (subst ez; lia).
  replace (Z.to_nat (db - 53 - ez) + Z.to_nat (53 - db))%nat with (Z.to_nat (- ez))
    by (subst ez; lia).
  cbn [cond_Zopp]. rewrite <- Pos2Z.inj_add, shiftl_plus.
  cbn [binary_normalize].
  replace ez with (- Z.of_nat (Z.to_nat (- ez))) at 2 by (subst ez; lia).
  apply binary_round_exact. exact Hab.
Qed.

Lemma ofZ_small z : 0 < z < 2 ^ 53 -> ofZ z = canonical (Z.to_pos z).
Proof.
  intros [H0 H1]. destruct z as [| p | p]; try lia.
  change (Z.to_pos (Zpos p)) with p. apply ofZ_pos. apply digits_le; [lia | exact H1].
Qed.

(** Whole-number addition below [2^53] is exact. *)
Lemma add_ofZ a b :
  0 <= a -> 0 <= b -> a + b < 2 ^ 53 -> add (ofZ a) (ofZ b) = ofZ (a + b).
Proof.
  intros Ha Hb Hab.
  destruct (Z.eq_dec a 0) as [-> | Ha0].
  { destruct b as [| p | p]; try lia; [reflexivity |].
    rewrite Z.add_0_l, (ofZ_small (Zpos p)) by lia. reflexivity. }
  destruct (Z.eq_dec b 0) as [-> | Hb0].
  { rewrite Z.add_0_r, (ofZ_small a) by lia. reflexivity. }
  rewrite !ofZ_small by lia.
  rewrite add_canonical.
  - f_equal. lia.
  - apply digits_le; lia.
Qed.

(** *** Sums of non-negative numbers stay non-negative *)

Lemma shr_1_nonneg mrs : 0 <= shr_m mrs -> 0 <= shr_m (shr_1 mrs).
Proof.
  destruct mrs as [m r s]. cbn [shr_m]. intro H.
  destruct m as [| [p | p |] | p]; cbn; lia.
Qed.

Lemma shr_nonneg mrs e n : 0 <= shr_m mrs -> 0 <= shr_m (fst (shr mrs e n)).
Proof.
  intro H. destruct n as [| p | p]; cbn [shr fst]; try exact H.
  rewrite iter_pos_nat. induction (Pos.to_nat p) as [| k IH]; [exact H |].
  rewrite Nat.iter_succ. apply shr_1_nonneg, IH.
Qed.

Lemma shr_fexp_nonneg m e l : 0 <= m -> 0 <= shr_m (fst (shr_fexp prec emax m e l)).
Proof.
  intro H. unfold shr_fexp. apply shr_nonneg.
  destruct l as [| []]; exact H.
Qed.

Lemma round_nearest_even_nonneg m l : 0 <= m -> 0 <= round_nearest_even m l.
Proof.
  intro H. destruct l as [| []]; cbn [round_nearest_even]; try lia.
  destruct (Z.even m); lia.
Qed.

Lemma round_aux_nonneg m e l :
  0 <= m -> nonneg (binary_round_aux prec emax false m e l) = true.
Proof.
  intro H. unfold binary_round_aux.
  pose proof (shr_fexp_nonneg m e l H) as H1.
  destruct (shr_fexp prec emax m e l) as [mrs' e']. cbn [fst] in H1.
  pose proof (shr_fexp_nonneg _ e' loc_Exact
                (round_nearest_even_nonneg _ (loc_of_shr_record mrs') H1)) as H2.
  destruct (shr_fexp prec emax _ e' loc_Exact) as [mrs'' e'']. cbn [fst] in H2.
  destruct (shr_m mrs'') as [| q | q]; [reflexivity | | lia].
  destruct (e'' <=? emax - prec); reflexivity.
Qed.

Lemma add_nonneg x y :
  nonneg x = true -> nonneg y = true -> nonneg (add x y) = true.
Proof.
  destruct x as [[] | [] | | [] mx ex]; try discriminate;
  destruct y as [[] | [] | | [] my ey]; try discriminate; intros _ _;
  try reflexivity.
  unfold add, SFadd. cbn [cond_Zopp]. rewrite <- Pos2Z.inj_add.
  cbn [binary_normalize]. unfold binary_round.
  destruct (shl_align _ _ _) as [mz ez]. apply round_aux_nonneg. lia.
Qed.

(** A non-negative number is falsy only when it is [+0]. *)
Lemma nonneg_falsy x : nonneg x = true -> truthy x = false -> x = zero.
Proof.
  destruct x as [[] | [] | | [] m e]; try discriminate; reflexivity.
Qed.

Lemma add_zero_l x : nonneg x = true -> add zero x = x.
Proof.
  destruct x as [[] | [] | | [] m e]; try discriminate; reflexivity.
Qed.

End NumberFacts.

Module ObjectFacts.
Import NumberFacts.

Lemma eqb_eq a b : JSString.eqb a b = true <-> a = b.
Proof.
  unfold JSString.eqb. destruct (list_eq_dec N.eq_dec a b); split; congruence.
Qed.

Lemma eqb_refl a : JSString.eqb a a = true.
Proof. apply eqb_eq. reflexivity. Qed.

Lemma eqb_neq a b : JSString.eqb a b = false <-> a <> b.
Proof.
  unfold JSString.eqb. destruct (list_eq_dec N.eq_dec a b); split; congruence.
Qed.

Lemma eqb_sym a b : JSString.eqb a b = JSString.eqb b a.
Proof.
  destruct (JSString.eqb b a) eqn:E.
  - apply eqb_eq in E. subst. apply eqb_refl.
  - apply eqb_neq in E. apply eqb_neq. congruence.
Qed.

Lemma existsb_eqb_In k ks : existsb (JSString.eqb k) ks = true <-> In k ks.
Proof.
  rewrite existsb_exists. split.
  - intros (x & Hx & E). apply eqb_eq in E. subst. exact Hx.
  - intro H. exists k. split; [exact H | apply eqb_refl].
Qed.

Lemma existsb_eqb_not_In k ks : existsb (JSString.eqb k) ks = false <-> ~ In k ks.
Proof.
  rewrite <- existsb_eqb_In. destruct (existsb _ ks); split; congruence.
Qed.

(** *** Own properties *)

Lemma getOwn_None m k : getOwn m k = None <-> ~ In k (map fst m).
Proof.
  induction m as [| [k' v] m IH]; cbn [getOwn map fst In].
  - tauto.
  - destruct (JSString.eqb k' k) eqn:E.
    + apply eqb_eq in E. subst. split; [discriminate | tauto].
    + apply eqb_neq in E. rewrite IH. tauto.
Qed.

Lemma getOwn_Some_In m k v : getOwn m k = Some v -> In (k, v) m.
Proof.
  induction m as [| [k' w] m IH]; cbn [getOwn]; [discriminate |].
  destruct (JSString.eqb k' k) eqn:E.
  - apply eqb_eq in E. intro H. injection H as ->. subst. left. reflexivity.
  - intro H. right. auto.
Qed.

Lemma keys_replaceOwn m k v : map fst (replaceOwn m k v) = map fst m.
Proof.
  induction m as [| [k' w] m IH]; cbn [replaceOwn]; [reflexivity |].
  destruct (JSString.eqb k' k); cbn [map fst]; [reflexivity | now rewrite IH].
Qed.

Lemma getOwn_replaceOwn m k v k' :
  getOwn (replaceOwn m k v) k'
  = if JSString.eqb k k' then option_map (fun _ => v) (getOwn m k) else getOwn m k'.
Proof.
  induction m as [| [k0 w] m IH]; cbn [replaceOwn getOwn].
  - destruct (JSString.eqb k k'); reflexivity.
  - destruct (JSString.eqb k0 k) eqn:E0; cbn [getOwn].
    + apply eqb_eq in E0. subst k0.
      destruct (JSString.eqb k k'); reflexivity.
    + destruct (JSString.eqb k0 k') eqn:E1.
      * apply eqb_eq in E1. subst k0. rewrite eqb_sym, E0. reflexivity.
      * exact IH.
Qed.

Lemma getOwn_app m m' k :
  getOwn (m ++ m') k = match getOwn m k with Some v => Some v | None => getOwn m' k end.
Proof.
  induction m as [| [k0 w] m IH]; cbn [app getOwn]; [reflexivity |].
  destruct (JSString.eqb k0 k); [reflexivity | exact IH].
Qed.

(** An ordinary key is neither [__proto__] nor a method of
    [Object.prototype]: looking it up finds an own property or nothing. *)
Lemma get_ordinary m k :
  ordinaryKey k = true ->
  get m k = match getOwn m k with Some v => Own v | None => Missing end.
Proof.
  unfold ordinaryKey, inheritedKeys, get. cbn [existsb].
  rewrite negb_true_iff, orb_false_iff. intros [Hp Hm].
  destruct (getOwn m k); [reflexivity |]. rewrite Hp, Hm. reflexivity.
Qed.

Lemma set_ordinary m k v :
  ordinaryKey k = true ->
  set m k v = match getOwn m k with
              | Some _ => replaceOwn m k v
              | None => m ++ [(k, v)]
              end.
Proof.
  unfold ordinaryKey, inheritedKeys, set. cbn [existsb].
  rewrite negb_true_iff, orb_false_iff. intros [Hp _]. rewrite Hp. reflexivity.
Qed.

(** *** Labels in order of first occurrence *)

Lemma firstOccurrences_In k ks : In k (firstOccurrences ks) <-> In k ks.
Proof.
  induction ks as [| a ks IH]; cbn [firstOccurrences In]; [tauto |].
  rewrite filter_In, IH, negb_true_iff, eqb_neq.
  destruct (list_eq_dec N.eq_dec a k); [tauto |]. split; [tauto |].
  intros [H | H]; [tauto | right; split; [exact H | congruence]].
Qed.

Lemma firstOccurrences_snoc ks k :
  firstOccurrences (ks ++ [k])
  = if existsb (JSString.eqb k) (firstOccurrences ks)
    then firstOccurrences ks else firstOccurrences ks ++ [k].
Proof.
  induction ks as [| a ks IH]; cbn [app firstOccurrences existsb]; [reflexivity |].
  rewrite IH. destruct (JSString.eqb k a) eqn:Eka; cbn [orb].
  - destruct (existsb (JSString.eqb k) (firstOccurrences ks)); [reflexivity |].
    rewrite filter_app. cbn [filter]. rewrite Eka. cbn [negb].
    rewrite app_nil_r. reflexivity.
  - destruct (existsb (JSString.eqb k) (firstOccurrences ks)) eqn:Ex.
    + replace (existsb _ (filter _ (firstOccurrences ks))) with true; [reflexivity |].
      symmetry. apply existsb_eqb_In. apply existsb_eqb_In in Ex.
      apply filter_In. split; [exact Ex |]. rewrite Eka. reflexivity.
    + replace (existsb _ (filter _ (firstOccurrences ks))) with false.
      * rewrite filter_app. cbn [filter]. rewrite Eka. reflexivity.
      * symmetry. apply existsb_eqb_not_In. apply existsb_eqb_not_In in Ex.
        rewrite filter_In. tauto.
Qed.

Lemma firstOccurrences_NoDup ks : NoDup (firstOccurrences ks).
Proof.
  induction ks as [| a ks IH]; cbn [firstOccurrences]; constructor.
  - rewrite filter_In, negb_true_iff, eqb_neq. tauto.
  - apply NoDup_filter, IH.
Qed.

End ObjectFacts.

Module AggregatorFacts.
Import NumberFacts ObjectFacts.

Section Totals.
Variable NumberToString : number -> jsstring.
Variable functionSource : jsstring -> jsstring.

Local Abbreviation lbl := (label NumberToString).
Local Abbreviation totals := (totalsByCategory NumberToString functionSource).
Local Abbreviation labels := (labelsByFirstOccurrence NumberToString).
Local Abbreviation labelled := (recordsLabelled NumberToString).

Lemma totals_snoc l exp :
  totals (l ++ [exp]) = accumulate NumberToString functionSource (totals l) exp.
Proof. unfold totalsByCategory. rewrite fold_left_app. reflexivity. Qed.

Lemma labels_snoc l exp :
  labels (l ++ [exp])
  = if existsb (JSString.eqb (lbl exp)) (labels l)
    then labels l else labels l ++ [lbl exp].
Proof.
  unfold labelsByFirstOccurrence. rewrite map_app. cbn [map].
  apply firstOccurrences_snoc.
Qed.

Lemma labels_In c l : In c (labels l) <-> exists exp, In exp l /\ lbl exp = c.
Proof.
  unfold labelsByFirstOccurrence. rewrite firstOccurrences_In, in_map_iff.
  split; intros (e & H1 & H2); exists e; tauto.
Qed.

Lemma recordsLabelled_snoc c l exp :
  labelled c (l ++ [exp])
  = labelled c l ++ (if JSString.eqb (lbl exp) c then [exp] else []).
Proof. unfold recordsLabelled. rewrite filter_app. reflexivity. Qed.

Lemma recordsLabelled_absent c l : ~ In c (labels l) -> labelled c l = [].
Proof.
  intro H. unfold recordsLabelled.
  induction l as [| e l IH]; [reflexivity |]. cbn [filter].
  destruct (JSString.eqb (lbl e) c) eqn:E.
  - exfalso. apply H. apply labels_In. exists e. split; [left; reflexivity |].
    apply eqb_eq, E.
  - apply IH. intro Hc. apply H. apply labels_In. apply labels_In in Hc.
    destruct Hc as (e' & He' & Hl). exists e'. split; [right; exact He' | exact Hl].
Qed.

Lemma sumOfAmounts_snoc l exp :
  sumOfAmounts (l ++ [exp]) = add (sumOfAmounts l) (contribution exp).
Proof. unfold sumOfAmounts. rewrite map_app, fold_left_app. reflexivity. Qed.

Lemma overallTotal_sum l : overallTotal l = sumOfAmounts l.
Proof.
  unfold overallTotal, sumOfAmounts. generalize zero.
  induction l as [| e l IH]; intro acc; cbn [fold_left map]; [reflexivity | apply IH].
Qed.

Lemma sumOfAmounts_nonneg l :
  Forall (fun exp => nonneg (contribution exp) = true) l ->
  nonneg (sumOfAmounts l) = true.
Proof.
  induction l as [| e l IH] using rev_ind; intro H; [reflexivity |].
  apply Forall_app in H. destruct H as [Hl He]. inversion He; subst.
  rewrite sumOfAmounts_snoc. apply add_nonneg; auto.
Qed.

Lemma recordsLabelled_Forall (P : expense -> Prop) c l :
  Forall P l -> Forall P (labelled c l).
Proof.
  intro H. unfold recordsLabelled. apply Forall_forall. intros e He.
  apply filter_In in He. rewrite Forall_forall in H. apply H, He.
Qed.

(** The state of the loop after the records [l], for ordinary labels and
    non-negative contributions: one own property per label, in order of
    first occurrence, holding the sum of that label's contributions. *)
Lemma totals_invariant l :
  Forall (fun exp => ordinaryKey (lbl exp) = true) l ->
  Forall (fun exp => nonneg (contribution exp) = true) l ->
  map fst (totals l) = labels l
  /\ forall c, getOwn (totals l) c
               = if existsb (JSString.eqb c) (labels l)
                 then Some (VNumber (sumOfAmounts (labelled c l)))
                 else None.
Proof.
  induction l as [| e l IH] using rev_ind; intros Hord Hnn.
  { split; reflexivity. }
  apply Forall_app in Hord. destruct Hord as [Hord He]. inversion He as [| ? ? Hk _]; subst.
  apply Forall_app in Hnn. destruct Hnn as [Hnn Hx]. inversion Hx as [| ? ? Hx0 _]; subst.
  destruct (IH Hord Hnn) as [IHk IHv]. clear IH He Hx.
  rewrite totals_snoc, labels_snoc. unfold accumulate.
  fold (lbl e). rewrite (get_ordinary _ _ Hk), (set_ordinary _ _ _ Hk).
  pose proof (IHv (lbl e)) as Hcur.
  destruct (existsb (JSString.eqb (lbl e)) (labels l)) eqn:Ex.
  - (* the label already has a property *)
    rewrite Hcur. cbn [truthyLookup truthyValue ToPrimitive].
    set (s := sumOfAmounts (labelled (lbl e) l)) in *.
    assert (Hs : nonneg s = true)
      by (apply sumOfAmounts_nonneg, recordsLabelled_Forall, Hnn).
    assert (Hlhs : (if truthy s then VNumber s else VNumber zero) = VNumber s).
    { destruct (truthy s) eqn:Et; [reflexivity |].
      rewrite (nonneg_falsy s Hs Et). reflexivity. }
    rewrite Hlhs. cbn [plus ToNumber]. split.
    + rewrite keys_replaceOwn. exact IHk.
    + intro c. rewrite getOwn_replaceOwn, recordsLabelled_snoc.
      destruct (JSString.eqb (lbl e) c) eqn:Ec.
      * apply eqb_eq in Ec. subst c. rewrite Hcur, Ex. cbn [option_map].
        rewrite sumOfAmounts_snoc. reflexivity.
      * rewrite app_nil_r. apply IHv.
  - (* first record with this label *)
    rewrite Hcur. cbn [truthyLookup]. cbn [plus ToNumber]. split.
    + rewrite map_app, IHk. reflexivity.
    + intro c. rewrite getOwn_app, IHv, recordsLabelled_snoc. cbn [getOwn].
      rewrite existsb_app. cbn [existsb]. rewrite orb_false_r.
      rewrite (eqb_sym c (lbl e)).
      destruct (JSString.eqb (lbl e) c) eqn:Ec.
      * apply eqb_eq in Ec. subst c. rewrite Ex. cbn [orb].
        rewrite recordsLabelled_absent by (apply existsb_eqb_not_In, Ex).
        reflexivity.
      * rewrite orb_false_r, app_nil_r.
        destruct (existsb (JSString.eqb c) (labels l)); reflexivity.
Qed.

(** *** Enumeration order *)

Lemma insertIndexed_perm i kv l :
  Permutation (insertIndexed i kv l) ((i, kv) :: l).
Proof.
  induction l as [| [j kv'] l IH]; cbn [insertIndexed]; [reflexivity |].
  destruct (i <? j); [reflexivity |].
  rewrite IH. apply perm_swap.
Qed.

Lemma indexedEntries_perm (m : object) :
  Permutation (map snd (indexedEntries m))
              (filter (fun kv => isArrayIndex (fst kv)) m).
Proof.
  induction m as [| [k v] m IH]; cbn [indexedEntries filter fst]; [reflexivity |].
  unfold isArrayIndex at 1. destruct (arrayIndex k) as [i |]; [| exact IH].
  rewrite insertIndexed_perm. cbn [map snd]. constructor. exact IH.
Qed.

Lemma filter_split_perm {A : Type} (f : A -> bool) (l : list A) :
  Permutation (filter f l ++ filter (fun x => negb (f x)) l) l.
Proof.
  induction l as [| x l IH]; cbn [filter]; [reflexivity |].
  destruct (f x); cbn [negb app].
  - constructor. exact IH.
  - rewrite <- Permutation_middle. constructor. exact IH.
Qed.

Lemma namedEntries_filter (m : object) :
  namedEntries m = filter (fun kv => negb (isArrayIndex (fst kv))) m.
Proof.
  unfold namedEntries, isArrayIndex. apply filter_ext. intro kv.
  destruct (arrayIndex (fst kv)); reflexivity.
Qed.

(** [Object.entries] only reorders the own properties. *)
Lemma entries_perm (m : object) : Permutation (entries m) m.
Proof.
  unfold entries. rewrite indexedEntries_perm, namedEntries_filter.
  apply filter_split_perm.
Qed.

Lemma entries_nil (m : object) : entries m = [] <-> m = [].
Proof.
  split; intro H.
  - apply Permutation_nil. rewrite <- H. apply entries_perm.
  - subst. reflexivity.
Qed.

Lemma insertIndexed_HdRel i kv j kv' l :
  j <= i -> HdRel byIndex (j, kv') l -> HdRel byIndex (j, kv') (insertIndexed i kv l).
Proof.
  intros Hji H. destruct l as [| [j' kv''] l]; cbn [insertIndexed].
  - constructor. exact Hji.
  - destruct (i <? j'); constructor; [exact Hji |]. inversion H; assumption.
Qed.

Lemma insertIndexed_sorted i kv l :
  Sorted byIndex l -> Sorted byIndex (insertIndexed i kv l).
Proof.
  induction l as [| [j kv'] l IH]; intro H; cbn [insertIndexed].
  - repeat constructor.
  - destruct (i <? j) eqn:E.
    + constructor; [exact H |]. constructor. unfold byIndex. cbn. lia.
    + inversion H as [| ? ? Hs Hh]; subst. constructor; [apply IH, Hs |].
      apply insertIndexed_HdRel; [lia | exact Hh].
Qed.

Lemma indexedEntries_sorted (m : object) : Sorted byIndex (indexedEntries m).
Proof.
  induction m as [| [k v] m IH]; cbn [indexedEntries]; [constructor |].
  destruct (arrayIndex k); [apply insertIndexed_sorted, IH | exact IH].
Qed.

Lemma indexedEntries_index (m : object) :
  Forall (fun ikv => arrayIndex (fst (snd ikv)) = Some (fst ikv)) (indexedEntries m).
Proof.
  induction m as [| [k v] m IH]; cbn [indexedEntries]; [constructor |].
  destruct (arrayIndex k) as [i |] eqn:E; [| exact IH].
  rewrite Forall_forall in *. intros x Hx.
  apply (Permutation_in _ (insertIndexed_perm i (k, v) _)) in Hx.
  destruct Hx as [<- | Hx]; [exact E | apply IH, Hx].
Qed.

Lemma indexed_keys_ascending (l : list (Z * (jsstring * value))) :
  Forall (fun ikv => arrayIndex (fst (snd ikv)) = Some (fst ikv)) l ->
  Sorted byIndex l ->
  ascending (map fst (map snd l)).
Proof.
  unfold ascending. induction l as [| [i [k v]] l IH]; intros Hi Hs; cbn [map fst snd].
  - constructor.
  - inversion Hi as [| ? ? Hik Hi']; subst. inversion Hs as [| ? ? Hs' Hh]; subst.
    constructor; [apply IH; assumption |].
    destruct l as [| [j [k' v']] l]; cbn [map fst snd]; constructor.
    inversion Hh as [| ? ? Hij]; subst. inversion Hi' as [| ? ? Hjk _]; subst.
    unfold indexOf. cbn [fst snd] in *. rewrite Hik, Hjk. exact Hij.
Qed.

Lemma filter_map_fst {B : Type} (f : jsstring -> bool) (m : list (jsstring * B)) :
  map fst (filter (fun kv => f (fst kv)) m) = filter f (map fst m).
Proof.
  induction m as [| [k v] m IH]; cbn [filter map fst]; [reflexivity |].
  destruct (f k); cbn [map fst]; now rewrite IH.
Qed.

(** The keys of [Object.entries(m)]: the array indices among the keys of
    [m] in ascending order, then the other keys in order of creation. *)
Lemma entries_keys (m : object) :
  exists indexed,
    map fst (entries m)
    = indexed ++ filter (fun k => negb (isArrayIndex k)) (map fst m)
    /\ ascending indexed
    /\ Permutation indexed (filter isArrayIndex (map fst m)).
Proof.
  exists (map fst (map snd (indexedEntries m))). split; [| split].
  - unfold entries. rewrite map_app, namedEntries_filter.
    rewrite (filter_map_fst (fun k => negb (isArrayIndex k))). reflexivity.
  - apply indexed_keys_ascending;
      [apply indexedEntries_index | apply indexedEntries_sorted].
  - rewrite <- (filter_map_fst isArrayIndex). apply Permutation_map.
    apply indexedEntries_perm.
Qed.

(** *** Whole-number amounts: every addition is exact *)

Lemma ofZ_nonneg n : 0 <= n < 2 ^ 53 -> nonneg (ofZ n) = true.
Proof.
  intros [H0 H1]. destruct (Z.eq_dec n 0) as [-> | Hn]; [reflexivity |].
  rewrite ofZ_small by lia. reflexivity.
Qed.

Lemma contribution_whole exp n :
  wholeAmount exp n -> n < 2 ^ 53 -> contribution exp = ofZ n.
Proof.
  intros [H0 Ha] Hn. unfold contribution, orElse. rewrite Ha.
  cbn [truthyValue]. destruct (truthy (ofZ n)) eqn:Et; cbn [ToNumber]; [reflexivity |].
  symmetry. apply nonneg_falsy; [apply ofZ_nonneg; lia | exact Et].
Qed.

Lemma zsum_app a b : zsum (a ++ b) = zsum a + zsum b.
Proof. induction a as [| x a IH]; cbn [app zsum fold_right] in *; unfold zsum in *; cbn; lia. Qed.

Lemma zsum_nonneg ks : Forall (fun k => 0 <= k) ks -> 0 <= zsum ks.
Proof. induction 1; unfold zsum in *; cbn; lia. Qed.

Lemma zsum_perm a b : Permutation a b -> zsum a = zsum b.
Proof. induction 1; unfold zsum in *; cbn in *; lia. Qed.

Lemma whole_amounts_bounds l ns :
  Forall2 wholeAmount l ns -> Forall (fun k => 0 <= k) ns.
Proof. induction 1 as [| e n l ns [H0 _] _ IH]; constructor; assumption. Qed.

Lemma overallTotal_from l ns a :
  Forall2 wholeAmount l ns -> 0 <= a -> a + zsum ns < 2 ^ 53 ->
  fold_left (fun sum exp => add sum (contribution exp)) l (ofZ a) = ofZ (a + zsum ns).
Proof.
  intro H. revert a. induction H as [| e n l ns He Hl IH]; intros a Ha Hlt.
  - cbn. f_equal. unfold zsum. cbn. lia.
  - pose proof (zsum_nonneg _ (whole_amounts_bounds _ _ Hl)) as Hns.
    change (zsum (n :: ns)) with (n + zsum ns) in *.
    cbn [fold_left]. destruct He as [Hn0 Hamt].
    rewrite (contribution_whole e n (conj Hn0 Hamt)) by lia.
    rewrite add_ofZ by lia. rewrite IH by lia. f_equal. lia.
Qed.

Lemma overallTotal_whole l ns :
  Forall2 wholeAmount l ns -> zsum ns < 2 ^ 53 -> overallTotal l = ofZ (zsum ns).
Proof.
  intros H Hlt. unfold overallTotal. change zero with (ofZ 0).
  rewrite (overallTotal_from l ns 0 H) by lia. reflexivity.
Qed.

Lemma fold_plus_whole ks a :
  Forall (fun k => 0 <= k) ks -> 0 <= a -> a + zsum ks < 2 ^ 53 ->
  fold_left (plus NumberToString) (map wholeValue ks) (wholeValue a)
  = wholeValue (a + zsum ks).
Proof.
  intro H. revert a. induction H as [| k ks Hk Hks IH]; intros a Ha Hlt.
  - cbn. unfold wholeValue. do 2 f_equal. unfold zsum. cbn. lia.
  - pose proof (zsum_nonneg _ Hks) as Hns.
    change (zsum (k :: ks)) with (k + zsum ks) in *.
    cbn [map fold_left]. unfold wholeValue at 2 3. cbn [plus ToNumber].
    rewrite add_ofZ by lia. fold (wholeValue (a + k)).
    rewrite IH by lia. f_equal. lia.
Qed.

Lemma replaceOwn_split (m : object) k v w :
  getOwn m k = Some v ->
  exists m1 m2, m = m1 ++ (k, v) :: m2 /\ replaceOwn m k w = m1 ++ (k, w) :: m2.
Proof.
  induction m as [| [k0 v0] m IH]; cbn [getOwn replaceOwn]; [discriminate |].
  destruct (JSString.eqb k0 k) eqn:E.
  - apply eqb_eq in E. subst k0. intro H. injection H as ->.
    exists [], m. split; reflexivity.
  - intro H. destruct (IH H) as (m1 & m2 & -> & ->).
    exists ((k0, v0) :: m1), m2. split; reflexivity.
Qed.

(** One step of the loop on whole-number totals. *)
Lemma accumulate_whole (m : object) ks exp n :
  map snd m = map wholeValue ks ->
  Forall (fun k => 0 <= k) ks ->
  wholeAmount exp n ->
  ordinaryKey (lbl exp) = true ->
  zsum ks + n < 2 ^ 53 ->
  exists ks',
    map snd (accumulate NumberToString functionSource m exp) = map wholeValue ks'
    /\ Forall (fun k => 0 <= k) ks'
    /\ zsum ks' = zsum ks + n.
Proof.
  intros Hm Hks Hw Hord Hlt.
  pose proof (zsum_nonneg _ Hks) as Hsum.
  assert (Hn : 0 <= n) by apply Hw.
  unfold accumulate. fold (lbl exp).
  rewrite (get_ordinary _ _ Hord), (set_ordinary _ _ _ Hord).
  rewrite (contribution_whole exp n Hw) by lia.
  destruct (getOwn m (lbl exp)) as [v |] eqn:Hget.
  - destruct (replaceOwn_split m (lbl exp) v
                (plus NumberToString
                   (if truthyLookup (Own v) then ToPrimitive functionSource (Own v)
                    else VNumber zero) (VNumber (ofZ n))) Hget)
      as (m1 & m2 & Hsplit & ->).
    rewrite Hsplit, map_app in Hm. cbn [map snd] in Hm.
    symmetry in Hm. apply map_eq_app in Hm.
    destruct Hm as (ks1 & ks2' & -> & Hm1 & Hm2).
    apply map_eq_cons in Hm2. destruct Hm2 as (s & ks2 & -> & Hv & Hm2).
    subst v. apply Forall_app in Hks. destruct Hks as [Hks1 Hks2].
    inversion Hks2 as [| ? ? Hs Hks2']; subst.
    rewrite zsum_app in *. change (zsum (s :: ks2)) with (s + zsum ks2) in *.
    pose proof (zsum_nonneg _ Hks1). pose proof (zsum_nonneg _ Hks2').
    exists (ks1 ++ (s + n) :: ks2). split; [| split].
    + rewrite !map_app. cbn [map snd]. rewrite Hm1, Hm2. do 2 f_equal.
      unfold wholeValue. cbn [truthyLookup truthyValue ToPrimitive].
      assert (Hlhs : (if truthy (ofZ s) then VNumber (ofZ s) else VNumber zero)
                     = VNumber (ofZ s)).
      { destruct (truthy (ofZ s)) eqn:Et; [reflexivity |].
        rewrite (nonneg_falsy (ofZ s)); [reflexivity | apply ofZ_nonneg; lia | exact Et]. }
      rewrite Hlhs. cbn [plus ToNumber]. rewrite add_ofZ by lia. reflexivity.
    + apply Forall_app. split; [exact Hks1 |]. constructor; [lia | exact Hks2'].
    + rewrite zsum_app. change (zsum ((s + n) :: ks2)) with (s + n + zsum ks2). lia.
  - exists (ks ++ [n]). split; [| split].
    + rewrite !map_app, Hm. cbn [map snd truthyLookup plus ToNumber].
      rewrite add_zero_l by (apply ofZ_nonneg; lia). reflexivity.
    + apply Forall_app. split; [exact Hks | constructor; [lia | constructor]].
    + rewrite zsum_app. unfold zsum at 2. cbn. lia.
Qed.

Lemma totals_whole_from l ns (m : object) ks :
  Forall2 wholeAmount l ns ->
  Forall (fun exp => ordinaryKey (lbl exp) = true) l ->
  map snd m = map wholeValue ks ->
  Forall (fun k => 0 <= k) ks ->
  zsum ks + zsum ns < 2 ^ 53 ->
  exists ks',
    map snd (fold_left (accumulate NumberToString functionSource) l m)
    = map wholeValue ks'
    /\ Forall (fun k => 0 <= k) ks'
    /\ zsum ks' = zsum ks + zsum ns.
Proof.
  intro H. revert m ks. induction H as [| e n l ns He Hl IH]; intros m ks Hord Hm Hks Hlt.
  - exists ks. cbn [fold_left]. unfold zsum at 3. cbn. repeat split; try assumption. lia.
  - inversion Hord as [| ? ? Hoe Hol]; subst.
    pose proof (zsum_nonneg _ (whole_amounts_bounds _ _ Hl)) as Hns.
    assert (Hn : 0 <= n) by apply He.
    change (zsum (n :: ns)) with (n + zsum ns) in *.
    destruct (accumulate_whole m ks e n Hm Hks He Hoe) as (ks1 & Hm1 & Hks1 & Hs1); [lia |].
    cbn [fold_left].
    destruct (IH _ ks1 Hol Hm1 Hks1) as (ks' & H1 & H2 & H3); [lia |].
    exists ks'. repeat split; try assumption. lia.
Qed.

(** With whole-number amounts below [2^53] in total and ordinary labels,
    the per-category totals add up to the overall total. *)
Lemma reconciliation_whole l ns :
  Forall2 wholeAmount l ns ->
  Forall (fun exp => ordinaryKey (lbl exp) = true) l ->
  zsum ns < 2 ^ 53 ->
  sumOfValues NumberToString (totals l) = VNumber (overallTotal l).
Proof.
  intros Hw Hord Hlt.
  destruct (totals_whole_from l ns [] [] Hw Hord eq_refl (Forall_nil _))
    as (ks & Hm & Hks & Hsum); [unfold zsum at 1; cbn; lia |].
  fold (totals l) in Hm. unfold zsum at 2 in Hsum. cbn in Hsum.
  rewrite (overallTotal_whole l ns Hw Hlt).
  unfold sumOfValues.
  pose proof (Permutation_map snd (entries_perm (totals l))) as Hp.
  rewrite Hm in Hp.
  apply Permutation_map_inv in Hp. destruct Hp as (ks' & Heq & Hperm).
  rewrite Heq. change (VNumber zero) with (wholeValue 0).
  assert (Hks' : Forall (fun k => 0 <= k) ks').
  { rewrite Forall_forall in *. intros k Hk. apply Hks.
    apply (Permutation_in _ (Permutation_sym Hperm)), Hk. }
  rewrite fold_plus_whole; [| exact Hks' | lia |].
  - unfold wholeValue. do 2 f_equal. rewrite <- (zsum_perm _ _ Hperm). lia.
  - rewrite <- (zsum_perm _ _ Hperm). lia.
Qed.

End Totals.
End AggregatorFacts.

Module FilterFacts.

Lemma filteredExpenses_filter LocalTZA DateParse l f now :
  exists p, filteredExpenses LocalTZA DateParse (Some l) f now = List.filter p l.
Proof.
  destruct f; cbn [filteredExpenses].
  - exists (fun _ => true). symmetry. apply forallb_filter_id. apply forallb_forall. reflexivity.
  - destruct (getWeekBounds LocalTZA (Some now)) as [s e]. eexists. reflexivity.
  - destruct (getMonthBounds LocalTZA (Some now)) as [s e]. eexists. reflexivity.
Qed.

End FilterFacts.

Module AggregatorClaims.
Import NumberFacts ObjectFacts AggregatorFacts FilterFacts Samples.

Lemma whole_amounts_filter p l ns :
  Forall2 wholeAmount l ns ->
  exists ns', Forall2 wholeAmount (List.filter p l) ns' /\ zsum ns' <= zsum ns.
Proof.
  induction 1 as [| e n l ns He Hl (ns' & IH1 & IH2)]; cbn [List.filter].
  - exists []. split; [constructor | lia].
  - assert (0 <= n) by apply He.
    change (zsum (n :: ns)) with (n + zsum ns).
    destruct (p e).
    + exists (n :: ns'). split; [constructor; assumption |].
      change (zsum (n :: ns')) with (n + zsum ns'). lia.
    + exists ns'. split; [assumption | lia].
Qed.

(** C1 (as amended): for every record set whose amounts are whole numbers
    (non-negative integers) adding up to less than [2^53] and whose category
    labels are not property names of [Object.prototype], and for every
    filter and clock reading, the sum of the values of [totalsByCategory]
    over the filtered records equals [overallTotal] over the same records.
    There every floating-point addition is exact; in general the two are
    sums of the same amounts in different orders and round differently. *)
Theorem reconciliation_of_whole_amounts :
  forall (NumberToString : number -> jsstring) (functionSource : jsstring -> jsstring)
         (LocalTZA : Z -> bool -> Z) (DateParse : jsstring -> option Z)
         (expenses : list expense) (ns : list Z) (filter : filterKind) (now : Z),
    Forall2 wholeAmount expenses ns ->
    Forall (fun exp => ordinaryKey (label NumberToString exp) = true) expenses ->
    zsum ns < 2 ^ 53 ->
    let shown := filteredExpenses LocalTZA DateParse (Some expenses) filter now in
    sumOfValues NumberToString (totalsByCategory NumberToString functionSource shown)
    = VNumber (overallTotal shown).
Proof.
  intros nts fs tza parse expenses ns f now Hw Hord Hlt shown.
  destruct (filteredExpenses_filter tza parse expenses f now) as [p Hp].
  subst shown. rewrite Hp.
  destruct (whole_amounts_filter p expenses ns Hw) as (ns' & Hw' & Hle).
  apply (reconciliation_whole nts fs _ ns').
  - exact Hw'.
  - rewrite Forall_forall in *. intros e He. apply Hord.
    apply filter_In in He. apply He.
  - lia.
Qed.

Lemma reconciliation_of_whole_amounts_witness :
  sumOfValues noText
    (totalsByCategory noText noSource
       (filteredExpenses (fixedOffset 0) WindowSamples.sampleParse (Some january)
          FILTER_MONTH WindowSamples.midJanuary))
  = VNumber (overallTotal
       (filteredExpenses (fixedOffset 0) WindowSamples.sampleParse (Some january)
          FILTER_MONTH WindowSamples.midJanuary)).
Proof.
  apply (reconciliation_of_whole_amounts noText noSource (fixedOffset 0)
           WindowSamples.sampleParse january [10; 20; 5] FILTER_MONTH
           WindowSamples.midJanuary).
  - repeat (apply Forall2_cons; [split; [lia | vm_compute; reflexivity] |]).
    apply Forall2_nil.
  - repeat (apply Forall_cons; [vm_compute; reflexivity |]). apply Forall_nil.
  - vm_compute. reflexivity.
Defined.

(** C1 fails as stated: with amounts 0.1 (Food), 0.2 (Transit) and 12.50
    (Food) and no filter, the category totals are 0.1 + 12.5 = 12.6 and
    0.2, whose sum, in either order, is 12.799999999999999, while the
    overall total (0.1 + 0.2) + 12.5 is 12.8. *)
Lemma reconciliation_counterexample :
  (forall tza parse now,
      filteredExpenses tza parse (Some groceries) FILTER_ALL now = groceries)
  /\ (forall nts fs,
      totalsByCategory nts fs groceries
      = [(js "Food", VNumber (StringToNumber (js "12.6")));
         (js "Transit", VNumber (StringToNumber (js "0.2")))])
  /\ (forall nts fs,
         sumOfValues nts (totalsByCategory nts fs groceries)
         = VNumber (StringToNumber (js "12.799999999999999")))
  /\ add (add zero (StringToNumber (js "0.2"))) (StringToNumber (js "12.6"))
     = StringToNumber (js "12.799999999999999")
  /\ overallTotal groceries = StringToNumber (js "12.8")
  /\ StringToNumber (js "12.799999999999999") <> StringToNumber (js "12.8").
Proof.
  split; [| split; [| split; [| split; [| split]]]].
  - reflexivity.
  - intros nts fs. vm_compute. reflexivity.
  - intros nts fs. vm_compute. reflexivity.
  - vm_compute. reflexivity.
  - vm_compute. reflexivity.
  - vm_compute. discriminate.
Qed.

(** Which values [||] replaces: the falsy ones. *)
Lemma falsy_values v :
  truthyValue v = false <->
  v = VUndefined \/ v = VNull \/ v = VString []
  \/ (exists s, v = VNumber (S754_zero s)) \/ v = VNumber NaN.
Proof.
  split.
  - destruct v as [| | [s | s | | s m e] | [| c s]]; cbn; intro H;
      try discriminate; eauto 6.
  - intros [-> | [-> | [-> | [[s ->] | ->]]]]; reflexivity.
Qed.

Lemma accumulate_same nts fs (m : object) exp exp' :
  categoryKey nts exp = categoryKey nts exp' ->
  contribution exp = contribution exp' ->
  accumulate nts fs m exp = accumulate nts fs m exp'.
Proof. intros Hk Hc. unfold accumulate. rewrite Hk, Hc. reflexivity. Qed.

(** C4 (as amended): a record whose amount is missing ([undefined] or
    [null]), the empty string, a zero or NaN contributes exactly [+0]: both
    aggregates are what they would be had the amount been the number 0.
    An amount that is any other value contributes [Number(amount)], which
    for text that is not a numeric literal is NaN, not zero.  The
    aggregation is a total function: no amount makes it abort. *)
Theorem falsy_amount_contributes_zero :
  forall (NumberToString : number -> jsstring) (functionSource : jsstring -> jsstring)
         (exp : expense),
    truthyValue (Expense.amount exp) = false ->
    contribution exp = zero
    /\ (forall before after,
           overallTotal (before ++ exp :: after)
           = overallTotal (before ++ withAmount exp (VNumber zero) :: after)
           /\ totalsByCategory NumberToString functionSource (before ++ exp :: after)
              = totalsByCategory NumberToString functionSource
                  (before ++ withAmount exp (VNumber zero) :: after))
    /\ (forall other : expense,
           truthyValue (Expense.amount other) = true ->
           contribution other = ToNumber (Expense.amount other))
    /\ (Expense.amount exp = VUndefined \/ Expense.amount exp = VNull
        \/ Expense.amount exp = VString []
        \/ (exists s, Expense.amount exp = VNumber (S754_zero s))
        \/ Expense.amount exp = VNumber NaN).
Proof.
  intros nts fs exp Hf.
  assert (Hc : contribution exp = zero).
  { unfold contribution, orElse. rewrite Hf. reflexivity. }
  split; [exact Hc | split; [| split]].
  - intros before after. split.
    + unfold overallTotal. rewrite !fold_left_app. cbn [fold_left].
      rewrite Hc. reflexivity.
    + unfold totalsByCategory. rewrite !fold_left_app. cbn [fold_left].
      rewrite (accumulate_same nts fs _ exp (withAmount exp (VNumber zero)));
        [reflexivity | reflexivity | exact Hc].
  - intros other Ht. unfold contribution, orElse. rewrite Ht. reflexivity.
  - apply falsy_values, Hf.
Qed.

Lemma falsy_amount_contributes_zero_witness :
  contribution (withAmount garbled VUndefined) = zero
  /\ overallTotal (january ++ [withAmount garbled VNull]) = overallTotal january.
Proof.
  split.
  - apply (falsy_amount_contributes_zero noText noSource
             (withAmount garbled VUndefined) eq_refl).
  - vm_compute. reflexivity.
Defined.

(** C4 fails as stated: an amount holding the text "abc" is non-numeric,
    yet it contributes NaN.  Appended to a record of 5 in the same
    category, it turns both the category total and the overall total into
    NaN. *)
Lemma non_numeric_amount_counterexample :
  contribution garbled = NaN
  /\ overallTotal [row 1 "5" "Food" "2024-01-05"] = ofZ 5
  /\ overallTotal [row 1 "5" "Food" "2024-01-05"; garbled] = NaN
  /\ (forall nts fs,
         totalsByCategory nts fs [row 1 "5" "Food" "2024-01-05"; garbled]
         = [(js "Food", VNumber NaN)]).
Proof.
  repeat split; try (intros nts fs); vm_compute; reflexivity.
Qed.

(** C8 (as amended): for every filtered sequence whose labels (the category,
    or "Uncategorized" when the category is empty or missing) are not
    property names of [Object.prototype] and whose amounts contribute
    non-negative numbers, [totalsByCategory] has exactly one entry per label
    present, holding the left-to-right sum of the contributions of the
    records with that label, and no entry for any other label.
    [Object.entries] lists the labels that are array indices first, in
    ascending numeric order, and then the remaining labels in order of first
    occurrence; so the order is that of first occurrence whenever no label
    is an array index. *)
Theorem totals_by_category_contents :
  forall (NumberToString : number -> jsstring) (functionSource : jsstring -> jsstring)
         (filtered : list expense),
    Forall (fun exp => ordinaryKey (label NumberToString exp) = true) filtered ->
    Forall (fun exp => nonneg (contribution exp) = true) filtered ->
    let totals := totalsByCategory NumberToString functionSource filtered in
    let labels := labelsByFirstOccurrence NumberToString filtered in
    (forall c, In c labels ->
               getOwn totals c
               = Some (VNumber (sumOfAmounts (recordsLabelled NumberToString c filtered))))
    /\ (forall c, ~ In c labels -> getOwn totals c = None)
    /\ (forall exp, truthyValue (Expense.category exp) = false ->
                    label NumberToString exp = js "Uncategorized")
    /\ map fst totals = labels
    /\ (exists indexed,
           map fst (entries totals)
           = indexed ++ List.filter (fun k => negb (isArrayIndex k)) labels
           /\ ascending indexed
           /\ Permutation indexed (List.filter isArrayIndex labels))
    /\ (Forall (fun k => isArrayIndex k = false) labels ->
        map fst (entries totals) = labels).
Proof.
  intros nts fs l Hord Hnn totals labels.
  destruct (totals_invariant nts fs l Hord Hnn) as [Hkeys Hvals].
  fold totals in Hkeys, Hvals. fold labels in Hkeys, Hvals.
  destruct (entries_keys totals) as (indexed & Hent & Hasc & Hperm).
  rewrite Hkeys in Hent, Hperm.
  split; [| split; [| split; [| split; [| split]]]].
  - intros c Hc. rewrite Hvals.
    apply existsb_eqb_In in Hc. rewrite Hc. reflexivity.
  - intros c Hc. rewrite Hvals.
    apply existsb_eqb_not_In in Hc. rewrite Hc. reflexivity.
  - intros exp Hcat. unfold label, categoryKey, orElse. rewrite Hcat. reflexivity.
  - exact Hkeys.
  - exists indexed. auto.
  - intro Hnone. rewrite Hent.
    assert (Hno : List.filter isArrayIndex labels = []).
    { clear - Hnone. induction Hnone as [| k ks Hk _ IH]; cbn [List.filter];
        [reflexivity | rewrite Hk; exact IH]. }
    rewrite Hno in Hperm. apply Permutation_sym, Permutation_nil in Hperm. subst indexed.
    cbn [app]. clear - Hnone.
    induction Hnone as [| k ks Hk _ IH]; cbn [List.filter];
      [reflexivity | rewrite Hk; cbn [negb]; f_equal; exact IH].
Qed.

Lemma totals_by_category_contents_witness :
  getOwn (totalsByCategory noText noSource january) (js "Food")
  = Some (VNumber (sumOfAmounts (recordsLabelled noText (js "Food") january)))
  /\ map fst (entries (totalsByCategory noText noSource january))
     = [js "Food"; js "Transit"].
Proof.
  assert (Hord : Forall (fun exp => ordinaryKey (label noText exp) = true) january)
    by (repeat (apply Forall_cons; [vm_compute; reflexivity |]); apply Forall_nil).
  assert (Hnn : Forall (fun exp => nonneg (contribution exp) = true) january)
    by (repeat (apply Forall_cons; [vm_compute; reflexivity |]); apply Forall_nil).
  pose proof (totals_by_category_contents noText noSource january Hord Hnn)
    as (Hv & _ & _ & _ & _ & Ho).
  split.
  - apply Hv. vm_compute. auto.
  - rewrite Ho; [vm_compute; reflexivity |].
    repeat (apply Forall_cons; [vm_compute; reflexivity |]). apply Forall_nil.
Defined.

(** C8 fails as stated: with a record in category "Food" followed by one in
    category "7", the labels in order of first occurrence are Food, 7, but
    the entries of [totalsByCategory] come out as 7, Food, because a key
    that is an array index is enumerated before every other key. *)
Lemma category_order_counterexample :
  (forall nts, labelsByFirstOccurrence nts numbered = [js "Food"; js "7"])
  /\ (forall nts fs,
         map fst (entries (totalsByCategory nts fs numbered)) = [js "7"; js "Food"]).
Proof.
  split; intros; vm_compute; reflexivity.
Qed.

(** C9: [chartData] turns the entries of [totalsByCategory], in their
    enumeration order, into segments named and valued after them, the
    segment at position [i] coloured with entry [i mod 6] of the fixed
    six-colour palette.  When the mapping is empty the series is the single
    placeholder named "No Data" with value 1.  The series is never empty. *)
Theorem chart_series_projection :
  forall (totals : object),
    (forall i entry,
        nth_error (entries totals) i = Some entry ->
        nth_error (chartData totals) i
        = Some {| name := fst entry; population := snd entry;
                  color := nth (i mod 6) palette [];
                  legendFontColor := js "#f9fafb"; legendFontSize := 12 |}
        /\ In (nth (i mod 6) palette []) palette)
    /\ (totals <> [] -> List.length (chartData totals) = List.length totals)
    /\ (totals = [] ->
        chartData totals = [noData]
        /\ name noData = js "No Data" /\ population noData = VNumber (ofZ 1))
    /\ chartData totals <> [].
Proof.
  intro totals.
  assert (Hmap : forall (es : object) base i entry,
             nth_error es i = Some entry ->
             nth_error (mapIndexed toSegment base es) i
             = Some (toSegment (base + i) entry)).
  { induction es as [| e es IH]; intros base i entry H.
    - destruct i; discriminate.
    - destruct i as [| i]; cbn [nth_error mapIndexed] in *.
      + injection H as ->. rewrite Nat.add_0_r. reflexivity.
      + rewrite (IH (S base) i entry H). do 2 f_equal. lia. }
  assert (Hlen : forall (es : object) base,
             List.length (mapIndexed toSegment base es) = List.length es).
  { induction es as [| e es IH]; intro base; cbn [mapIndexed List.length];
      [reflexivity | now rewrite IH]. }
  unfold chartData.
  split; [| split; [| split]].
  - intros i entry H.
    assert (Hne : entries totals <> []) by (intro E; rewrite E in H; destruct i; discriminate).
    destruct (entries totals) as [| e es] eqn:Ees; [congruence |].
    cbn [List.length Nat.ltb Nat.leb]. split.
    + rewrite (Hmap _ 0%nat i entry H). reflexivity.
    + apply nth_In. cbn [palette map List.length].
      apply Nat.mod_upper_bound. discriminate.
  - intro Hne.
    destruct (entries totals) as [| e es] eqn:Ees.
    + exfalso. apply Hne. apply (proj1 (entries_nil totals)). exact Ees.
    + cbn [List.length Nat.ltb Nat.leb]. rewrite Hlen, <- Ees.
      apply Permutation_length, entries_perm.
  - intros ->. repeat split.
  - destruct (entries totals) as [| e es]; cbn [List.length Nat.ltb Nat.leb mapIndexed];
      discriminate.
Qed.

Lemma chart_series_projection_witness :
  nth_error (chartData (totalsByCategory noText noSource january)) 1
  = Some {| name := js "Transit"; population := VNumber (ofZ 5);
            color := js "#60a5fa";
            legendFontColor := js "#f9fafb"; legendFontSize := 12 |}.
Proof.
  pose proof (chart_series_projection (totalsByCategory noText noSource january))
    as (H & _).
  destruct (H 1%nat (js "Transit", VNumber (ofZ 5))) as [Hseg _].
  - vm_compute. reflexivity.
  - rewrite Hseg. vm_compute. reflexivity.
Defined.

End AggregatorClaims.

Module CalendarFacts.

Lemma day_decomposition t : t = Day t * msPerDay + TimeWithinDay t.
Proof. unfold Day, TimeWithinDay, msPerDay. pose proof (Z.div_mod t 86400000). lia. Qed.

Lemma time_within_day_range t : 0 <= TimeWithinDay t < msPerDay.
Proof. unfold TimeWithinDay, msPerDay. apply Z.mod_pos_bound. lia. Qed.

Lemma day_of_midnight d : Day (d * msPerDay) = d.
Proof. unfold Day, msPerDay. apply Z.div_mul. lia. Qed.

Lemma time_of_midnight d : TimeWithinDay (d * msPerDay) = 0.
Proof. unfold TimeWithinDay, msPerDay. apply Z.mod_mul. lia. Qed.

Lemma day_of_makeDate d tod : 0 <= tod < msPerDay -> Day (MakeDate d tod) = d.
Proof.
  intro H. unfold Day, MakeDate, msPerDay in *.
  symmetry. apply (Z.div_unique _ _ _ tod); lia.
Qed.

Lemma midnight_iff t : TimeWithinDay t = 0 <-> t = Day t * msPerDay.
Proof. pose proof (day_decomposition t). lia. Qed.

(** Each year starts [DaysInYear] days after the previous one. *)
Lemma DayFromYear_succ y : DayFromYear (y + 1) = DayFromYear y + DaysInYear y.
Proof.
  unfold DayFromYear, DaysInYear.
  destruct (y mod 4 =? 0) eqn:E4; destruct (y mod 100 =? 0) eqn:E100;
    destruct (y mod 400 =? 0) eqn:E400; cbn [negb andb orb];
    rewrite ?Z.eqb_eq, ?Z.eqb_neq in *;
    Z.div_mod_to_equations; lia.
Qed.

Lemma DaysInYear_range y : DaysInYear y = 365 \/ DaysInYear y = 366.
Proof. unfold DaysInYear. destruct (_ && _); auto. Qed.

Lemma DayFromYear_lt y y' : y < y' -> DayFromYear y < DayFromYear y'.
Proof.
  intro H. replace y' with (y + Z.of_nat (Z.to_nat (y' - y))) by lia.
  assert (Hn : (0 < Z.to_nat (y' - y))%nat) by lia.
  induction (Z.to_nat (y' - y)) as [| n IH]; [lia |].
  destruct n as [| n].
  - change (Z.of_nat 1) with 1. rewrite DayFromYear_succ.
    destruct (DaysInYear_range y); lia.
  - replace (y + Z.of_nat (S (S n))) with (y + Z.of_nat (S n) + 1) by lia.
    rewrite DayFromYear_succ.
    destruct (DaysInYear_range (y + Z.of_nat (S n))).
    all: assert (DayFromYear y < DayFromYear (y + Z.of_nat (S n))) by (apply IH; lia); lia.
Qed.

Lemma DayFromYear_le y y' : y <= y' -> DayFromYear y <= DayFromYear y'.
Proof.
  intro H. destruct (Z.eq_dec y y') as [-> | Hne]; [lia |].
  pose proof (DayFromYear_lt y y'). lia.
Qed.

(** [YearFromTime t] is the year whose days contain [Day t]. *)
Lemma YearFromTime_spec t :
  DayFromYear (YearFromTime t) <= Day t < DayFromYear (YearFromTime t + 1).
Proof.
  unfold YearFromTime. set (d := Day t). set (y := 1970 + 400 * d / 146097).
  assert (Hlo : DayFromYear (y - 1) <= d).
  { subst y. unfold DayFromYear. Z.div_mod_to_equations. lia. }
  assert (Hhi : d < DayFromYear (y + 2)).
  { subst y. unfold DayFromYear. Z.div_mod_to_equations. lia. }
  destruct (DayFromYear (y + 1) <=? d) eqn:E1.
  - apply Z.leb_le in E1. replace (y + 1 + 1) with (y + 2) by lia. lia.
  - apply Z.leb_gt in E1. destruct (DayFromYear y <=? d) eqn:E0.
    + apply Z.leb_le in E0. lia.
    + apply Z.leb_gt in E0. replace (y - 1 + 1) with y by lia. lia.
Qed.

Lemma YearFromTime_unique t y :
  DayFromYear y <= Day t < DayFromYear (y + 1) -> YearFromTime t = y.
Proof.
  intros [H1 H2]. pose proof (YearFromTime_spec t) as [H3 H4].
  destruct (Z.lt_trichotomy (YearFromTime t) y) as [Hlt | [Heq | Hgt]]; [| exact Heq |].
  - pose proof (DayFromYear_le (YearFromTime t + 1) y). lia.
  - pose proof (DayFromYear_le (y + 1) (YearFromTime t)). lia.
Qed.

Lemma DayWithinYear_range t :
  0 <= DayWithinYear t < DaysInYear (YearFromTime t).
Proof.
  unfold DayWithinYear. pose proof (YearFromTime_spec t) as [H1 H2].
  rewrite DayFromYear_succ in H2. lia.
Qed.

Ltac split_comparisons :=
  repeat match goal with
         | |- context [?a <? ?b] => destruct (Z.ltb_spec a b)
         | |- context [?a =? ?b] => destruct (Z.eqb_spec a b)
         end.

Ltac month_cases m :=
  let Hc := fresh "Hc" in
  assert (Hc : m = 0 \/ m = 1 \/ m = 2 \/ m = 3 \/ m = 4 \/ m = 5 \/ m = 6
               \/ m = 7 \/ m = 8 \/ m = 9 \/ m = 10 \/ m = 11) by lia;
  repeat (destruct Hc as [Hc | Hc]; [rewrite Hc in * |]); [.. | rewrite Hc in *].

(** The month and date tables agree with the cumulative month lengths. *)
Lemma month_table t :
  0 <= MonthFromTime t <= 11
  /\ daysBeforeMonth (YearFromTime t) (MonthFromTime t) + DateFromTime t - 1
     = DayWithinYear t
  /\ 1 <= DateFromTime t.
Proof.
  pose proof (DayWithinYear_range t) as Hd.
  unfold DateFromTime, MonthFromTime, InLeapYear, daysBeforeMonth.
  destruct (DaysInYear_range (YearFromTime t)) as [E | E]; rewrite E in *;
    cbn [Z.eqb Pos.eqb]; split_comparisons; lia.
Qed.

Lemma MakeDay_in_year y m d :
  0 <= m < 12 -> MakeDay y m d = DayFromYear y + daysBeforeMonth y m + d - 1.
Proof.
  intro H. unfold MakeDay.
  rewrite (Z.div_small m 12), (Z.mod_small m 12), Z.add_0_r by lia. reflexivity.
Qed.

(** Rebuilding the day from the fields of a time, with the date shifted by
    [k], shifts the day by [k]. *)
Lemma MakeDay_roundtrip t k :
  MakeDay (YearFromTime t) (MonthFromTime t) (DateFromTime t + k) = Day t + k.
Proof.
  destruct (month_table t) as (Hm & Hd & _).
  rewrite MakeDay_in_year by lia. unfold DayWithinYear in Hd. lia.
Qed.

Lemma daysBeforeMonth_range y m :
  0 <= m <= 11 -> 0 <= daysBeforeMonth y m < DaysInYear y.
Proof.
  intro H. unfold daysBeforeMonth.
  destruct (DaysInYear_range y) as [E | E]; rewrite E; cbn [Z.eqb Pos.eqb];
    month_cases m; lia.
Qed.

(** The fields of the first day of a month given as [MakeDay] takes it,
    with any month number. *)
Lemma first_of_month_fields y m :
  YearFromTime (MakeDay y m 1 * msPerDay) = y + m / 12
  /\ MonthFromTime (MakeDay y m 1 * msPerDay) = m mod 12
  /\ DateFromTime (MakeDay y m 1 * msPerDay) = 1.
Proof.
  set (t := MakeDay y m 1 * msPerDay).
  assert (Hday : Day t = MakeDay y m 1) by apply day_of_midnight.
  clearbody t.
  unfold MakeDay in Hday. set (ym := y + m / 12) in *. set (mn := m mod 12) in *.
  assert (Hmn : 0 <= mn <= 11) by (subst mn; pose proof (Z.mod_pos_bound m 12); lia).
  pose proof (daysBeforeMonth_range ym mn Hmn) as Hb.
  assert (Hy : YearFromTime t = ym).
  { apply YearFromTime_unique. rewrite DayFromYear_succ. lia. }
  assert (Hdwy : DayWithinYear t = daysBeforeMonth ym mn)
    by (unfold DayWithinYear; rewrite Hy; lia).
  split; [exact Hy |].
  unfold DateFromTime, MonthFromTime, InLeapYear. rewrite Hdwy, Hy.
  clearbody mn ym. clear Hdwy Hday Hb Hy.
  unfold daysBeforeMonth.
  destruct (DaysInYear_range ym) as [E | E]; rewrite E; cbn [Z.eqb Pos.eqb];
    month_cases mn; split; reflexivity.
Qed.

Lemma month_upper t :
  MonthFromTime t <> 11 ->
  DayWithinYear t < daysBeforeMonth (YearFromTime t) (MonthFromTime t + 1).
Proof.
  pose proof (DayWithinYear_range t) as Hr.
  unfold MonthFromTime, InLeapYear, daysBeforeMonth.
  set (d := DayWithinYear t) in *. clearbody d.
  destruct (DaysInYear_range (YearFromTime t)) as [E | E]; rewrite E in *;
    cbn [Z.eqb Pos.eqb]; split_comparisons; intro Hm; simpl; lia.
Qed.

(** A time lies in the month that [MakeDay] delimits from its fields. *)
Lemma month_bounds t :
  MakeDay (YearFromTime t) (MonthFromTime t) 1 <= Day t
  < MakeDay (YearFromTime t) (MonthFromTime t + 1) 1.
Proof.
  destruct (month_table t) as (Hm & Hd & H1).
  pose proof (DayWithinYear_range t) as Hr.
  rewrite MakeDay_in_year by lia.
  destruct (Z.eq_dec (MonthFromTime t) 11) as [E | E].
  - rewrite E in *. unfold MakeDay. change ((11 + 1) / 12) with 1.
    change ((11 + 1) mod 12) with 0. rewrite DayFromYear_succ.
    unfold daysBeforeMonth at 2. unfold DayWithinYear in *. lia.
  - rewrite MakeDay_in_year by lia. pose proof (month_upper t E).
    unfold DayWithinYear in *. lia.
Qed.

End CalendarFacts.

Module WindowFacts.
Import CalendarFacts.

Lemma fixedOffset_regular offset :
  Z.abs offset <= msPerDay -> regularZone (fixedOffset offset).
Proof.
  intro H. constructor; unfold LocalTime, UTC, fixedOffset; intros.
  - f_equal. lia.
  - lia.
  - lia.
  - exact H.
Qed.

(** Daylight saving that starts at 02:00 leaves the local days whole. *)
Lemma springForward_regular : regularZone springForward.
Proof.
  constructor; unfold LocalTime, UTC, springForward, Day, TimeWithinDay,
    msPerDay, msPerHour.
  - intro x. destruct (Z.ltb_spec x (19797 * 86400000 + 2 * 3600000 + 3600000)).
    + destruct (Z.ltb_spec (x - 0) (19797 * 86400000 + 2 * 3600000)).
      * f_equal. lia.
      * Z.div_mod_to_equations. lia.
    + destruct (Z.ltb_spec (x - 3600000) (19797 * 86400000 + 2 * 3600000)).
      * lia.
      * f_equal. lia.
  - intros x Hx. destruct (Z.ltb_spec x (19797 * 86400000 + 2 * 3600000 + 3600000)).
    + destruct (Z.ltb_spec (x - 0) (19797 * 86400000 + 2 * 3600000)).
      * lia.
      * exfalso. Z.div_mod_to_equations. lia.
    + destruct (Z.ltb_spec (x - 3600000) (19797 * 86400000 + 2 * 3600000)); lia.
  - intros u v _.
    destruct (Z.ltb_spec u (19797 * 86400000 + 2 * 3600000));
      destruct (Z.ltb_spec v (19797 * 86400000 + 2 * 3600000)); lia.
  - intros t b. destruct b;
      [destruct (Z.ltb_spec t (19797 * 86400000 + 2 * 3600000))
      | destruct (Z.ltb_spec t (19797 * 86400000 + 2 * 3600000 + 3600000))]; lia.
Qed.

Lemma wellInside_weaken days days' t :
  days' <= days -> wellInside days t -> wellInside days' t.
Proof. unfold wellInside, msPerDay. intros H1 H2. lia. Qed.

Lemma TimeClip_inside t : Z.abs t <= maxTime -> TimeClip t = Some t.
Proof. intro H. unfold TimeClip. apply Z.leb_le in H. rewrite H. reflexivity. Qed.

Section Windows.
Variable LocalTZA : Z -> bool -> Z.
Hypothesis regular : regularZone LocalTZA.

Local Abbreviation localTime := (LocalTime LocalTZA).
Local Abbreviation utc := (UTC LocalTZA).
Local Abbreviation wkIndex := (weekdayIndex LocalTZA).
Local Abbreviation monday := (mondayOf LocalTZA).
Local Abbreviation mStart := (monthStartOf LocalTZA).
Local Abbreviation mEnd := (monthEndOf LocalTZA).

Lemma utc_bound x : Z.abs (utc x) <= Z.abs x + msPerDay.
Proof. unfold UTC. pose proof (zone_offsets _ regular x false). lia. Qed.

Lemma local_bound t : Z.abs (localTime t) <= Z.abs t + msPerDay.
Proof. unfold LocalTime. pose proof (zone_offsets _ regular t true). lia. Qed.

(** Setting the hours to zero lands on the local midnight of the local day. *)
Lemma setHoursZero_midnight x :
  Z.abs (utc (Day x * msPerDay)) <= maxTime ->
  setHoursZero LocalTZA (Some (utc x)) = Some (utc (Day x * msPerDay)).
Proof.
  intros H2. cbn [setHoursZero].
  rewrite (zone_days _ regular). unfold MakeDate, MakeTime.
  replace (Day x * msPerDay + (0 * msPerHour + 0 * msPerMinute + 0 * msPerSecond + 0))
    with (Day x * msPerDay) by lia.
  apply TimeClip_inside, H2.
Qed.

Lemma local_of_midnight d : localTime (utc (d * msPerDay)) = d * msPerDay.
Proof. apply (zone_midnights _ regular). apply time_of_midnight. Qed.

(** A local midnight comes no later than the instants of its local day
    onward, and before it every instant is on an earlier local day. *)
Lemma midnight_le d t : d <= Day (localTime t) -> utc (d * msPerDay) <= t.
Proof.
  intro H. pose proof (zone_order _ regular t (utc (d * msPerDay))) as Ho.
  rewrite local_of_midnight in Ho. specialize (Ho (time_of_midnight d)).
  pose proof (day_decomposition (localTime t)).
  pose proof (time_within_day_range (localTime t)). unfold msPerDay in *. nia.
Qed.

Lemma midnight_gt d t : Day (localTime t) < d -> t < utc (d * msPerDay).
Proof.
  intro H. pose proof (zone_order _ regular t (utc (d * msPerDay))) as Ho.
  rewrite local_of_midnight in Ho. specialize (Ho (time_of_midnight d)).
  pose proof (day_decomposition (localTime t)).
  pose proof (time_within_day_range (localTime t)). apply Ho. unfold msPerDay in *. nia.
Qed.

Lemma weekdayIndex_range t : 0 <= wkIndex t <= 6.
Proof. unfold weekdayIndex. pose proof (Z.mod_pos_bound (WeekDay (localTime t) + 6) 7). lia. Qed.

Lemma monday_is_monday t : WeekDay (monday t * msPerDay) = 1.
Proof.
  unfold WeekDay, mondayOf, weekdayIndex, WeekDay. rewrite day_of_midnight.
  Z.div_mod_to_equations. lia.
Qed.

(** [setDate] with the date moved by [k] days moves the local day by [k]
    and keeps the local time of day. *)
Lemma setDate_shift t k :
  let x := MakeDate (Day (localTime t) + k) (TimeWithinDay (localTime t)) in
  Z.abs (utc x) <= maxTime ->
  setDate LocalTZA (Some t) (Some (DateFromTime (localTime t) + k)) = Some (utc x).
Proof.
  intros x Hx. cbn [setDate]. rewrite MakeDay_roundtrip. apply TimeClip_inside, Hx.
Qed.

Lemma getWeekBounds_value t :
  wellInside 9 t ->
  getWeekBounds LocalTZA (Some t)
  = (Some (utc (monday t * msPerDay)), Some (utc ((monday t + 7) * msPerDay))).
Proof.
  intro Hin. unfold wellInside in Hin.
  pose proof (local_bound t) as HL.
  pose proof (weekdayIndex_range t) as Hw.
  pose proof (day_decomposition (localTime t)) as Hdec.
  pose proof (time_within_day_range (localTime t)) as Htod.
  assert (Hrem : Z.rem (WeekDay (localTime t) + 6) 7 = wkIndex t).
  { unfold weekdayIndex. apply Z.rem_mod_nonneg; [| lia].
    unfold WeekDay. pose proof (Z.mod_pos_bound (Day (localTime t) + 4) 7). lia. }
  assert (Hmon : Z.abs (monday t * msPerDay) <= Z.abs (localTime t) + 7 * msPerDay).
  { unfold mondayOf. unfold msPerDay in *. lia. }
  assert (Hnext : Z.abs ((monday t + 7) * msPerDay) <= Z.abs (localTime t) + 7 * msPerDay).
  { unfold mondayOf. unfold msPerDay in *. lia. }
  pose proof (utc_bound (monday t * msPerDay)) as Hu2.
  pose proof (utc_bound ((monday t + 7) * msPerDay)) as Hu3.
  (* start *)
  assert (Hstart :
            setHoursZero LocalTZA
              (setDate LocalTZA (Some t)
                 (lift2 Z.sub (getDate LocalTZA (Some t))
                    (option_map (fun day => Z.rem (day + 6) 7) (getDay LocalTZA (Some t)))))
            = Some (utc (monday t * msPerDay))).
  { cbn [getDay getDate option_map lift2]. rewrite Hrem.
    replace (DateFromTime (localTime t) - wkIndex t)
      with (DateFromTime (localTime t) + - wkIndex t) by lia.
    set (x1 := MakeDate (Day (localTime t) + - wkIndex t) (TimeWithinDay (localTime t))).
    assert (Hx1 : Day x1 = monday t).
    { subst x1. rewrite day_of_makeDate by exact Htod. unfold mondayOf. lia. }
    assert (Hx1b : Z.abs x1 <= Z.abs (localTime t) + 6 * msPerDay).
    { subst x1. unfold MakeDate. unfold msPerDay in *. lia. }
    pose proof (utc_bound x1) as Hu1.
    rewrite setDate_shift by (fold x1; unfold maxTime, msPerDay in *; lia).
    fold x1. rewrite setHoursZero_midnight;
      [rewrite Hx1; reflexivity
      | rewrite Hx1; unfold maxTime, msPerDay in *; lia]. }
  unfold getWeekBounds. cbv zeta. rewrite Hstart. f_equal.
  (* end *)
  cbn [getDate option_map lift2].
  pose proof (local_of_midnight (monday t)) as Hloc.
  assert (Hsd : setDate LocalTZA (Some (utc (monday t * msPerDay)))
                  (Some (DateFromTime (localTime (utc (monday t * msPerDay))) + 7))
                = Some (utc ((monday t + 7) * msPerDay))).
  { rewrite setDate_shift; rewrite Hloc, day_of_midnight, time_of_midnight;
      unfold MakeDate; rewrite Z.add_0_r; [reflexivity |].
    unfold maxTime, msPerDay in *; lia. }
  rewrite Hsd.
  rewrite setHoursZero_midnight;
    [rewrite day_of_midnight; reflexivity
    | rewrite day_of_midnight; unfold maxTime, msPerDay in *; lia].
Qed.

Lemma month_span y m :
  0 <= m <= 11 -> 28 <= MakeDay y (m + 1) 1 - MakeDay y m 1 <= 31.
Proof.
  intro Hm. destruct (Z.eq_dec m 11) as [-> | Hne].
  - unfold MakeDay. change ((11 + 1) / 12) with 1. change ((11 + 1) mod 12) with 0.
    change (11 / 12) with 0. change (11 mod 12) with 11.
    replace (y + 0) with y by lia.
    rewrite DayFromYear_succ. unfold daysBeforeMonth. cbv beta zeta iota.
    destruct (DaysInYear_range y) as [E | E]; rewrite E; cbn [Z.eqb Pos.eqb]; lia.
  - rewrite !MakeDay_in_year by lia. unfold daysBeforeMonth.
    destruct (DaysInYear_range y) as [E | E]; rewrite E; cbn [Z.eqb Pos.eqb];
      month_cases m; simpl; lia.
Qed.

Lemma newDateYM1_midnight y m :
  ~ (0 <= y <= 99) ->
  Z.abs (utc (MakeDay y m 1 * msPerDay)) <= maxTime ->
  setHoursZero LocalTZA (newDateYM1 LocalTZA (Some y) (Some m))
  = Some (utc (MakeDay y m 1 * msPerDay)).
Proof.
  intros Hy Hr. cbn [newDateYM1].
  replace ((0 <=? y) && (y <=? 99)) with false.
  2:{ symmetry. apply andb_false_iff.
      destruct (Z.leb_spec 0 y); [right; apply Z.leb_gt; lia | left; reflexivity]. }
  unfold MakeDate, MakeTime.
  replace (MakeDay y m 1 * msPerDay
           + (0 * msPerHour + 0 * msPerMinute + 0 * msPerSecond + 0))
    with (MakeDay y m 1 * msPerDay) by lia.
  rewrite (TimeClip_inside _ Hr). rewrite setHoursZero_midnight;
    rewrite day_of_midnight; [reflexivity | exact Hr].
Qed.

Lemma getMonthBounds_value t :
  wellInside 33 t ->
  ~ (0 <= YearFromTime (localTime t) <= 99) ->
  getMonthBounds LocalTZA (Some t)
  = (Some (utc (mStart t * msPerDay)), Some (utc (mEnd t * msPerDay))).
Proof.
  intros Hin Hy. unfold wellInside in Hin. unfold monthStartOf, monthEndOf.
  pose proof (local_bound t) as HL.
  pose proof (day_decomposition (localTime t)) as Hdec.
  pose proof (time_within_day_range (localTime t)) as Htod.
  pose proof (month_bounds (localTime t)) as Hb.
  destruct (month_table (localTime t)) as (Hm & _ & _).
  pose proof (month_span (YearFromTime (localTime t)) (MonthFromTime (localTime t)) Hm) as Hs.
  unfold getMonthBounds. cbn [getFullYear getMonth option_map lift2].
  set (first := MakeDay (YearFromTime (localTime t)) (MonthFromTime (localTime t)) 1) in *.
  set (next := MakeDay (YearFromTime (localTime t)) (MonthFromTime (localTime t) + 1) 1) in *.
  pose proof (utc_bound (first * msPerDay)) as Hu1.
  pose proof (utc_bound (next * msPerDay)) as Hu2.
  assert (H1 : Z.abs (utc (first * msPerDay)) <= maxTime)
    by (unfold maxTime, msPerDay in *; lia).
  assert (H2 : Z.abs (utc (next * msPerDay)) <= maxTime)
    by (unfold maxTime, msPerDay in *; lia).
  rewrite (newDateYM1_midnight (YearFromTime (localTime t))
             (MonthFromTime (localTime t)) Hy H1).
  rewrite (newDateYM1_midnight (YearFromTime (localTime t))
             (MonthFromTime (localTime t) + 1) Hy H2).
  reflexivity.
Qed.

Lemma month_contains t : mStart t <= Day (localTime t) < mEnd t.
Proof. unfold monthStartOf, monthEndOf. apply month_bounds. Qed.

Lemma month_start_fields t :
  YearFromTime (mStart t * msPerDay) = YearFromTime (localTime t)
  /\ MonthFromTime (mStart t * msPerDay) = MonthFromTime (localTime t)
  /\ DateFromTime (mStart t * msPerDay) = 1.
Proof.
  destruct (month_table (localTime t)) as (Hm & _ & _).
  pose proof (first_of_month_fields (YearFromTime (localTime t))
                (MonthFromTime (localTime t))) as F.
  rewrite (Z.div_small _ 12), (Z.mod_small _ 12), Z.add_0_r in F by lia.
  exact F.
Qed.

Lemma month_end_fields t :
  YearFromTime (mEnd t * msPerDay)
  = YearFromTime (localTime t) + (MonthFromTime (localTime t) + 1) / 12
  /\ MonthFromTime (mEnd t * msPerDay) = (MonthFromTime (localTime t) + 1) mod 12
  /\ DateFromTime (mEnd t * msPerDay) = 1.
Proof.
  exact (first_of_month_fields (YearFromTime (localTime t))
           (MonthFromTime (localTime t) + 1)).
Qed.

End Windows.
End WindowFacts.

Module WindowClaims.
Import CalendarFacts WindowFacts WindowSamples.




Section Filtering.
Variable LocalTZA : Z -> bool -> Z.
Variable DateParse : jsstring -> option Z.

Lemma inWindow_within start end_ exp :
  inWindow DateParse start end_ exp = true
  <-> within start end_ (newDate DateParse (Expense.date exp)).
Proof.
  unfold inWindow, within, dateGeb, dateLtb.
  destruct (newDate DateParse (Expense.date exp)) as [x |], start as [s |], end_ as [e |];
    cbn; split; try discriminate.
  all: try (intros (s' & e' & x' & H1 & H2 & H3 & _); discriminate).
  - rewrite andb_true_iff, Z.leb_le, Z.ltb_lt. intros [H1 H2].
    exists s, e, x. repeat split; assumption.
  - intros (s' & e' & x' & H1 & H2 & H3 & H4 & H5).
    injection H1 as <-. injection H2 as <-. injection H3 as <-.
    rewrite andb_true_iff, Z.leb_le, Z.ltb_lt. split; assumption.
  - rewrite andb_false_r. discriminate.
Qed.

Lemma filter_subsequence {A : Type} (p : A -> bool) (l : list A) :
  Subsequence (List.filter p l) l.
Proof.
  induction l as [| x l IH]; cbn [List.filter]; [constructor |].
  destruct (p x); constructor; exact IH.
Qed.

Lemma filter_greatest {A : Type} (p : A -> bool) (l other : list A) :
  Subsequence other l -> Forall (fun x => p x = true) other ->
  Subsequence other (List.filter p l).
Proof.
  induction 1 as [| x a b Hs IH | x a b Hs IH]; intro Hall; cbn [List.filter].
  - constructor.
  - inversion Hall as [| ? ? Hx Ha]; subst. rewrite Hx. constructor. apply IH, Ha.
  - destruct (p x); [constructor |]; apply IH, Hall.
Qed.

Lemma filteredExpenses_window l f now :
  filteredExpenses LocalTZA DateParse (Some l) f now
  = match windowOf LocalTZA f now with
    | None => l
    | Some (start, end_) => List.filter (inWindow DateParse start end_) l
    end.
Proof.
  destruct f; cbn [filteredExpenses windowOf]; [reflexivity | |].
  - destruct (getWeekBounds LocalTZA (Some now)); reflexivity.
  - destruct (getMonthBounds LocalTZA (Some now)); reflexivity.
Qed.

End Filtering.


(** C6: with the ALL selector the filter returns the record collection
    unchanged.  Changing the selector touches neither the cached
    collection nor the table, and filtering is a function of them that
    modifies nothing, so after showing WEEK and then ALL again the list
    shown is the original one. *)
Theorem filter_all_is_identity :
  forall (LocalTZA : Z -> bool -> Z) (DateParse : jsstring -> option Z)
         (records : list expense) (w : Screen.world) (now now' : Z),
    filteredExpenses LocalTZA DateParse (Some records) FILTER_ALL now = records
    /\ (let week := Screen.setFilter FILTER_WEEK w in
        let back := Screen.setFilter FILTER_ALL week in
        Screen.expenses (Screen.ui week) = Screen.expenses (Screen.ui w)
        /\ Screen.expenses (Screen.ui back) = Screen.expenses (Screen.ui w)
        /\ Screen.db back = Screen.db w
        /\ Screen.sent back = Screen.sent w
        /\ Subsequence
             (filteredExpenses LocalTZA DateParse (Screen.expenses (Screen.ui week))
                (Screen.filter (Screen.ui week)) now)
             (filteredExpenses LocalTZA DateParse (Screen.expenses (Screen.ui w))
                FILTER_ALL now)
        /\ filteredExpenses LocalTZA DateParse (Screen.expenses (Screen.ui back))
             (Screen.filter (Screen.ui back)) now'
           = filteredExpenses LocalTZA DateParse (Screen.expenses (Screen.ui w))
               FILTER_ALL now'
        /\ (Screen.expenses (Screen.ui w) = Some records ->
            filteredExpenses LocalTZA DateParse (Screen.expenses (Screen.ui back))
              (Screen.filter (Screen.ui back)) now'
            = records)).
Proof.
  intros tza parse records w now now'. split; [reflexivity |].
  cbv zeta. cbn [Screen.setFilter Screen.ui Screen.expenses Screen.filter Screen.db Screen.sent].
  split; [reflexivity |]. split; [reflexivity |]. split; [reflexivity |].
  split; [reflexivity |]. split; [| split; [reflexivity |]].
  - destruct (Screen.expenses (Screen.ui w)) as [l |]; cbn [filteredExpenses].
    + destruct (getWeekBounds tza (Some now)). apply filter_subsequence.
    + constructor.
  - intros ->. reflexivity.
Qed.

Lemma filter_all_is_identity_witness :
  filteredExpenses (fixedOffset 0) sampleParse
    (Screen.expenses
       (Screen.ui (Screen.setFilter FILTER_ALL
                     (Screen.setFilter FILTER_WEEK (FormSamples.typing "" "")))))
    (Screen.filter
       (Screen.ui (Screen.setFilter FILTER_ALL
                     (Screen.setFilter FILTER_WEEK (FormSamples.typing "" "")))))
    midJanuary
  = [FormSamples.lunch].
Proof.
  apply (filter_all_is_identity (fixedOffset 0) sampleParse [FormSamples.lunch]
           (FormSamples.typing "" "") midJanuary midJanuary).
  reflexivity.
Defined.

(** C7: a record whose date does not parse ([new Date(exp.date)] is an
    invalid date) is left out by the WEEK and the MONTH filter, and the
    filter still returns its result: the same one as without that record. *)
Theorem unparseable_date_is_excluded :
  forall (LocalTZA : Z -> bool -> Z) (DateParse : jsstring -> option Z)
         (before after : list expense) (exp : expense) (f : filterKind) (now : Z),
    f <> FILTER_ALL ->
    newDate DateParse (Expense.date exp) = None ->
    ~ In exp (filteredExpenses LocalTZA DateParse (Some (before ++ exp :: after)) f now)
    /\ filteredExpenses LocalTZA DateParse (Some (before ++ exp :: after)) f now
       = filteredExpenses LocalTZA DateParse (Some (before ++ after)) f now.
Proof.
  intros tza parse before after exp f now Hf Hbad.
  rewrite !filteredExpenses_window.
  destruct (windowOf tza f now) as [[start end_] |] eqn:Hw.
  - assert (Hout : inWindow parse start end_ exp = false).
    { unfold inWindow. rewrite Hbad. reflexivity. }
    split.
    + rewrite filter_In. intros [_ H]. congruence.
    + rewrite !filter_app. cbn [List.filter]. rewrite Hout. reflexivity.
  - destruct f; [congruence | discriminate | discriminate].
Qed.

Lemma unparseable_date_is_excluded_witness :
  filteredExpenses (fixedOffset 0) sampleParse
    (Some ([dated 1 (VString (js "2024-01-20"))]
           ++ dated 2 (VString (js "20-01-2024")) :: [dated 3 VUndefined]))
    FILTER_MONTH midJanuary
  = filteredExpenses (fixedOffset 0) sampleParse
      (Some ([dated 1 (VString (js "2024-01-20"))] ++ [dated 3 VUndefined]))
      FILTER_MONTH midJanuary.
Proof.
  apply (unparseable_date_is_excluded (fixedOffset 0) sampleParse).
  - discriminate.
  - reflexivity.
Defined.

(** The example of the specification: in January 2024 the MONTH filter
    keeps the two January records, whose only category total is Food: 30,
    which is also the overall total. *)
Example january_example :
  filteredExpenses (fixedOffset 0) sampleParse (Some Samples.january)
    FILTER_MONTH midJanuary
  = [Samples.row 1 "10" "Food" "2024-01-05"; Samples.row 2 "20" "Food" "2024-01-20"]
  /\ (forall nts fs,
         totalsByCategory nts fs
           (filteredExpenses (fixedOffset 0) sampleParse (Some Samples.january)
              FILTER_MONTH midJanuary)
         = [(js "Food", VNumber (ofZ 30))])
  /\ overallTotal
       (filteredExpenses (fixedOffset 0) sampleParse (Some Samples.january)
          FILTER_MONTH midJanuary)
     = ofZ 30.
Proof.
  split; [| split]; try (intros nts fs); vm_compute; reflexivity.
Qed.

(** Two hours east of UTC, a record stamped on Sunday evening UTC, when it
    is already Monday locally, is dated before the start of the local week
    and the WEEK filter leaves it out. *)
Example stamped_before_local_week :
  getTodayIsoDate FormSamples.sundayNight = js "2024-01-07"
  /\ getWeekBounds (fixedOffset 7200000) (Some FormSamples.sundayNight)
     = (Some 1704664800000, Some 1705269600000)
  /\ newDate sampleParse (VString (js "2024-01-07")) = Some 1704585600000
  /\ filteredExpenses (fixedOffset 7200000) sampleParse
       (Some [dated 2 (VString (getTodayIsoDate FormSamples.sundayNight))])
       FILTER_WEEK FormSamples.sundayNight
     = [].
Proof.
  repeat split; vm_compute; reflexivity.
Qed.

End WindowClaims.

Module FormClaims.
Import Screen Store FormSamples WindowFacts.

(** C5 (as amended): an add whose amount text does not start with a
    decimal literal or denotes a number that is not positive, or whose
    category is empty after trimming, and an edit with such an amount or
    category, or whose date is empty after trimming, or with no expense
    being edited, is rejected silently: no statement is sent, the table is
    unchanged and the screen state, form fields included, is preserved.
    So it is with amount "-5" and with category "   ".  A date that is not
    empty is not examined further: an edit that passes the guard sends one
    UPDATE carrying the date as typed, then reloads. *)
Theorem invalid_input_is_rejected :
  forall (compareStored : value -> value -> comparison) (now : Z) (w : world),
    let s := ui w in
    ((isNaN (parseFloat (amount s)) = true
      \/ leb (parseFloat (amount s)) zero = true
      \/ trim (category s) = []) ->
     sent (addExpense compareStored now w) = sent w
     /\ db (addExpense compareStored now w) = db w
     /\ ui (addExpense compareStored now w) = s)
    /\ ((editingExpense s = None
         \/ isNaN (parseFloat (editAmount s)) = true
         \/ leb (parseFloat (editAmount s)) zero = true
         \/ trim (editCategory s) = []
         \/ trim (editDate s) = []) ->
        sent (saveEdit compareStored w) = sent w
        /\ db (saveEdit compareStored w) = db w
        /\ ui (saveEdit compareStored w) = s)
    /\ ((amount s = js "-5" \/ category s = js "   ") ->
        addExpense compareStored now w = w)
    /\ (forall edited,
           editingExpense s = Some edited ->
           editRejected s = false ->
           sent (saveEdit compareStored w)
           = sent w ++ [UPDATE (parseFloat (editAmount s)) (trim (editCategory s))
                               (trimOrNull (editNote s)) (trim (editDate s))
                               (Expense.id edited);
                        SELECT_ALL]).
Proof.
  intros cmp now w s.
  assert (Hadd : addRejected s = true -> addExpense cmp now w = w).
  { intro H. unfold addExpense. fold s. rewrite H. reflexivity. }
  assert (Hedit : editingExpense s = None \/ editRejected s = true ->
                  saveEdit cmp w = w).
  { intro H. unfold saveEdit. fold s.
    destruct (editingExpense s); [| reflexivity].
    destruct H as [H | H]; [discriminate | rewrite H; reflexivity]. }
  split; [| split; [| split]].
  - intro H. rewrite Hadd; [repeat split |].
    unfold addRejected. destruct H as [H | [H | H]]; rewrite H;
      rewrite ?orb_true_r; reflexivity.
  - intro H. rewrite Hedit; [repeat split |].
    destruct H as [H | H]; [left; exact H | right].
    unfold editRejected. destruct H as [H | [H | [H | H]]]; rewrite H;
      rewrite ?orb_true_r; reflexivity.
  - intro H. apply Hadd. unfold addRejected.
    destruct H as [H | H]; rewrite H; [reflexivity |].
    change (trim (js "   ")) with (@nil char16). apply orb_true_r.
  - intros edited He Hok. unfold saveEdit. fold s. rewrite He, Hok.
    cbn [loadExpenses cancelEdit execute sent]. rewrite <- app_assoc. reflexivity.
Qed.

Lemma invalid_input_is_rejected_witness :
  addExpense anyOrder 1705320000000 (typing "-5" "Food") = typing "-5" "Food"
  /\ addExpense anyOrder 1705320000000 (typing "12.50" "   ") = typing "12.50" "   "
  /\ db (saveEdit anyOrder (editing "abc" "Food" "2024-01-05"))
     = db (editing "abc" "Food" "2024-01-05").
Proof.
  pose proof (invalid_input_is_rejected anyOrder 1705320000000 (typing "-5" "Food"))
    as (_ & _ & H1 & _).
  pose proof (invalid_input_is_rejected anyOrder 1705320000000 (typing "12.50" "   "))
    as (_ & _ & H2 & _).
  pose proof (invalid_input_is_rejected anyOrder 1705320000000
                (editing "abc" "Food" "2024-01-05")) as (_ & H3 & _).
  split; [apply H1; left; reflexivity |].
  split; [apply H2; right; reflexivity |].
  apply H3. right. left. reflexivity.
Defined.

(** C5 fails as stated for an invalid date on edit: with a valid amount and
    category, the text "not-a-date" in the date field passes the guard, an
    UPDATE is sent and the stored date of the row becomes "not-a-date". *)
Lemma invalid_date_counterexample :
  validDateText (js "not-a-date") = false
  /\ (forall cmp,
         sent (saveEdit cmp (editing "12" "Food" "not-a-date"))
         = [UPDATE (ofZ 12) (js "Food") VNull (js "not-a-date") 1; SELECT_ALL])
  /\ (forall cmp,
         rows (db (saveEdit cmp (editing "12" "Food" "not-a-date")))
         = [ {| Expense.id := 1; Expense.amount := VNumber (ofZ 12);
                Expense.category := VString (js "Food"); Expense.note := VNull;
                Expense.date := VString (js "not-a-date") |} ])
  /\ rows (db (editing "12" "Food" "not-a-date")) = [lunch].
Proof.
  repeat split; intros; vm_compute; reflexivity.
Qed.

Lemma length_pad width n : List.length (pad width n) = width.
Proof.
  revert n. induction width as [| k IH]; intro n; cbn [pad]; [reflexivity |].
  rewrite length_app, IH. cbn. lia.
Qed.

Lemma firstn_prefix {A : Type} (a b : list A) : firstn (List.length a) (a ++ b) = a.
Proof. induction a as [| x a IH]; cbn; [reflexivity | now rewrite IH]. Qed.

Lemma toISOString_day now :
  0 <= YearFromTime now <= 9999 ->
  exists rest, toISOString now = (isoDay now ++ rest)%list.
Proof.
  intros [H0 H1]. unfold toISOString, isoDay.
  apply Z.leb_le in H0. apply Z.leb_le in H1. rewrite H0, H1. cbn [andb].
  eexists. rewrite <- !app_assoc. reflexivity.
Qed.

Lemma length_isoDay now : List.length (isoDay now) = 10%nat.
Proof. unfold isoDay. rewrite !length_app, !length_pad. reflexivity. Qed.



End FormClaims.

(** ** Texts: trimming and the reading of amounts *)

Module TextFacts.

Lemma trimStart_blank s : trimStart s = [] <-> blank s = true.
Proof.
  unfold blank. induction s as [| c s IH]; cbn [trimStart forallb]; [tauto |].
  destruct (isWhiteSpace c); cbn [andb]; [exact IH |].
  split; discriminate.
Qed.

Lemma trimStart_head s c r : trimStart s = c :: r -> isWhiteSpace c = false.
Proof.
  induction s as [| x s IH]; cbn [trimStart]; [discriminate |].
  destruct (isWhiteSpace x) eqn:E; [exact IH |].
  intros [= <- _]. exact E.
Qed.

Lemma trimStart_split s :
  exists a, s = (a ++ trimStart s)%list /\ blank a = true.
Proof.
  induction s as [| x s (a & Ha & Hb)]; [exists []; split; reflexivity |].
  cbn [trimStart]. destruct (isWhiteSpace x) eqn:E.
  - exists (x :: a). split; [cbn; f_equal; exact Ha |].
    unfold blank in *. cbn [forallb]. rewrite E, Hb. reflexivity.
  - exists []. split; reflexivity.
Qed.

Lemma trimStart_fixed s :
  (forall c r, s = c :: r -> isWhiteSpace c = false) -> trimStart s = s.
Proof.
  destruct s as [| c r]; [reflexivity |]. intro H. cbn [trimStart].
  rewrite (H c r eq_refl). reflexivity.
Qed.

Lemma blank_rev s : blank (rev s) = blank s.
Proof.
  unfold blank. induction s as [| c s IH]; [reflexivity |].
  cbn [rev forallb]. rewrite forallb_app, IH. cbn [forallb].
  rewrite andb_true_r. apply andb_comm.
Qed.

Lemma blank_app a b : blank (a ++ b) = blank a && blank b.
Proof. apply forallb_app. Qed.

(** What [trim] leaves: the text between a blank prefix and a blank
    suffix, with no white space at its ends. *)
Lemma trim_split s :
  exists a b,
    s = (a ++ trim s ++ b)%list /\ blank a = true /\ blank b = true
    /\ (forall c r, trim s = c :: r -> isWhiteSpace c = false)
    /\ (forall r c, trim s = (r ++ [c])%list -> isWhiteSpace c = false).
Proof.
  unfold trim, trimEnd.
  destruct (trimStart_split s) as (a & Ha & Hba).
  destruct (trimStart_split (rev (trimStart s))) as (b & Hb & Hbb).
  set (t := trimStart s) in *. set (u := trimStart (rev t)) in *.
  assert (Ht : t = (rev u ++ rev b)%list).
  { rewrite <- rev_app_distr, <- Hb, rev_involutive. reflexivity. }
  exists a, (rev b). split; [rewrite <- Ht; exact Ha |].
  split; [exact Hba |]. split; [rewrite blank_rev; exact Hbb |]. split.
  - intros c r Hc. apply (trimStart_head s c (r ++ rev b)).
    fold t. rewrite Ht, Hc. reflexivity.
  - intros r c Hc. apply (trimStart_head (rev t) c (rev r)).
    fold u. rewrite <- (rev_involutive u), Hc, rev_app_distr. reflexivity.
Qed.

Lemma trim_fixed s :
  (forall c r, s = c :: r -> isWhiteSpace c = false) ->
  (forall r c, s = (r ++ [c])%list -> isWhiteSpace c = false) ->
  trim s = s.
Proof.
  intros H1 H2. unfold trim, trimEnd. rewrite (trimStart_fixed s H1).
  rewrite trimStart_fixed; [apply rev_involutive |].
  intros c r Hc. apply (H2 (rev r) c).
  rewrite <- (rev_involutive s), Hc. reflexivity.
Qed.

Lemma trim_blank s : trim s = [] <-> blank s = true.
Proof.
  destruct (trim_split s) as (a & b & Hs & Ha & Hb & H1 & _). split.
  - intro E. rewrite Hs, E, !blank_app, Ha, Hb. reflexivity.
  - intro Hbl. destruct (trim s) as [| c r] eqn:E; [reflexivity |].
    rewrite Hs, !blank_app in Hbl. unfold blank in Hbl at 2. cbn [forallb] in Hbl.
    rewrite (H1 c r eq_refl) in Hbl. rewrite andb_false_r in Hbl. discriminate.
Qed.

Lemma trim_tidy s : trim s <> [] -> tidy (trim s).
Proof.
  intro H. destruct (trim_split s) as (_ & _ & _ & _ & _ & H1 & H2).
  split; [exact H |]. split; assumption.
Qed.

Lemma tidy_fixed s : tidy s -> trim s = s.
Proof. intros (_ & H1 & H2). apply trim_fixed; assumption. Qed.

Lemma tidy_not_blank s : tidy s -> trim s <> [].
Proof. intros H. rewrite (tidy_fixed s H). apply H. Qed.

Lemma trimOrNull_cases s :
  Screen.trimOrNull s = VNull /\ trim s = []
  \/ Screen.trimOrNull s = VString (trim s) /\ tidy (trim s).
Proof.
  unfold Screen.trimOrNull. destruct (trim s) as [| c r] eqn:E; [left; tauto |].
  right. split; [reflexivity |]. rewrite <- E. apply trim_tidy. rewrite E. discriminate.
Qed.

Lemma no_space_tidy s :
  s <> [] -> Forall (fun c => isWhiteSpace c = false) s -> tidy s.
Proof.
  intros Hne Hall. split; [exact Hne |]. rewrite Forall_forall in Hall. split.
  - intros c r ->. apply Hall. left. reflexivity.
  - intros r c ->. apply Hall. apply in_or_app. right. left. reflexivity.
Qed.

End TextFacts.

Module GuardFacts.
Import TextFacts.

(** [!(isNaN(x) || x <= 0)] says that [x] is above zero. *)
Lemma positive_guard x : isNaN x || leb x zero = false <-> ltb zero x = true.
Proof.
  destruct x as [s | s | | s m e]; try destruct s; cbn; split;
    first [reflexivity | discriminate].
Qed.

Lemma digit_cases c :
  isDigit c = true ->
  (c = 48 \/ c = 49 \/ c = 50 \/ c = 51 \/ c = 52
   \/ c = 53 \/ c = 54 \/ c = 55 \/ c = 56 \/ c = 57)%N.
Proof.
  unfold isDigit. rewrite andb_true_iff, N.leb_le, N.leb_le. lia.
Qed.

Lemma digit_not_space c : isDigit c = true -> isWhiteSpace c = false.
Proof.
  intro H. apply digit_cases in H.
  repeat (destruct H as [H | H]; [subst c; reflexivity |]). subst c. reflexivity.
Qed.

Lemma digit_not_sign c :
  isDigit c = true ->
  (c =? cMinus)%N = false /\ (c =? cPlus)%N = false /\ (73 =? c)%N = false.
Proof.
  intro H. apply digit_cases in H.
  repeat (destruct H as [H | H]; [subst c; repeat split; reflexivity |]).
  subst c. repeat split; reflexivity.
Qed.

Lemma digit_not_infinity d x :
  isDigit d = true -> isPrefix (js "Infinity") (d :: x) = false.
Proof.
  intro H. apply digit_cases in H.
  repeat (destruct H as [H | H]; [subst d; reflexivity |]). subst d. reflexivity.
Qed.

Lemma trimStart_lead lead s : blank lead = true -> trimStart (lead ++ s) = trimStart s.
Proof.
  unfold blank. induction lead as [| c lead IH]; [reflexivity |].
  cbn [forallb app trimStart]. intro H. apply andb_true_iff in H. destruct H as [Hc Hl].
  rewrite Hc. apply IH, Hl.
Qed.

Lemma spanDigits_digits ds rest :
  forallb isDigit ds = true ->
  match rest with [] => true | c :: _ => negb (isDigit c) end = true ->
  spanDigits (ds ++ rest) = (ds, rest).
Proof.
  intros Hd Hr. induction ds as [| d ds IH].
  - cbn [app]. destruct rest as [| c rest]; [reflexivity |].
    cbn [spanDigits]. apply negb_true_iff in Hr. rewrite Hr. reflexivity.
  - cbn [forallb] in Hd. apply andb_true_iff in Hd. destruct Hd as [H1 H2].
    cbn [app spanDigits]. rewrite H1, (IH H2). reflexivity.
Qed.

Lemma decimalValue_nonneg ds : forallb isDigit ds = true -> 0 <= decimalValue ds.
Proof.
  unfold decimalValue. intro H.
  assert (G : forall acc, 0 <= acc ->
                0 <= fold_left (fun acc c => 10 * acc + digitValue c) ds acc).
  { induction ds as [| d ds IH]; intros acc Hacc; [exact Hacc |].
    cbn [forallb] in H. apply andb_true_iff in H. destruct H as [H1 H2].
    cbn [fold_left]. apply (IH H2).
    apply digit_cases in H1. unfold digitValue. lia. }
  apply G. lia.
Qed.

Lemma ofDecimal_whole m : 0 <= m -> ofDecimal false m 0 = ofZ m.
Proof. intro H. destruct m as [| p | p]; [reflexivity | reflexivity | lia]. Qed.

End GuardFacts.

Module FormProperties.
Import Store Screen Handlers TextFacts GuardFacts.

(** X1: what the forms store as category, note and date is [trim] of the
    typed text: the text between a blank prefix and a blank suffix, left
    as it is inside.  The result is empty exactly when the typed text is
    blank; otherwise it has no white space at either end, and trimming it
    again changes nothing. *)
Theorem trim_strips_surrounding_space :
  forall s : jsstring,
    (exists a b, s = (a ++ trim s ++ b)%list /\ blank a = true /\ blank b = true)
    /\ (trim s = [] <-> blank s = true)
    /\ (trim s <> [] -> tidy (trim s))
    /\ trim (trim s) = trim s.
Proof.
  intro s. split; [| split; [| split]].
  - destruct (trim_split s) as (a & b & H & Ha & Hb & _). exists a, b. auto.
  - apply trim_blank.
  - apply trim_tidy.
  - destruct (trim s) as [| c r] eqn:E; [reflexivity |].
    rewrite <- E. apply tidy_fixed, trim_tidy. rewrite E. discriminate.
Qed.

Lemma sent_grows (l : list statement) (a b : statement) : (l ++ [a; b])%list <> l.
Proof.
  intro H. apply (f_equal (@List.length statement)) in H.
  rewrite length_app in H. cbn in H. lia.
Qed.

(** X2: pressing Add sends an INSERT exactly when the amount text reads as
    a number above zero and the category is not blank; pressing Save
    while a row is being edited sends an UPDATE exactly when, besides, the
    date is not blank.  In every other case the press changes nothing. *)
Theorem add_and_save_go_through_exactly_when :
  forall (compareStored : value -> value -> comparison) (now : Z) (w : world),
    let s := ui w in
    (addRejected s = false
     <-> ltb zero (parseFloat (amount s)) = true /\ blank (category s) = false)
    /\ (editRejected s = false
        <-> ltb zero (parseFloat (editAmount s)) = true
            /\ blank (editCategory s) = false /\ blank (editDate s) = false)
    /\ (addExpense compareStored now w <> w <-> addRejected s = false)
    /\ (saveEdit compareStored w <> w
        <-> editingExpense s <> None /\ editRejected s = false).
Proof.
  intros cmp now w s.
  assert (Hb : forall t, match trim t with [] => true | _ :: _ => false end
                         = blank t).
  { intro t. pose proof (trim_blank t) as Ht.
    destruct (trim t); destruct (blank t); try reflexivity.
    - symmetry. apply Ht. reflexivity.
    - destruct Ht as [_ Ht]. discriminate (Ht eq_refl). }
  assert (Hadd : addRejected s = false
                 <-> ltb zero (parseFloat (amount s)) = true
                     /\ blank (category s) = false).
  { unfold addRejected. cbv zeta. rewrite Hb, orb_false_iff.
    destruct (positive_guard (parseFloat (amount s))) as [H1 H2].
    split; intros [A B]; split; auto. }
  assert (Hedit : editRejected s = false
                  <-> ltb zero (parseFloat (editAmount s)) = true
                      /\ blank (editCategory s) = false
                      /\ blank (editDate s) = false).
  { unfold editRejected. cbv zeta. rewrite !Hb, !orb_false_iff.
    destruct (positive_guard (parseFloat (editAmount s))) as [H1 H2].
    split.
    - intros [[A B] C]. split; [apply H1, orb_false_iff, A | split; assumption].
    - intros (A & B & C).
      split; [split; [apply orb_false_iff, H2, A | exact B] | exact C]. }
  split; [exact Hadd |]. split; [exact Hedit |]. split.
  - unfold addExpense. fold s. destruct (addRejected s); split.
    + intro H. exfalso. apply H. reflexivity.
    + discriminate.
    + reflexivity.
    + intros _ H. apply (f_equal sent) in H.
      cbn [loadExpenses clearForm execute sent] in H. rewrite <- app_assoc in H.
      exact (sent_grows _ _ _ H).
  - unfold saveEdit. fold s. destruct (editingExpense s) as [e |].
    + destruct (editRejected s); split.
      * intro H. exfalso. apply H. reflexivity.
      * intros [_ H]. discriminate.
      * split; [discriminate | reflexivity].
      * intros _ H. apply (f_equal sent) in H.
        cbn [loadExpenses cancelEdit execute sent] in H. rewrite <- app_assoc in H.
        exact (sent_grows _ _ _ H).
    + split; [intro H; exfalso; apply H; reflexivity |].
      intros [H _]. exfalso. apply H. reflexivity.
Qed.

(** X3: an amount text that starts, after any white space, with decimal
    digits followed by a character that cannot continue a number (or by
    nothing) is read as the whole number the digits spell; what follows
    the digits is ignored. *)
Theorem amount_is_read_up_to_the_first_stray_character :
  forall lead ds rest : jsstring,
    blank lead = true ->
    ds <> [] ->
    forallb isDigit ds = true ->
    continuesLiteral rest = false ->
    parseFloat (lead ++ ds ++ rest) = ofZ (decimalValue ds).
Proof.
  intros lead ds rest Hlead Hne Hds Hrest.
  unfold parseFloat. rewrite (trimStart_lead lead _ Hlead).
  destruct ds as [| d ds']; [contradiction |].
  assert (Hd : isDigit d = true).
  { cbn [forallb] in Hds. apply andb_true_iff in Hds. apply Hds. }
  rewrite trimStart_fixed.
  2:{ intros c r [= <- _]. apply digit_not_space, Hd. }
  destruct (digit_not_sign d Hd) as (Hm & Hp & Hi).
  assert (Hspan : spanDigits ((d :: ds') ++ rest) = (d :: ds', rest)).
  { apply spanDigits_digits; [exact Hds |].
    destruct rest as [| c r]; [reflexivity |].
    cbn [continuesLiteral] in Hrest. rewrite !orb_false_iff in Hrest.
    destruct Hrest as (((H1 & _) & _) & _). rewrite H1. reflexivity. }
  change (scanDecimal ((d :: ds') ++ rest))
    with (if (d =? cMinus)%N then scanUnsigned true (ds' ++ rest)
          else if (d =? cPlus)%N then scanUnsigned false (ds' ++ rest)
          else scanUnsigned false ((d :: ds') ++ rest)).
  rewrite Hm, Hp. unfold scanUnsigned.
  rewrite (digit_not_infinity d (ds' ++ rest) Hd : isPrefix _ ((d :: ds') ++ rest) = _).
  rewrite Hspan.
  destruct rest as [| c r].
  - cbn [scanExponent]. rewrite app_nil_r, Z.sub_0_r.
    rewrite ofDecimal_whole by (apply decimalValue_nonneg, Hds). reflexivity.
  - cbn [continuesLiteral] in Hrest. rewrite !orb_false_iff in Hrest.
    destruct Hrest as (((_ & H2) & H3) & H4).
    rewrite H2. cbn [scanExponent]. rewrite H3, H4. cbn [orb].
    cbn [List.length Z.of_nat]. rewrite app_nil_r, Z.sub_0_r.
    rewrite ofDecimal_whole by (apply decimalValue_nonneg, Hds). reflexivity.
Qed.

Lemma amount_is_read_up_to_the_first_stray_character_witness :
  parseFloat (js "  12,50") = ofZ 12
  /\ parseFloat (js "7 euros") = ofZ 7
  /\ parseFloat (js "015") = ofZ 15.
Proof.
  split; [| split].
  - apply (amount_is_read_up_to_the_first_stray_character (js "  ") (js "12") (js ",50"));
      [reflexivity | discriminate | reflexivity | reflexivity].
  - apply (amount_is_read_up_to_the_first_stray_character [] (js "7") (js " euros"));
      [reflexivity | discriminate | reflexivity | reflexivity].
  - apply (amount_is_read_up_to_the_first_stray_character [] (js "015") []);
      [reflexivity | discriminate | reflexivity | reflexivity].
Defined.

End FormProperties.

(** ** The table and the sessions of the screen *)

Module StoreFacts.
Import Store Screen Handlers TextFacts GuardFacts.

Lemma maxId_from (l : list expense) (acc : Z) :
  acc <= fold_left (fun acc exp => Z.max acc (Expense.id exp)) l acc
  /\ forall r, In r l ->
       Expense.id r <= fold_left (fun acc exp => Z.max acc (Expense.id exp)) l acc.
Proof.
  revert acc. induction l as [| x l IH]; intro acc; cbn [fold_left].
  - split; [lia | intros r []].
  - destruct (IH (Z.max acc (Expense.id x))) as [H1 H2]. split; [lia |].
    intros r [<- | Hr]; [lia | apply H2, Hr].
Qed.

Lemma maxId_ge (l : list expense) r : In r l -> Expense.id r <= maxId l.
Proof. apply maxId_from. Qed.

Lemma maxId_nonneg (l : list expense) : 0 <= maxId l.
Proof. apply maxId_from. Qed.

Section Order.
Variable cmp : value -> value -> comparison.

Lemma insertRow_perm e l : Permutation (insertRow cmp e l) (e :: l).
Proof.
  induction l as [| x l IH]; cbn [insertRow]; [reflexivity |].
  destruct (precedes cmp e x); [reflexivity |].
  rewrite IH. apply perm_swap.
Qed.

Lemma getAllAsync_perm d : Permutation (getAllAsync cmp d) (rows d).
Proof.
  unfold getAllAsync. induction (rows d) as [| x l IH]; cbn [fold_right]; [reflexivity |].
  rewrite insertRow_perm. apply perm_skip, IH.
Qed.

Lemma getAllAsync_In d r : In r (getAllAsync cmp d) <-> In r (rows d).
Proof.
  split; apply Permutation_in; [| symmetry]; apply getAllAsync_perm.
Qed.

Hypothesis order : storageOrder cmp.

Lemma order_mixed a b c :
  cmp a b <> Lt -> cmp b c <> Lt -> (cmp a b = Gt \/ cmp b c = Gt) -> cmp a c = Gt.
Proof.
  intros Hab Hbc Hgt.
  pose proof (order_opp cmp order) as Opp.
  pose proof (order_trans cmp order) as Tr.
  destruct (cmp a c) eqn:Eac; [| | reflexivity]; exfalso.
  - (* a and c rank the same *)
    assert (Eca : cmp c a = Eq) by (rewrite Opp, Eac; reflexivity).
    destruct (cmp a b) eqn:Eab; [| congruence |].
    + assert (cmp c b = Eq) by (apply (Tr Eq c a b); assumption).
      rewrite Opp in H. destruct (cmp b c); cbn in H; try discriminate.
      destruct Hgt; discriminate.
    + destruct (cmp b c) eqn:Ebc; [| congruence |].
      * assert (cmp b a = Eq) by (apply (Tr Eq b c a); assumption).
        rewrite Opp, Eab in H. discriminate.
      * pose proof (Tr Gt a b c Eab Ebc). congruence.
  - (* a ranks below c *)
    assert (Eca : cmp c a = Gt) by (rewrite Opp, Eac; reflexivity).
    destruct (cmp a b) eqn:Eab; [| congruence |].
    + destruct (cmp b c) eqn:Ebc; [destruct Hgt; discriminate | congruence |].
      assert (cmp b a = Gt) by (apply (Tr Gt b c a); assumption).
      rewrite Opp, Eab in H. discriminate.
    + assert (cmp c b = Gt) by (apply (Tr Gt c a b); assumption).
      rewrite Opp in H. destruct (cmp b c); cbn in H; congruence.
Qed.

Lemma precedes_total a b : precedes cmp a b = true \/ precedes cmp b a = true.
Proof.
  unfold precedes. rewrite (order_opp cmp order (Expense.date a) (Expense.date b)).
  destruct (cmp (Expense.date a) (Expense.date b)); cbn [CompOpp]; auto.
  destruct (Z.leb_spec (Expense.id b) (Expense.id a)); [left; reflexivity |].
  right. apply Z.leb_le. lia.
Qed.

Lemma precedes_trans a b c :
  precedes cmp a b = true -> precedes cmp b c = true -> precedes cmp a c = true.
Proof.
  unfold precedes. intros Hab Hbc.
  set (x := Expense.date a) in *. set (y := Expense.date b) in *.
  set (z := Expense.date c) in *.
  destruct (cmp x y) eqn:Eab; [| discriminate |];
    destruct (cmp y z) eqn:Ebc; try discriminate.
  - rewrite (order_trans cmp order Eq x y z Eab Ebc).
    apply Z.leb_le in Hab, Hbc. apply Z.leb_le. lia.
  - rewrite (order_mixed x y z); [reflexivity | congruence | congruence | right; exact Ebc].
  - rewrite (order_mixed x y z); [reflexivity | congruence | congruence | left; exact Eab].
  - rewrite (order_mixed x y z); [reflexivity | congruence | congruence | left; exact Eab].
Qed.

Lemma insertRow_sorted e l :
  StronglySorted (fun a b => precedes cmp a b = true) l ->
  StronglySorted (fun a b => precedes cmp a b = true) (insertRow cmp e l).
Proof.
  induction 1 as [| x l Hs IH Hx]; cbn [insertRow].
  - constructor; constructor.
  - destruct (precedes cmp e x) eqn:E.
    + constructor; [constructor; assumption |].
      constructor; [exact E |].
      rewrite Forall_forall in *. intros y Hy.
      apply (precedes_trans e x y E), Hx, Hy.
    + constructor; [exact IH |].
      rewrite Forall_forall in *. intros y Hy.
      apply (Permutation_in _ (insertRow_perm e l)) in Hy.
      destruct Hy as [<- | Hy]; [| apply Hx, Hy].
      destruct (precedes_total e x) as [H | H]; [congruence | exact H].
Qed.

Lemma getAllAsync_sorted d :
  StronglySorted (fun a b => precedes cmp a b = true) (getAllAsync cmp d).
Proof.
  unfold getAllAsync. induction (rows d) as [| x l IH]; cbn [fold_right].
  - constructor.
  - apply insertRow_sorted, IH.
Qed.

End Order.

End StoreFacts.

Module OrderFacts.

Lemma compareUnits_opp a b : compareUnits b a = CompOpp (compareUnits a b).
Proof.
  revert b. induction a as [| x a IH]; intros [| y b]; cbn [compareUnits]; try reflexivity.
  rewrite (N.compare_antisym x y). destruct (x ?= y)%N; cbn [CompOpp]; auto.
Qed.

Lemma compareUnits_trans r a b c :
  compareUnits a b = r -> compareUnits b c = r -> compareUnits a c = r.
Proof.
  revert b c. induction a as [| x a IH]; intros [| y b] [| z c];
    cbn [compareUnits]; try congruence.
  destruct (x ?= y)%N eqn:Exy.
  - apply N.compare_eq_iff in Exy. subst y.
    destruct (x ?= z)%N; [apply IH | congruence | congruence].
  - intros <-. destruct (y ?= z)%N eqn:Eyz.
    + apply N.compare_eq_iff in Eyz. subst z. rewrite Exy. reflexivity.
    + intros _. rewrite N.compare_lt_iff in *.
      replace (x ?= z)%N with Lt; [reflexivity |].
      symmetry. apply N.compare_lt_iff. lia.
    + discriminate.
  - intros <-. destruct (y ?= z)%N eqn:Eyz.
    + apply N.compare_eq_iff in Eyz. subst z. rewrite Exy. reflexivity.
    + discriminate.
    + intros _. rewrite N.compare_gt_iff in *.
      replace (x ?= z)%N with Gt; [reflexivity |].
      symmetry. apply N.compare_gt_iff. lia.
Qed.

Lemma compareUnits_eq a b : compareUnits a b = Eq <-> a = b.
Proof.
  revert b. induction a as [| x a IH]; intros [| y b]; cbn [compareUnits];
    try (split; [discriminate | discriminate]); [tauto |].
  destruct (x ?= y)%N eqn:E.
  - apply N.compare_eq_iff in E. subst y. rewrite IH. split; congruence.
  - split; [discriminate |]. intros [= -> _]. rewrite N.compare_refl in E. discriminate.
  - split; [discriminate |]. intros [= -> _]. rewrite N.compare_refl in E. discriminate.
Qed.

Lemma textOrder_order : storageOrder textOrder.
Proof.
  constructor.
  - intros [| | x | x] [| | y | y]; cbn [textOrder CompOpp]; try reflexivity.
    apply compareUnits_opp.
  - intros r [| | x | x] [| | y | y] [| | z | z]; cbn [textOrder]; try congruence.
    apply compareUnits_trans.
Qed.

End OrderFacts.

Module StampFacts.
Import TextFacts GuardFacts.

Lemma digit_char k : 0 <= k <= 9 -> isDigit (Z.to_N (48 + k)) = true.
Proof.
  intro H.
  assert (Hc : k = 0 \/ k = 1 \/ k = 2 \/ k = 3 \/ k = 4
               \/ k = 5 \/ k = 6 \/ k = 7 \/ k = 8 \/ k = 9) by lia.
  repeat (destruct Hc as [Hc | Hc]; [subst k; reflexivity |]). subst k. reflexivity.
Qed.

Lemma pad_digits width n : forallb isDigit (pad width n) = true.
Proof.
  revert n. induction width as [| w IH]; intro n; cbn [pad]; [reflexivity |].
  rewrite forallb_app, IH. cbn [forallb andb].
  rewrite digit_char; [reflexivity |].
  pose proof (Z.mod_pos_bound n 10). lia.
Qed.

Lemma digits_no_space s :
  forallb isDigit s = true -> Forall (fun c => isWhiteSpace c = false) s.
Proof.
  intro H. apply Forall_forall. intros c Hc.
  apply digit_not_space. rewrite forallb_forall in H. apply H, Hc.
Qed.

Lemma pad_no_space width n : Forall (fun c => isWhiteSpace c = false) (pad width n).
Proof. apply digits_no_space, pad_digits. Qed.

Lemma toISOString_no_space t :
  Forall (fun c => isWhiteSpace c = false) (toISOString t).
Proof.
  unfold toISOString.
  repeat (apply Forall_app; split);
    try apply pad_no_space; try (repeat constructor).
  destruct (_ && _); [apply pad_no_space |].
  apply Forall_app. split; [| apply pad_no_space].
  destruct (_ <? _); repeat constructor.
  all: apply digit_not_space, digit_char;
    match goal with
    | |- 0 <= ?a mod 10 <= 9 => pose proof (Z.mod_pos_bound a 10); lia
    end.
Qed.

Lemma toISOString_long t : (10 <= List.length (toISOString t))%nat.
Proof.
  unfold toISOString. destruct (_ && _); [| destruct (_ <? _)];
    rewrite !length_app, !FormClaims.length_pad; cbn [List.length js]; lia.
Qed.

Lemma Forall_firstn {A : Type} (P : A -> Prop) n (l : list A) :
  Forall P l -> Forall P (firstn n l).
Proof.
  intro H. revert n. induction H as [| x l Hx Hl IH]; intros [| n]; cbn [firstn];
    constructor; auto.
Qed.

(** The stamp has ten characters, none of them white space. *)
Lemma stamp_tidy now : tidy (getTodayIsoDate now).
Proof.
  apply no_space_tidy.
  - intro H. apply (f_equal (@List.length char16)) in H.
    unfold getTodayIsoDate, slice0 in H. rewrite length_firstn in H.
    pose proof (toISOString_long now). cbn [List.length] in H. lia.
  - apply Forall_firstn, toISOString_no_space.
Qed.

Lemma stamp_length now : List.length (getTodayIsoDate now) = 10%nat.
Proof.
  unfold getTodayIsoDate, slice0. rewrite length_firstn.
  pose proof (toISOString_long now). lia.
Qed.

End StampFacts.

Module SessionFacts.
Import Store Screen Handlers TextFacts GuardFacts StampFacts StoreFacts.

Lemma ids_after_delete i (l : list expense) :
  map Expense.id (List.filter (fun exp => negb (Expense.id exp =? i)) l)
  = List.filter (fun j => negb (j =? i)) (map Expense.id l).
Proof.
  induction l as [| x l IH]; [reflexivity |]. cbn [List.filter map].
  destruct (negb (Expense.id x =? i)); cbn [map]; rewrite IH; reflexivity.
Qed.

Lemma ids_after_update i row (l : list expense) :
  Expense.id row = i ->
  map Expense.id (map (fun exp => if Expense.id exp =? i then row else exp) l)
  = map Expense.id l.
Proof.
  intro Hrow. rewrite map_map. apply map_ext. intro x.
  destruct (Z.eqb_spec (Expense.id x) i); [congruence | reflexivity].
Qed.

Lemma update_absent i row (l : list expense) :
  ~ In i (map Expense.id l) ->
  map (fun exp => if Expense.id exp =? i then row else exp) l = l.
Proof.
  intro H. rewrite <- (map_id l) at 2. apply map_ext_in. intros x Hx.
  destruct (Z.eqb_spec (Expense.id x) i) as [E | E]; [| reflexivity].
  exfalso. apply H. rewrite <- E. apply in_map, Hx.
Qed.

Lemma delete_absent i (l : list expense) :
  ~ In i (map Expense.id l) ->
  List.filter (fun exp => negb (Expense.id exp =? i)) l = l.
Proof.
  intro H. induction l as [| x l IH]; [reflexivity |]. cbn [List.filter].
  destruct (Z.eqb_spec (Expense.id x) i) as [E | E]; cbn [negb].
  - exfalso. apply H. left. exact E.
  - f_equal. apply IH. intro Hi. apply H. right. exact Hi.
Qed.

Lemma deleted_is_absent i (l : list expense) :
  ~ In i (map Expense.id (List.filter (fun exp => negb (Expense.id exp =? i)) l)).
Proof.
  rewrite in_map_iff. intros (x & Hx & Hin). apply filter_In in Hin.
  destruct Hin as [_ Hin]. rewrite Hx, Z.eqb_refl in Hin. discriminate.
Qed.

Lemma same_id_same_row (l : list expense) a b :
  NoDup (map Expense.id l) -> In a l -> In b l ->
  Expense.id a = Expense.id b -> a = b.
Proof.
  induction l as [| x l IH]; cbn [map]; intros Hnd Ha Hb E; [destruct Ha |].
  inversion Hnd as [| ? ? Hx Hl]; subst.
  destruct Ha as [<- | Ha], Hb as [<- | Hb]; [reflexivity | | | apply IH; assumption].
  - exfalso. apply Hx. rewrite E. apply in_map, Hb.
  - exfalso. apply Hx. rewrite <- E. apply in_map, Ha.
Qed.

(** *** Statements keep a sound table sound *)

Lemma insert_sound d a c n dt :
  soundTable d -> formRow (updatedRow 0 a c n dt) ->
  soundTable (runAsync (INSERT a c n dt) d).
Proof.
  intros (Hrows & Hnd & Hids) Hnew. cbn [runAsync].
  set (newId := Z.max (sequence d) (maxId (rows d)) + 1).
  pose proof (maxId_nonneg (rows d)) as H0.
  unfold soundTable. cbn [rows sequence]. split; [| split].
  - apply Forall_app. split; [exact Hrows |]. constructor; [| constructor].
    exact Hnew.
  - rewrite map_app. cbn [map Expense.id].
    apply NoDup_app; [exact Hnd | repeat constructor; intros [] |].
    intros i Hi [<- | []]. apply in_map_iff in Hi. destruct Hi as (r & Hr & Hin).
    pose proof (maxId_ge _ _ Hin). subst newId. lia.
  - apply Forall_app. split.
    + apply Forall_forall. intros r Hr. rewrite Forall_forall in Hids.
      pose proof (Hids r Hr). subst newId. lia.
    + constructor; [| constructor]. cbn [Expense.id]. subst newId. lia.
Qed.

Lemma update_sound d a c n dt i :
  soundTable d -> formRow (updatedRow i a c n dt) ->
  soundTable (runAsync (UPDATE a c n dt i) d).
Proof.
  intros (Hrows & Hnd & Hids) Hnew. cbn [runAsync].
  unfold soundTable. cbn [rows sequence].
  fold (updatedRow i a c n dt). split; [| split].
  - apply Forall_forall. intros r Hr. apply in_map_iff in Hr.
    destruct Hr as (x & <- & Hx). destruct (Expense.id x =? i); [exact Hnew |].
    rewrite Forall_forall in Hrows. apply Hrows, Hx.
  - rewrite ids_after_update by reflexivity. exact Hnd.
  - apply Forall_forall. intros r Hr. apply in_map_iff in Hr.
    destruct Hr as (x & <- & Hx). rewrite Forall_forall in Hids.
    destruct (Z.eqb_spec (Expense.id x) i) as [E | E]; [| apply Hids, Hx].
    cbn [updatedRow Expense.id]. rewrite <- E. apply Hids, Hx.
Qed.

Lemma delete_sound d i : soundTable d -> soundTable (runAsync (DELETE i) d).
Proof.
  intros (Hrows & Hnd & Hids). cbn [runAsync]. unfold soundTable. cbn [rows sequence].
  split; [| split].
  - apply Forall_forall. intros r Hr. apply filter_In in Hr.
    rewrite Forall_forall in Hrows. apply Hrows, Hr.
  - rewrite ids_after_delete. apply NoDup_filter, Hnd.
  - apply Forall_forall. intros r Hr. apply filter_In in Hr.
    rewrite Forall_forall in Hids. apply Hids, Hr.
Qed.

(** *** The rows that the two forms build *)

Lemma form_row i amt cat nt dt :
  ltb zero (parseFloat amt) = true -> trim cat <> [] -> tidy dt ->
  formRow (updatedRow i (parseFloat amt) (trim cat) (trimOrNull nt) dt).
Proof.
  intros Ha Hc Hd. unfold formRow. cbn [updatedRow Expense.amount Expense.category
                                         Expense.note Expense.date].
  split; [eexists; split; [reflexivity | exact Ha] |].
  split; [eexists; split; [reflexivity | apply trim_tidy, Hc] |].
  split; [| eexists; split; [reflexivity | exact Hd]].
  destruct (trimOrNull_cases nt) as [[-> _] | [-> Ht]]; [left; reflexivity |].
  right. eexists. split; [reflexivity | exact Ht].
Qed.

Lemma add_guard s :
  addRejected s = false ->
  ltb zero (parseFloat (amount s)) = true /\ trim (category s) <> [].
Proof.
  unfold addRejected. cbv zeta. intro H. apply orb_false_iff in H. destruct H as [H1 H2].
  split; [apply positive_guard, H1 |].
  destruct (trim (category s)); [discriminate | discriminate].
Qed.

Lemma edit_guard s :
  editRejected s = false ->
  ltb zero (parseFloat (editAmount s)) = true
  /\ trim (editCategory s) <> [] /\ trim (editDate s) <> [].
Proof.
  unfold editRejected. cbv zeta. intro H.
  apply orb_false_iff in H. destruct H as [H H3].
  apply orb_false_iff in H. destruct H as [H1 H2].
  split; [apply positive_guard, H1 |].
  split; [destruct (trim (editCategory s)) | destruct (trim (editDate s))];
    discriminate.
Qed.

(** *** One user action *)

Section Presses.
Variable cmp : value -> value -> comparison.
Variable nts : number -> jsstring.

Lemma startEditing_keeps now item w w' :
  startEditing nts now item w = Some w' ->
  db w' = db w /\ sent w' = sent w /\ expenses (ui w') = expenses (ui w)
  /\ editingExpense (ui w') = Some item.
Proof.
  unfold startEditing.
  destruct (textCell _); [| discriminate].
  destruct (textCell _); [| discriminate].
  destruct (textCell _); [| discriminate].
  intros [= <-]. repeat split.
Qed.

(** What one action does to the table: it leaves it alone or runs one
    statement whose row, if it carries one, is a form row. *)
Lemma press_table w w' :
  press cmp nts w w' ->
  db w' = db w
  \/ (exists a c n dt, formRow (updatedRow 0 a c n dt)
                       /\ db w' = runAsync (INSERT a c n dt) (db w))
  \/ (exists a c n dt i, formRow (updatedRow i a c n dt)
                         /\ db w' = runAsync (UPDATE a c n dt i) (db w))
  \/ (exists i, db w' = runAsync (DELETE i) (db w)).
Proof.
  intros [f text w0 | f w0 | now w0 | now item w0 w1 Hin Hst | w0 | w0 | item w0 Hin].
  - left. reflexivity.
  - left. reflexivity.
  - unfold addExpense. destruct (addRejected (ui w0)) eqn:Hok; [left; reflexivity |].
    right. left. destruct (add_guard _ Hok) as [Ha Hc].
    do 4 eexists. split; [| reflexivity].
    apply (form_row 0 _ _ _ _ Ha Hc (stamp_tidy now)).
  - left. apply (startEditing_keeps _ _ _ _ Hst).
  - left. reflexivity.
  - unfold saveEdit. destruct (editingExpense (ui w0)) as [e |]; [| left; reflexivity].
    destruct (editRejected (ui w0)) eqn:Hok; [left; reflexivity |].
    right. right. left. destruct (edit_guard _ Hok) as (Ha & Hc & Hd).
    do 5 eexists. split; [| reflexivity].
    apply form_row; [exact Ha | exact Hc | apply trim_tidy, Hd].
  - right. right. right. eexists. reflexivity.
Qed.

Lemma press_sound w w' :
  press cmp nts w w' -> soundTable (db w) -> soundTable (db w').
Proof.
  intros Hp Hs.
  destruct (press_table w w' Hp)
    as [-> | [(a & c & n & dt & Hrow & ->) | [(a & c & n & dt & i & Hrow & ->) | (i & ->)]]].
  - exact Hs.
  - apply insert_sound; assumption.
  - apply update_sound; assumption.
  - apply delete_sound; assumption.
Qed.

Lemma press_cache w w' :
  press cmp nts w w' ->
  expenses (ui w) = Some (getAllAsync cmp (db w)) ->
  expenses (ui w') = Some (getAllAsync cmp (db w')).
Proof.
  intros [f text w0 | f w0 | now w0 | now item w0 w1 Hin Hst | w0 | w0 | item w0 Hin] Hc.
  - exact Hc.
  - exact Hc.
  - unfold addExpense. destruct (addRejected (ui w0)); [exact Hc | reflexivity].
  - destruct (startEditing_keeps _ _ _ _ Hst) as (-> & _ & -> & _). exact Hc.
  - exact Hc.
  - unfold saveEdit. destruct (editingExpense (ui w0)); [| exact Hc].
    destruct (editRejected (ui w0)); [exact Hc | reflexivity].
  - reflexivity.
Qed.

(** Ids at or below the sequence number are ids the table already had. *)
Lemma press_ids w w' :
  press cmp nts w w' -> soundTable (db w) ->
  sequence (db w) <= sequence (db w')
  /\ forall r, In r (rows (db w')) -> Expense.id r <= sequence (db w) ->
               In (Expense.id r) (map Expense.id (rows (db w))).
Proof.
  intros Hp Hs.
  destruct (press_table w w' Hp)
    as [-> | [(a & c & n & dt & Hrow & ->) | [(a & c & n & dt & i & Hrow & ->) | (i & ->)]]];
    cbn [runAsync rows sequence].
  - split; [lia |]. intros r Hr _. apply in_map, Hr.
  - split; [lia |]. intros r Hr Hle. apply in_app_or in Hr.
    destruct Hr as [Hr | [<- | []]]; [apply in_map, Hr |].
    cbn [Expense.id] in Hle. lia.
  - split; [lia |]. intros r Hr _.
    rewrite <- (ids_after_update i (updatedRow i a c n dt) (rows (db w)) eq_refl).
    apply in_map, Hr.
  - split; [lia |]. intros r Hr _. apply filter_In in Hr. apply in_map, Hr.
Qed.

End Presses.

End SessionFacts.

Module SessionProperties.
Import Store Screen Handlers TextFacts GuardFacts StampFacts StoreFacts SessionFacts.

(** X4: [loadExpenses] leaves the table as it is and puts into the list
    of the screen every row of the table exactly once, each row before
    all the rows that it precedes under [ORDER BY date DESC, id DESC]: a
    later date first, and among equal dates the larger id first. *)
Theorem load_lists_every_row_once_latest_first :
  forall compareStored : value -> value -> comparison,
    storageOrder compareStored ->
    forall w : world,
      let loaded := loadExpenses compareStored w in
      db loaded = db w
      /\ Permutation (shown loaded) (rows (db w))
      /\ StronglySorted (fun a b => precedes compareStored a b = true) (shown loaded)
      /\ (forall a b,
             precedes compareStored a b = true
             <-> compareStored (Expense.date a) (Expense.date b) = Gt
                 \/ (compareStored (Expense.date a) (Expense.date b) = Eq
                     /\ Expense.id b <= Expense.id a)).
Proof.
  intros cmp Hord w loaded. subst loaded.
  cbn [loadExpenses db ui expenses shown runAsync]. unfold shown. cbn [ui expenses].
  split; [reflexivity |]. split; [apply getAllAsync_perm |].
  split; [apply getAllAsync_sorted, Hord |].
  intros a b. unfold precedes.
  destruct (cmp (Expense.date a) (Expense.date b)).
  - rewrite Z.leb_le. split; [intro H; right; split; [reflexivity | exact H] |].
    intros [H | [_ H]]; [discriminate | exact H].
  - split; [discriminate |]. intros [H | [H _]]; discriminate.
  - split; [intros _; left; reflexivity | reflexivity].
Qed.

Lemma load_lists_every_row_once_latest_first_witness :
  shown (loadExpenses textOrder
           {| db := {| rows := [Samples.row 1 "10" "Food" "2024-01-05";
                                Samples.row 2 "20" "Food" "2024-01-20";
                                Samples.row 3 "5" "Transit" "2024-01-20"];
                       sequence := 3 |};
              sent := []; ui := initial |})
  = [Samples.row 3 "5" "Transit" "2024-01-20";
     Samples.row 2 "20" "Food" "2024-01-20";
     Samples.row 1 "10" "Food" "2024-01-05"]
  /\ StronglySorted (fun a b => precedes textOrder a b = true)
       (shown (loadExpenses textOrder
           {| db := {| rows := [Samples.row 1 "10" "Food" "2024-01-05";
                                Samples.row 2 "20" "Food" "2024-01-20";
                                Samples.row 3 "5" "Transit" "2024-01-20"];
                       sequence := 3 |};
              sent := []; ui := initial |})).
Proof.
  split; [vm_compute; reflexivity |].
  apply (load_lists_every_row_once_latest_first textOrder OrderFacts.textOrder_order).
Defined.

(** X5: an Add that passes the guard appends exactly one row to the table
    and changes no other row.  The new row carries the amount read from
    the text, the trimmed category, the trimmed note or null, and the
    stamp; its id is above the id of every row of the table and above
    the recorded sequence number.  The add form is emptied, the edit
    panel and the filter are left alone, and the list of the screen is
    reloaded: it holds the rows of the table, the new one included. *)
Theorem accepted_add_appends_one_fresh_row :
  forall (compareStored : value -> value -> comparison) (now : Z) (w : world),
    addRejected (ui w) = false ->
    let added := addExpense compareStored now w in
    let new := updatedRow (sequence (db added))
                 (parseFloat (amount (ui w))) (trim (category (ui w)))
                 (trimOrNull (note (ui w))) (getTodayIsoDate now) in
    rows (db added) = (rows (db w) ++ [new])%list
    /\ formRow new
    /\ (forall r, In r (rows (db w)) -> Expense.id r < Expense.id new)
    /\ sequence (db w) < Expense.id new
    /\ In new (shown added)
    /\ Permutation (shown added) (rows (db added))
    /\ amount (ui added) = [] /\ category (ui added) = [] /\ note (ui added) = []
    /\ editingExpense (ui added) = editingExpense (ui w)
    /\ editAmount (ui added) = editAmount (ui w)
    /\ editCategory (ui added) = editCategory (ui w)
    /\ editNote (ui added) = editNote (ui w)
    /\ editDate (ui added) = editDate (ui w)
    /\ filter (ui added) = filter (ui w).
Proof.
  intros cmp now w Hok added new. subst added new.
  destruct (add_guard _ Hok) as [Ha Hc].
  unfold addExpense. rewrite Hok.
  cbn [loadExpenses clearForm execute db sent ui runAsync rows sequence
       amount category note editingExpense editAmount editCategory editNote
       editDate filter expenses updatedRow Expense.id].
  unfold shown. cbn [ui expenses].
  set (newId := Z.max (sequence (db w)) (maxId (rows (db w))) + 1).
  split; [reflexivity |].
  split; [apply (form_row newId _ _ _ _ Ha Hc (stamp_tidy now)) |].
  split; [intros r Hr; pose proof (maxId_ge _ _ Hr); subst newId; lia |].
  split; [subst newId; lia |].
  split.
  - apply getAllAsync_In. cbn [rows]. apply in_or_app. right. left. reflexivity.
  - split; [apply getAllAsync_perm |]. repeat split; reflexivity.
Qed.

Lemma accepted_add_appends_one_fresh_row_witness :
  rows (db (addExpense textOrder FormSamples.sundayNight
              (FormSamples.typing "12,50 " " Food ")))
  = [FormSamples.lunch;
     updatedRow 2 (ofZ 12) (js "Food") VNull (js "2024-01-07")]
  /\ shown (addExpense textOrder FormSamples.sundayNight
              (FormSamples.typing "12,50 " " Food "))
     = [updatedRow 2 (ofZ 12) (js "Food") VNull (js "2024-01-07");
        FormSamples.lunch].
Proof.
  destruct (accepted_add_appends_one_fresh_row textOrder FormSamples.sundayNight
              (FormSamples.typing "12,50 " " Food ") eq_refl) as (Hrows & _).
  split; [rewrite Hrows |]; vm_compute; reflexivity.
Defined.

(** X6: a Save that passes the guard rewrites the rows whose id is the id
    of the row being edited, with the amount read from the text, the
    trimmed category, the trimmed note or null and the trimmed date, and
    leaves every other row, the order of the rows, their ids and the
    sequence number as they were.  The edit panel is closed and emptied,
    the add form is left alone, and the list of the screen is reloaded. *)
Theorem accepted_edit_rewrites_one_row :
  forall (compareStored : value -> value -> comparison) (w : world) (e : expense),
    editingExpense (ui w) = Some e ->
    editRejected (ui w) = false ->
    let saved := saveEdit compareStored w in
    let row := updatedRow (Expense.id e)
                 (parseFloat (editAmount (ui w))) (trim (editCategory (ui w)))
                 (trimOrNull (editNote (ui w))) (trim (editDate (ui w))) in
    Forall2 (fun old new => new = if Expense.id old =? Expense.id e then row else old)
            (rows (db w)) (rows (db saved))
    /\ formRow row
    /\ map Expense.id (rows (db saved)) = map Expense.id (rows (db w))
    /\ sequence (db saved) = sequence (db w)
    /\ Permutation (shown saved) (rows (db saved))
    /\ editingExpense (ui saved) = None
    /\ editAmount (ui saved) = [] /\ editCategory (ui saved) = []
    /\ editNote (ui saved) = [] /\ editDate (ui saved) = []
    /\ amount (ui saved) = amount (ui w)
    /\ category (ui saved) = category (ui w)
    /\ note (ui saved) = note (ui w)
    /\ filter (ui saved) = filter (ui w).
Proof.
  intros cmp w e He Hok saved row. subst saved row.
  destruct (edit_guard _ Hok) as (Ha & Hc & Hd).
  unfold saveEdit. rewrite He, Hok.
  cbn [loadExpenses cancelEdit execute db sent ui runAsync rows sequence
       amount category note editingExpense editAmount editCategory editNote
       editDate filter expenses].
  unfold shown. cbn [ui expenses].
  fold (updatedRow (Expense.id e) (parseFloat (editAmount (ui w)))
          (trim (editCategory (ui w))) (trimOrNull (editNote (ui w)))
          (trim (editDate (ui w)))).
  split.
  { induction (rows (db w)) as [| x l IH]; cbn [map]; constructor; [reflexivity | exact IH]. }
  split; [apply form_row; [exact Ha | exact Hc | apply trim_tidy, Hd] |].
  split; [apply ids_after_update; reflexivity |].
  split; [reflexivity |].
  split; [apply getAllAsync_perm |]. repeat split; reflexivity.
Qed.

Lemma accepted_edit_rewrites_one_row_witness :
  rows (db (saveEdit textOrder (FormSamples.editing "7.5" "Lunch " "2024-01-06")))
  = [updatedRow 1 (StringToNumber (js "7.5")) (js "Lunch") VNull (js "2024-01-06")]
  /\ editingExpense (ui (saveEdit textOrder
                           (FormSamples.editing "7.5" "Lunch " "2024-01-06")))
     = None.
Proof.
  destruct (accepted_edit_rewrites_one_row textOrder
              (FormSamples.editing "7.5" "Lunch " "2024-01-06") FormSamples.lunch
              eq_refl eq_refl) as (_ & _ & _ & _ & _ & Hclosed & _).
  split; [vm_compute; reflexivity | exact Hclosed].
Defined.

(** X7: [deleteExpense(id)] removes from the table the rows with that id
    and no other: the rows that stay keep their order, an id that no row
    has leaves the table as it was, and deleting the same id again
    changes nothing more.  The sequence number, both forms and the row
    being edited are left alone (even when that row is the deleted one),
    and the list of the screen is reloaded. *)
Theorem delete_removes_the_rows_with_that_id :
  forall (compareStored : value -> value -> comparison) (i : Z) (w : world),
    let gone := deleteExpense compareStored i w in
    (forall r, In r (rows (db gone)) <-> In r (rows (db w)) /\ Expense.id r <> i)
    /\ Subsequence (rows (db gone)) (rows (db w))
    /\ (~ In i (map Expense.id (rows (db w))) -> rows (db gone) = rows (db w))
    /\ rows (db (deleteExpense compareStored i gone)) = rows (db gone)
    /\ sequence (db gone) = sequence (db w)
    /\ Permutation (shown gone) (rows (db gone))
    /\ editingExpense (ui gone) = editingExpense (ui w)
    /\ (amount (ui gone), category (ui gone), note (ui gone))
       = (amount (ui w), category (ui w), note (ui w))
    /\ (editAmount (ui gone), editCategory (ui gone), editNote (ui gone),
        editDate (ui gone))
       = (editAmount (ui w), editCategory (ui w), editNote (ui w), editDate (ui w))
    /\ filter (ui gone) = filter (ui w).
Proof.
  intros cmp i w gone. subst gone. unfold deleteExpense.
  cbn [loadExpenses execute db sent ui runAsync rows sequence
       amount category note editingExpense editAmount editCategory editNote
       editDate filter expenses].
  unfold shown. cbn [ui expenses].
  split.
  { intro r. rewrite filter_In, negb_true_iff, Z.eqb_neq. reflexivity. }
  split; [apply WindowClaims.filter_subsequence |].
  split; [apply delete_absent |].
  split; [apply delete_absent, deleted_is_absent |].
  split; [reflexivity |].
  split; [apply getAllAsync_perm |]. repeat split; reflexivity.
Qed.

(** X8: deleting the row that is being edited leaves the edit panel open
    on it.  A Save pressed then, whatever the panel holds, changes no row
    of the table: the deleted row does not come back. *)
Theorem saving_an_edit_of_a_deleted_row_changes_no_row :
  forall (compareStored : value -> value -> comparison) (w : world) (e : expense),
    editingExpense (ui w) = Some e ->
    let gone := deleteExpense compareStored (Expense.id e) w in
    editingExpense (ui gone) = Some e
    /\ rows (db (saveEdit compareStored gone)) = rows (db gone)
    /\ ~ In (Expense.id e) (map Expense.id (rows (db (saveEdit compareStored gone)))).
Proof.
  intros cmp w e He gone.
  assert (Hopen : editingExpense (ui gone) = Some e) by exact He.
  assert (Habsent : ~ In (Expense.id e) (map Expense.id (rows (db gone))))
    by apply deleted_is_absent.
  assert (Hrows : rows (db (saveEdit cmp gone)) = rows (db gone)).
  { unfold saveEdit. rewrite Hopen.
    destruct (editRejected (ui gone)); [reflexivity |].
    cbn [loadExpenses cancelEdit execute db runAsync rows].
    apply update_absent, Habsent. }
  split; [exact Hopen |]. split; [exact Hrows |]. rewrite Hrows. exact Habsent.
Qed.

Lemma saving_an_edit_of_a_deleted_row_changes_no_row_witness :
  rows (db (saveEdit textOrder
              (deleteExpense textOrder 1
                 (FormSamples.editing "7.5" "Lunch" "2024-01-06"))))
  = []
  /\ sent (saveEdit textOrder
             (deleteExpense textOrder 1
                (FormSamples.editing "7.5" "Lunch" "2024-01-06")))
     = [DELETE 1; SELECT_ALL;
        UPDATE (StringToNumber (js "7.5")) (js "Lunch") VNull (js "2024-01-06") 1;
        SELECT_ALL].
Proof.
  destruct (saving_an_edit_of_a_deleted_row_changes_no_row textOrder
              (FormSamples.editing "7.5" "Lunch" "2024-01-06") FormSamples.lunch
              eq_refl) as (_ & Hrows & _).
  split; [etransitivity; [exact Hrows |] |]; vm_compute; reflexivity.
Defined.

Lemma later_invariant cmp nts w w' :
  sessionInvariant cmp w -> later cmp nts w w' -> sessionInvariant cmp w'.
Proof.
  intros Hinv Hl. induction Hl as [w | w w1 w2 _ IH Hp]; [exact Hinv |].
  destruct (IH Hinv) as [Ht Hc]. constructor.
  - apply (press_sound cmp nts w1 w2 Hp Ht).
  - apply (press_cache cmp nts w1 w2 Hp Hc).
Qed.

Lemma setup_invariant cmp file : soundFile file -> sessionInvariant cmp (setup cmp file).
Proof.
  intro Hf. constructor; cbn [setup loadExpenses db ui expenses runAsync]; [| reflexivity].
  destruct file as [d |]; [exact Hf |].
  split; [constructor | split; constructor].
Qed.

Lemma formRow_editable nts now item w :
  formRow item -> startEditing nts now item w <> None.
Proof.
  intros (_ & (c & Hc & _) & Hn & (d & Hd & Hdt)).
  unfold startEditing. rewrite Hc, Hd. cbn [textCell].
  assert (Hdate : orElse (VString d) (VString (getTodayIsoDate now)) = VString d).
  { destruct d as [| x d']; [destruct Hdt as [H _]; contradiction | reflexivity]. }
  rewrite Hdate. cbn [textCell].
  destruct Hn as [-> | (n & -> & Hnt)]; [cbn; discriminate |].
  destruct n as [| x n']; [destruct Hnt as [H _]; contradiction |]. cbn. discriminate.
Qed.

(** X9: through every session of the screen (mounting on a database file
    whose table, if it exists, is sound, then any sequence of typing,
    filter, Add, Edit, Cancel, Save and delete actions) the table stays
    sound: every row has a positive number as amount, tidy texts as
    category and date and a note that is null or a tidy text; ids are
    positive, pairwise distinct and at most the sequence number.  The list
    that the screen holds is always the table read in order, so every row
    listed is such a row and can be opened in the edit panel. *)
Theorem sessions_keep_the_table_sound :
  forall (compareStored : value -> value -> comparison)
         (NumberToString : number -> jsstring)
         (file : option database) (w : world),
    soundFile file ->
    later compareStored NumberToString (setup compareStored file) w ->
    sessionInvariant compareStored w
    /\ Permutation (shown w) (rows (db w))
    /\ Forall formRow (shown w)
    /\ (forall now item,
           In item (shown w) -> startEditing NumberToString now item w <> None).
Proof.
  intros cmp nts file w Hf Hl.
  pose proof (later_invariant cmp nts _ _ (setup_invariant cmp file Hf) Hl) as Hinv.
  destruct Hinv as [Ht Hc].
  assert (Hshown : shown w = getAllAsync cmp (db w)) by (unfold shown; rewrite Hc; reflexivity).
  assert (Hall : Forall formRow (shown w)).
  { rewrite Hshown. apply Forall_forall. intros r Hr.
    apply getAllAsync_In in Hr. destruct Ht as [Hrows _].
    rewrite Forall_forall in Hrows. apply Hrows, Hr. }
  split; [constructor; assumption |].
  split; [rewrite Hshown; apply getAllAsync_perm |].
  split; [exact Hall |].
  intros now item Hin. apply formRow_editable.
  rewrite Forall_forall in Hall. apply Hall, Hin.
Qed.

Lemma sessions_keep_the_table_sound_witness :
  sessionInvariant textOrder
    (deleteExpense textOrder 1
       (addExpense textOrder FormSamples.sundayNight
          (changeText Category (js "Food")
             (changeText Amount (js "12.50") (setup textOrder None)))))
  /\ rows (db (deleteExpense textOrder 1
                 (addExpense textOrder FormSamples.sundayNight
                    (changeText Category (js "Food")
                       (changeText Amount (js "12.50") (setup textOrder None))))))
     = [].
Proof.
  split; [| vm_compute; reflexivity].
  apply (sessions_keep_the_table_sound textOrder Samples.noText None _ I).
  eapply later_press;
    [eapply later_press; [eapply later_press; [eapply later_press; [apply later_now |] |] |] |].
  - apply (press_key textOrder Samples.noText Amount (js "12.50")).
  - apply (press_key textOrder Samples.noText Category (js "Food")).
  - apply (press_add textOrder Samples.noText FormSamples.sundayNight).
  - apply (press_delete textOrder Samples.noText
             (updatedRow 1 (StringToNumber (js "12.50")) (js "Food") VNull
                (js "2024-01-07"))).
    vm_compute. left. reflexivity.
Defined.

(** X10: an id is never given twice.  From a sound table on, through any
    sequence of actions, the sequence number never goes down, and every
    row whose id is at most the sequence number of the start has the id
    of a row that was in the table at the start: a row added later gets
    an id above it, so the id of a deleted row does not come back. *)
Theorem a_deleted_id_is_never_given_again :
  forall (compareStored : value -> value -> comparison)
         (NumberToString : number -> jsstring) (w w' : world),
    soundTable (db w) ->
    later compareStored NumberToString w w' ->
    sequence (db w) <= sequence (db w')
    /\ NoDup (map Expense.id (rows (db w')))
    /\ forall r, In r (rows (db w')) ->
         Expense.id r <= sequence (db w) ->
         In (Expense.id r) (map Expense.id (rows (db w))).
Proof.
  intros cmp nts w w' Hs Hl.
  assert (H : soundTable (db w')
              /\ sequence (db w) <= sequence (db w')
              /\ forall r, In r (rows (db w')) ->
                   Expense.id r <= sequence (db w) ->
                   In (Expense.id r) (map Expense.id (rows (db w)))).
  { induction Hl as [w | w w1 w2 _ IH Hp].
    - split; [exact Hs |]. split; [lia |]. intros r Hr _. apply in_map, Hr.
    - destruct (IH Hs) as (Hs1 & Hseq & Hids).
      destruct (press_ids cmp nts w1 w2 Hp Hs1) as [Hseq' Hids'].
      split; [apply (press_sound cmp nts w1 w2 Hp Hs1) |]. split; [lia |].
      intros r Hr Hle.
      assert (Hle1 : Expense.id r <= sequence (db w1)) by lia.
      pose proof (Hids' r Hr Hle1) as Hin. apply in_map_iff in Hin.
      destruct Hin as (r1 & Hid & Hr1). rewrite <- Hid. apply Hids; [exact Hr1 | lia]. }
  destruct H as ((_ & Hnd & _) & Hseq & Hids). auto.
Qed.

Lemma a_deleted_id_is_never_given_again_witness :
  map Expense.id
    (rows (db (addExpense textOrder FormSamples.sundayNight
                 (deleteExpense textOrder 1 (FormSamples.typing "3" "Tea")))))
  = [2]
  /\ (forall r,
         In r (rows (db (addExpense textOrder FormSamples.sundayNight
                           (deleteExpense textOrder 1 (FormSamples.typing "3" "Tea"))))) ->
         Expense.id r <= 1 -> False).
Proof.
  split; [vm_compute; reflexivity |].
  intros r Hr Hle.
  assert (Hs : soundTable (db (deleteExpense textOrder 1 (FormSamples.typing "3" "Tea")))).
  { split; [constructor | split; constructor]. }
  assert (Hl : later textOrder Samples.noText
                 (deleteExpense textOrder 1 (FormSamples.typing "3" "Tea"))
                 (addExpense textOrder FormSamples.sundayNight
                    (deleteExpense textOrder 1 (FormSamples.typing "3" "Tea")))).
  { eapply later_press; [apply later_now | apply press_add]. }
  destruct (a_deleted_id_is_never_given_again textOrder Samples.noText _ _ Hs Hl)
    as (_ & _ & Hids).
  apply (Hids r Hr Hle).
Defined.

Lemma untouched_panel nts now item w w' :
  formRow item ->
  (forall a, Expense.amount item = VNumber a -> parseFloat (nts a) = a) ->
  startEditing nts now item w = Some w' ->
  db w' = db w /\ sent w' = sent w
  /\ editingExpense (ui w') = Some item
  /\ editRejected (ui w') = false
  /\ updatedRow (Expense.id item)
       (parseFloat (editAmount (ui w'))) (trim (editCategory (ui w')))
       (trimOrNull (editNote (ui w'))) (trim (editDate (ui w')))
     = item.
Proof.
  intros ((a & Ha & Hpos) & (c & Hc & Hct) & Hn & (d & Hd & Hdt)) Hround Hst.
  destruct item as [i am ca no da]. cbn [Expense.amount Expense.category Expense.note
                                         Expense.date Expense.id] in *.
  subst am ca da. specialize (Hround a eq_refl).
  assert (Hdate : orElse (VString d) (VString (getTodayIsoDate now)) = VString d).
  { destruct d as [| x d']; [destruct Hdt as [H _]; contradiction | reflexivity]. }
  assert (Hnote : exists n, orElse no (VString []) = VString n
                            /\ trimOrNull n = no).
  { destruct Hn as [-> | (n & -> & Hnt)]; [exists []; split; reflexivity |].
    exists n. split.
    - destruct n as [| x n']; [destruct Hnt as [H _]; contradiction | reflexivity].
    - unfold trimOrNull. rewrite (tidy_fixed n Hnt).
      destruct n as [| x n']; [destruct Hnt as [H _]; contradiction | reflexivity]. }
  destruct Hnote as (n & Hn1 & Hn2).
  unfold startEditing in Hst.
  cbn [Expense.amount Expense.category Expense.note Expense.date] in Hst.
  rewrite Hdate, Hn1 in Hst. cbn [textCell ToString] in Hst.
  injection Hst as <-. cbn [db sent ui editingExpense editAmount editCategory
                            editNote editDate].
  split; [reflexivity |]. split; [reflexivity |]. split; [reflexivity |].
  rewrite Hround, (tidy_fixed c Hct), (tidy_fixed d Hdt), Hn2.
  split; [| reflexivity].
  unfold editRejected. cbn [editAmount editCategory editDate]. cbv zeta.
  rewrite Hround, (tidy_fixed c Hct), (tidy_fixed d Hdt).
  rewrite (proj2 (positive_guard a) Hpos).
  destruct c as [| x c']; [destruct Hct as [H _]; contradiction |].
  destruct d as [| y d']; [destruct Hdt as [H _]; contradiction |]. reflexivity.
Qed.

(** X11: opening a row of a sound table in the edit panel and pressing
    Save without having touched anything passes the guard, sends one
    UPDATE and leaves every row of the table as it was, provided the text
    that the host prints for the amount reads back as the amount.  The
    panel is closed afterwards. *)
Theorem saving_an_untouched_edit_changes_no_row :
  forall (compareStored : value -> value -> comparison)
         (NumberToString : number -> jsstring)
         (now : Z) (item : expense) (w w' : world),
    soundTable (db w) ->
    In item (rows (db w)) ->
    (forall a, Expense.amount item = VNumber a -> parseFloat (NumberToString a) = a) ->
    startEditing NumberToString now item w = Some w' ->
    let saved := saveEdit compareStored w' in
    editRejected (ui w') = false
    /\ rows (db saved) = rows (db w)
    /\ (exists a c n d,
           sent saved = (sent w ++ [UPDATE a c n d (Expense.id item); SELECT_ALL])%list
           /\ updatedRow (Expense.id item) a c n d = item)
    /\ editingExpense (ui saved) = None.
Proof.
  intros cmp nts now item w w' (Hrows & Hnd & _) Hin Hround Hst saved. subst saved.
  assert (Hform : formRow item) by (rewrite Forall_forall in Hrows; apply Hrows, Hin).
  destruct (untouched_panel nts now item w w' Hform Hround Hst)
    as (Hdb & Hsent & Hed & Hok & Hsame).
  split; [exact Hok |].
  unfold saveEdit. rewrite Hed, Hok.
  cbn [loadExpenses cancelEdit execute db sent ui runAsync rows editingExpense].
  rewrite Hdb, Hsent.
  fold (updatedRow (Expense.id item) (parseFloat (editAmount (ui w')))
          (trim (editCategory (ui w'))) (trimOrNull (editNote (ui w')))
          (trim (editDate (ui w')))).
  rewrite Hsame. split; [| split; [| reflexivity]].
  - rewrite <- (map_id (rows (db w))) at 2. apply map_ext_in. intros x Hx.
    destruct (Z.eqb_spec (Expense.id x) (Expense.id item)) as [E | E]; [| reflexivity].
    symmetry. apply (same_id_same_row (rows (db w))); assumption.
  - do 4 eexists. split; [rewrite <- app_assoc; reflexivity | exact Hsame].
Qed.

Lemma saving_an_untouched_edit_changes_no_row_witness :
  exists w',
    startEditing (fun _ => js "10") 0 FormSamples.lunch (FormSamples.typing "" "") = Some w'
    /\ rows (db (saveEdit textOrder w')) = [FormSamples.lunch]
    /\ editingExpense (ui (saveEdit textOrder w')) = None.
Proof.
  eexists. split; [reflexivity |].
  assert (Hs : soundTable (db (FormSamples.typing "" ""))).
  { split; [| split].
    - constructor; [| constructor]. unfold formRow. cbn.
      split; [eexists; split; reflexivity |].
      split; [eexists; split; [reflexivity |] |].
      + apply no_space_tidy; [discriminate | repeat constructor].
      + split; [left; reflexivity |]. eexists. split; [reflexivity |].
        apply no_space_tidy; [discriminate | repeat constructor].
    - repeat constructor. intros [].
    - repeat constructor; cbn; lia. }
  destruct (saving_an_untouched_edit_changes_no_row textOrder (fun _ => js "10") 0
              FormSamples.lunch (FormSamples.typing "" "") _ Hs
              (or_introl eq_refl)
              (fun a (H : Expense.amount FormSamples.lunch = VNumber a) =>
                 match H in (_ = v) return
                       match v with
                       | VNumber b => parseFloat (js "10") = b
                       | _ => True
                       end
                 with eq_refl => eq_refl end)
              eq_refl) as (_ & Hrows & _ & Hclosed).
  split; [exact Hrows | exact Hclosed].
Defined.

End SessionProperties.

(** ** Category totals, one label at a time *)

Module BucketFacts.
Import NumberFacts ObjectFacts AggregatorFacts.

Lemma add_nan_r x : add x NaN = NaN.
Proof. destruct x as [[] | [] | | [] m e]; reflexivity. Qed.

Lemma add_nan_l x : add NaN x = NaN.
Proof. reflexivity. Qed.

Lemma method_not_proto c :
  existsb (JSString.eqb c) objectPrototypeMethods = true ->
  JSString.eqb c protoKey = false.
Proof.
  intro H. apply eqb_neq. intros ->. vm_compute in H. discriminate.
Qed.

Section Buckets.
Variable nts : number -> jsstring.
Variable fs : jsstring -> jsstring.

Local Abbreviation lbl := (label nts).
Local Abbreviation totals := (totalsByCategory nts fs).
Local Abbreviation labelled := (recordsLabelled nts).

Lemma getOwn_set (m : object) k v c :
  getOwn (set m k v) c
  = if JSString.eqb k protoKey then getOwn m c
    else if JSString.eqb k c then Some v else getOwn m c.
Proof.
  unfold set. destruct (JSString.eqb k protoKey); [reflexivity |].
  destruct (getOwn m k) as [w |] eqn:E.
  - rewrite getOwn_replaceOwn, E. reflexivity.
  - rewrite getOwn_app. cbn [getOwn].
    destruct (JSString.eqb k c) eqn:Ekc.
    + apply eqb_eq in Ekc. subst c. rewrite E. reflexivity.
    + destruct (getOwn m c); reflexivity.
Qed.

Lemma getOwn_accumulate (m : object) exp c :
  getOwn (accumulate nts fs m exp) c = bucketStep nts fs c (getOwn m c) exp.
Proof.
  unfold accumulate, bucketStep. fold (lbl exp). rewrite getOwn_set.
  destruct (JSString.eqb (lbl exp) c) eqn:Ec; cbn [andb].
  - apply eqb_eq in Ec. rewrite Ec.
    destruct (JSString.eqb c protoKey) eqn:Ep; [reflexivity |]. cbn [negb].
    f_equal. f_equal. unfold get, runningValue. rewrite Ep.
    destruct (getOwn m c) as [v |]; [reflexivity |].
    destruct (existsb (JSString.eqb c) objectPrototypeMethods); reflexivity.
  - destruct (JSString.eqb (lbl exp) protoKey); reflexivity.
Qed.

Lemma getOwn_fold (m : object) l c :
  getOwn (fold_left (accumulate nts fs) l m) c
  = fold_left (bucketStep nts fs c) l (getOwn m c).
Proof.
  revert m. induction l as [| e l IH]; intro m; cbn [fold_left]; [reflexivity |].
  rewrite IH, getOwn_accumulate. reflexivity.
Qed.

Lemma getOwn_totals l c : getOwn (totals l) c = bucket nts fs c l.
Proof. apply getOwn_fold. Qed.

Lemma bucket_of_label c l acc :
  fold_left (bucketStep nts fs c) l acc
  = fold_left (bucketStep nts fs c) (labelled c l) acc.
Proof.
  revert acc. induction l as [| e l IH]; intro acc; [reflexivity |].
  unfold recordsLabelled. cbn [filter fold_left]. fold (lbl e).
  destruct (JSString.eqb (lbl e) c) eqn:Ec.
  - cbn [fold_left]. apply IH.
  - rewrite <- IH. unfold bucketStep at 2. fold (lbl e). rewrite Ec. reflexivity.
Qed.

Lemma labelled_labelled c l : labelled c (labelled c l) = labelled c l.
Proof.
  unfold recordsLabelled. induction l as [| e l IH]; [reflexivity |].
  cbn [filter]. destruct (JSString.eqb (label nts e) c) eqn:Ec; [| exact IH].
  cbn [filter]. rewrite Ec, IH. reflexivity.
Qed.

(** A bucket under an ordinary key whose records all contribute
    non-negative numbers holds their sum. *)
Lemma bucket_sum c l s :
  ordinaryKey c = true ->
  Forall (fun exp => nonneg (contribution exp) = true) l ->
  Forall (fun exp => lbl exp = c) l ->
  nonneg s = true ->
  fold_left (bucketStep nts fs c) l (Some (VNumber s))
  = Some (VNumber (fold_left add (map contribution l) s)).
Proof.
  intros Hc Hnn Hl. revert s. induction l as [| e l IH]; intros s Hs; [reflexivity |].
  inversion Hnn as [| ? ? Hx Hnn']; subst. inversion Hl as [| ? ? He Hl']; subst.
  cbn [fold_left map]. unfold bucketStep at 2. fold (lbl e). rewrite eqb_refl.
  assert (Hp : JSString.eqb (lbl e) protoKey = false).
  { unfold ordinaryKey, inheritedKeys in Hc. cbn [existsb] in Hc.
    apply negb_true_iff, orb_false_iff in Hc. apply Hc. }
  rewrite Hp. cbn [andb negb runningValue truthyValue].
  assert (Hrun : (if truthy s then VNumber s else VNumber zero) = VNumber s).
  { destruct (truthy s) eqn:Et; [reflexivity |]. rewrite (nonneg_falsy s Hs Et). reflexivity. }
  rewrite Hrun. cbn [plus ToNumber]. apply (IH Hnn' Hl'). apply add_nonneg; assumption.
Qed.

Lemma labelled_all c l : Forall (fun exp => lbl exp = c) (labelled c l).
Proof.
  apply Forall_forall. intros e He. apply filter_In in He. apply eqb_eq, He.
Qed.

Lemma ordinary_running c :
  ordinaryKey c = true -> runningValue fs c None = VNumber zero.
Proof.
  unfold ordinaryKey, inheritedKeys. cbn [existsb].
  rewrite negb_true_iff, orb_false_iff. intros [_ Hm].
  unfold runningValue. rewrite Hm. reflexivity.
Qed.

Lemma ordinary_not_proto c : ordinaryKey c = true -> JSString.eqb c protoKey = false.
Proof.
  unfold ordinaryKey, inheritedKeys. cbn [existsb].
  rewrite negb_true_iff, orb_false_iff. intros [H _]. exact H.
Qed.

Lemma bucket_whole c l :
  ordinaryKey c = true ->
  Forall (fun exp => nonneg (contribution exp) = true) l ->
  getOwn (totals l) c
  = match labelled c l with
    | [] => None
    | _ :: _ => Some (VNumber (sumOfAmounts (labelled c l)))
    end.
Proof.
  intros Hc Hnn. rewrite getOwn_totals. unfold bucket. rewrite bucket_of_label.
  pose proof (labelled_all c l) as Hl.
  pose proof (recordsLabelled_Forall nts _ c l Hnn) as Hn.
  destruct (labelled c l) as [| e rs]; [reflexivity |].
  inversion Hl as [| ? ? He Hl']; subst. inversion Hn as [| ? ? Hx Hn']; subst.
  cbn [fold_left]. unfold bucketStep at 2. fold (lbl e).
  rewrite eqb_refl, (ordinary_not_proto _ Hc), (ordinary_running _ Hc).
  cbn [andb negb plus ToNumber].
  rewrite (bucket_sum (lbl e) rs _ Hc Hn' Hl').
  - reflexivity.
  - apply add_nonneg; [reflexivity | exact Hx].
Qed.

End Buckets.
End BucketFacts.

Module TotalsProperties.
Import NumberFacts ObjectFacts AggregatorFacts BucketFacts.

(** X12: the total of a category depends only on the records of that
    category, in their order: the own property that [totalsByCategory]
    builds under a key is the one it builds from the records with that
    label alone, whatever the other records are. *)
Theorem a_category_total_depends_on_its_own_records :
  forall (NumberToString : number -> jsstring) (functionSource : jsstring -> jsstring)
         (records : list expense) (c : jsstring),
    getOwn (totalsByCategory NumberToString functionSource records) c
    = getOwn (totalsByCategory NumberToString functionSource
                (recordsLabelled NumberToString c records)) c
    /\ (recordsLabelled NumberToString c records = [] ->
        getOwn (totalsByCategory NumberToString functionSource records) c = None).
Proof.
  intros nts fs l c. rewrite !getOwn_totals. unfold bucket.
  rewrite (bucket_of_label nts fs c l), (bucket_of_label nts fs c (recordsLabelled nts c l)).
  rewrite labelled_labelled. split; [reflexivity |].
  intros ->. reflexivity.
Qed.

Lemma nan_contribution exp :
  isNaN (contribution exp) = true ->
  exists s, Expense.amount exp = VString s /\ s <> []
            /\ isNaN (StringToNumber s) = true.
Proof.
  unfold contribution, orElse.
  destruct (Expense.amount exp) as [| | x | s]; cbn [truthyValue ToNumber];
    try discriminate.
  - destruct x as [[] | [] | | [] m e]; cbn; discriminate.
  - destruct s as [| ch s']; [cbn; discriminate |].
    intro H. exists (ch :: s'). split; [reflexivity |]. split; [discriminate | exact H].
Qed.

Lemma total_from_nan l : fold_left (fun sum exp => add sum (contribution exp)) l NaN = NaN.
Proof. induction l as [| e l IH]; [reflexivity | exact IH]. Qed.

Lemma reset_after_nan nts fs c l :
  ordinaryKey c = true ->
  fold_left (bucketStep nts fs c) l (Some (VNumber NaN))
  = match recordsLabelled nts c l with
    | [] => Some (VNumber NaN)
    | _ :: _ => fold_left (bucketStep nts fs c) l None
    end.
Proof.
  intro Hc. induction l as [| e l IH]; [reflexivity |].
  unfold recordsLabelled. cbn [filter fold_left].
  unfold bucketStep at 2 4. fold (label nts e).
  destruct (JSString.eqb (label nts e) c) eqn:Ec; [| exact IH].
  rewrite (ordinary_not_proto _ Hc), (ordinary_running fs _ Hc). reflexivity.
Qed.

Lemma ordinary_bucket_is_number nts fs c l acc :
  ordinaryKey c = true ->
  (acc = None \/ exists x, acc = Some (VNumber x)) ->
  fold_left (bucketStep nts fs c) l acc = None
  \/ exists x, fold_left (bucketStep nts fs c) l acc = Some (VNumber x).
Proof.
  intro Hc. revert acc. induction l as [| e l IH]; intros acc Hacc; [exact Hacc |].
  cbn [fold_left]. apply IH. unfold bucketStep.
  destruct (_ && _); [| exact Hacc]. right.
  destruct Hacc as [-> | (x & ->)].
  - rewrite (ordinary_running fs _ Hc). eexists. reflexivity.
  - cbn [runningValue truthyValue]. destruct (truthy x); eexists; reflexivity.
Qed.

(** X13: an amount that is a text which does not read as a number (and
    only such an amount) contributes NaN.  From that record on the overall
    total is NaN whatever follows.  The total of its category, under an
    ordinary label, becomes NaN too, but the next record of the category
    starts the category total afresh: after the record, the category
    total is the one of the records that follow it, and what came before
    in that category is forgotten. *)
Theorem an_unreadable_amount_spoils_the_overall_total_and_resets_its_category :
  forall (NumberToString : number -> jsstring) (functionSource : jsstring -> jsstring)
         (before after : list expense) (exp : expense),
    isNaN (contribution exp) = true ->
    (exists s, Expense.amount exp = VString s /\ s <> []
               /\ isNaN (StringToNumber s) = true)
    /\ overallTotal (before ++ exp :: after) = NaN
    /\ (ordinaryKey (label NumberToString exp) = true ->
        getOwn (totalsByCategory NumberToString functionSource (before ++ exp :: after))
               (label NumberToString exp)
        = match recordsLabelled NumberToString (label NumberToString exp) after with
          | [] => Some (VNumber NaN)
          | _ :: _ =>
              getOwn (totalsByCategory NumberToString functionSource after)
                     (label NumberToString exp)
          end).
Proof.
  intros nts fs before after exp Hnan.
  assert (Hc : contribution exp = NaN)
    by (destruct (contribution exp); try discriminate; reflexivity).
  split; [apply nan_contribution, Hnan |]. split.
  - unfold overallTotal. rewrite fold_left_app. cbn [fold_left].
    rewrite Hc, add_nan_r. apply total_from_nan.
  - intro Hord. rewrite !getOwn_totals. unfold bucket.
    rewrite fold_left_app. cbn [fold_left].
    assert (Hstep : bucketStep nts fs (label nts exp)
                      (fold_left (bucketStep nts fs (label nts exp)) before None) exp
                    = Some (VNumber NaN)).
    { destruct (ordinary_bucket_is_number nts fs (label nts exp) before None Hord
                  (or_introl eq_refl)) as [-> | (x & ->)];
        unfold bucketStep; rewrite eqb_refl, (ordinary_not_proto _ Hord);
        cbn [andb negb].
      - rewrite (ordinary_running fs _ Hord), Hc. reflexivity.
      - cbn [runningValue truthyValue]. rewrite Hc.
        destruct (truthy x); cbn [plus ToNumber]; rewrite add_nan_r; reflexivity. }
    rewrite Hstep. apply reset_after_nan, Hord.
Qed.

Lemma an_unreadable_amount_witness :
  overallTotal [Samples.row 1 "10" "Food" "2024-01-05"; Samples.garbled;
                Samples.row 3 "5" "Food" "2024-01-06"]
  = NaN
  /\ getOwn (totalsByCategory Samples.noText Samples.noSource
               [Samples.row 1 "10" "Food" "2024-01-05"; Samples.garbled;
                Samples.row 3 "5" "Food" "2024-01-06"])
            (js "Food")
     = Some (VNumber (ofZ 5)).
Proof.
  destruct (an_unreadable_amount_spoils_the_overall_total_and_resets_its_category
              Samples.noText Samples.noSource
              [Samples.row 1 "10" "Food" "2024-01-05"]
              [Samples.row 3 "5" "Food" "2024-01-06"]
              Samples.garbled eq_refl) as (_ & Htotal & Hcat).
  split; [exact Htotal |].
  etransitivity; [exact (Hcat eq_refl) |]. vm_compute. reflexivity.
Defined.

Lemma text_bucket nts fs c rs t :
  existsb (JSString.eqb c) objectPrototypeMethods = true ->
  fs c <> [] ->
  Forall (fun exp => label nts exp = c) rs ->
  fold_left (bucketStep nts fs c) rs (Some (VString (fs c ++ t)))
  = Some (VString (fs c ++ t ++ amountsText nts rs)).
Proof.
  intros Hm Hfs. revert t. induction rs as [| e rs IH]; intros t Hl.
  - unfold amountsText. cbn [map List.concat fold_left]. rewrite app_nil_r. reflexivity.
  - inversion Hl as [| ? ? He Hl']; subst. cbn [fold_left].
    unfold bucketStep at 2. rewrite eqb_refl, (method_not_proto _ Hm).
    cbn [andb negb runningValue].
    assert (Ht : truthyValue (VString (fs (label nts e) ++ t)) = true).
    { destruct (fs (label nts e)) as [| x s]; [contradiction | reflexivity]. }
    rewrite Ht. cbn [plus ToString]. rewrite <- app_assoc.
    rewrite (IH (t ++ nts (contribution e))%list Hl').
    unfold amountsText. cbn [map List.concat]. rewrite <- !app_assoc. reflexivity.
Qed.

(** X14: a category whose label is the name of a method that every object
    inherits ([toString], [constructor], [valueOf], ...) never gets a
    number as its total.  Its entry holds a text: the source text that the
    host gives for the inherited function (not empty on any host),
    followed by the amounts of the category's records as the host prints
    them, one after another in the order of the records. *)
Theorem a_category_named_like_an_inherited_method_gets_a_text :
  forall (NumberToString : number -> jsstring) (functionSource : jsstring -> jsstring)
         (records : list expense) (c : jsstring),
    In c objectPrototypeMethods ->
    functionSource c <> [] ->
    getOwn (totalsByCategory NumberToString functionSource records) c
    = match recordsLabelled NumberToString c records with
      | [] => None
      | _ :: _ =>
          Some (VString (functionSource c
                         ++ amountsText NumberToString
                              (recordsLabelled NumberToString c records)))
      end.
Proof.
  intros nts fs l c Hin Hfs. apply existsb_eqb_In in Hin.
  rewrite getOwn_totals. unfold bucket. rewrite bucket_of_label.
  pose proof (labelled_all nts c l) as Hl.
  destruct (recordsLabelled nts c l) as [| e rs]; [reflexivity |].
  inversion Hl as [| ? ? He Hl']; subst. cbn [fold_left].
  unfold bucketStep at 2. rewrite eqb_refl, (method_not_proto _ Hin).
  cbn [andb negb runningValue]. rewrite Hin. cbn [plus ToString].
  rewrite (text_bucket nts fs (label nts e) rs _ Hin Hfs Hl').
  unfold amountsText. cbn [map List.concat]. reflexivity.
Qed.

Lemma a_category_named_like_an_inherited_method_witness :
  getOwn (totalsByCategory (fun _ => js "5") (fun _ => js "function toString() {}")
            [Samples.row 1 "5" "toString" "2024-01-05";
             Samples.row 2 "10" "Food" "2024-01-05";
             Samples.row 3 "5" "toString" "2024-01-06"])
         (js "toString")
  = Some (VString (js "function toString() {}55")).
Proof.
  etransitivity.
  - apply (a_category_named_like_an_inherited_method_gets_a_text
             (fun _ => js "5") (fun _ => js "function toString() {}")).
    + vm_compute. do 5 right. left. reflexivity.
    + discriminate.
  - vm_compute. reflexivity.
Defined.

(** X15: a record whose category is [__proto__] is counted under no
    category: the mapping that [totalsByCategory] builds is the one it
    builds without that record, and it never has an entry of that name.
    The record still counts in the overall total. *)
Theorem a_category_named_proto_is_counted_under_no_category :
  forall (NumberToString : number -> jsstring) (functionSource : jsstring -> jsstring)
         (before after : list expense) (exp : expense),
    label NumberToString exp = protoKey ->
    totalsByCategory NumberToString functionSource (before ++ exp :: after)
    = totalsByCategory NumberToString functionSource (before ++ after)
    /\ (forall records,
           getOwn (totalsByCategory NumberToString functionSource records) protoKey = None
           /\ ~ In protoKey
                (map fst (totalsByCategory NumberToString functionSource records)))
    /\ overallTotal (before ++ [exp]) = add (overallTotal before) (contribution exp).
Proof.
  intros nts fs before after exp Hl. split; [| split].
  - unfold totalsByCategory. rewrite !fold_left_app. cbn [fold_left]. f_equal.
    unfold accumulate, set. unfold label in Hl. rewrite Hl, eqb_refl. reflexivity.
  - intro l.
    assert (H : getOwn (totalsByCategory nts fs l) protoKey = None).
    { rewrite getOwn_totals. unfold bucket.
      induction l as [| e l IH] using rev_ind; [reflexivity |].
      rewrite fold_left_app. cbn [fold_left]. rewrite IH.
      unfold bucketStep. rewrite eqb_refl, andb_false_r. reflexivity. }
    split; [exact H | apply getOwn_None, H].
  - unfold overallTotal. rewrite fold_left_app. reflexivity.
Qed.

Lemma a_category_named_proto_witness :
  totalsByCategory Samples.noText Samples.noSource
    [Samples.row 1 "10" "Food" "2024-01-05"; Samples.row 2 "7" "__proto__" "2024-01-05"]
  = [(js "Food", VNumber (ofZ 10))]
  /\ overallTotal
       [Samples.row 1 "10" "Food" "2024-01-05"; Samples.row 2 "7" "__proto__" "2024-01-05"]
     = ofZ 17.
Proof.
  destruct (a_category_named_proto_is_counted_under_no_category
              Samples.noText Samples.noSource
              [Samples.row 1 "10" "Food" "2024-01-05"] []
              (Samples.row 2 "7" "__proto__" "2024-01-05") eq_refl) as (H & _).
  split; [etransitivity; [exact H |] |]; vm_compute; reflexivity.
Defined.

End TotalsProperties.

Module SessionTotals.
Import Store Screen Handlers NumberFacts ObjectFacts AggregatorFacts BucketFacts
       StoreFacts SessionFacts.

Lemma positive_nonneg a : ltb zero a = true -> nonneg a = true /\ truthy a = true.
Proof. destruct a as [[] | [] | | [] m e]; cbn; intro H; try discriminate; auto. Qed.

Lemma formRow_contribution exp :
  formRow exp ->
  exists a, Expense.amount exp = VNumber a /\ contribution exp = a
            /\ nonneg a = true /\ ltb zero a = true.
Proof.
  intros ((a & Ha & Hpos) & _). exists a. destruct (positive_nonneg a Hpos) as [Hn Ht].
  split; [exact Ha |]. unfold contribution, orElse. rewrite Ha. cbn [truthyValue].
  rewrite Ht. cbn [ToNumber]. auto.
Qed.

Lemma formRows_nonneg l :
  Forall formRow l -> Forall (fun exp => nonneg (contribution exp) = true) l.
Proof.
  intro H. apply Forall_forall. intros e He. rewrite Forall_forall in H.
  destruct (formRow_contribution e (H e He)) as (a & _ & -> & Hn & _). exact Hn.
Qed.

(** X16: in every state of a session, whatever the filter, the zone, the
    date parser and the clock, the overall total of the rows displayed is
    a number that is not NaN and not negative, and under every ordinary
    label the category total is the sum, in list order, of the amounts of
    the displayed rows with that label (no entry when there is none),
    which is not NaN and not negative either. *)
Theorem totals_of_a_session_are_sums_of_positive_amounts :
  forall (compareStored : value -> value -> comparison)
         (NumberToString : number -> jsstring) (functionSource : jsstring -> jsstring)
         (LocalTZA : Z -> bool -> Z) (DateParse : jsstring -> option Z)
         (file : option database) (w : world) (now : Z),
    soundFile file ->
    later compareStored NumberToString (setup compareStored file) w ->
    let displayed :=
      filteredExpenses LocalTZA DateParse (expenses (ui w)) (filter (ui w)) now in
    Forall formRow displayed
    /\ nonneg (overallTotal displayed) = true
    /\ isNaN (overallTotal displayed) = false
    /\ forall c,
         ordinaryKey c = true ->
         getOwn (totalsByCategory NumberToString functionSource displayed) c
         = match recordsLabelled NumberToString c displayed with
           | [] => None
           | _ :: _ =>
               Some (VNumber (sumOfAmounts (recordsLabelled NumberToString c displayed)))
           end
         /\ nonneg (sumOfAmounts (recordsLabelled NumberToString c displayed)) = true.
Proof.
  intros cmp nts fs tza parse file w now Hf Hl displayed.
  pose proof (SessionProperties.later_invariant cmp nts _ _
                (SessionProperties.setup_invariant cmp file Hf) Hl) as [Ht Hc].
  assert (Hrows : Forall formRow displayed).
  { subst displayed. rewrite Hc.
    destruct (FilterFacts.filteredExpenses_filter tza parse
                (getAllAsync cmp (db w)) (filter (ui w)) now) as (p & ->).
    apply Forall_forall. intros r Hr. apply filter_In in Hr. destruct Hr as [Hr _].
    apply getAllAsync_In in Hr. destruct Ht as [Hall _].
    rewrite Forall_forall in Hall. apply Hall, Hr. }
  pose proof (formRows_nonneg _ Hrows) as Hnn.
  assert (Htotal : nonneg (overallTotal displayed) = true).
  { rewrite overallTotal_sum. apply sumOfAmounts_nonneg, Hnn. }
  split; [exact Hrows |]. split; [exact Htotal |]. split.
  - destruct (overallTotal displayed); try discriminate; reflexivity.
  - intros c Hord. split; [apply bucket_whole; assumption |].
    apply sumOfAmounts_nonneg, recordsLabelled_Forall, Hnn.
Qed.

Lemma totals_of_a_session_witness :
  overallTotal
    (filteredExpenses (fixedOffset 0) WindowSamples.sampleParse
       (expenses (ui (addExpense textOrder FormSamples.sundayNight
                        (changeText Category (js "Food")
                           (changeText Amount (js "12.50") (setup textOrder None))))))
       FILTER_ALL FormSamples.sundayNight)
  = StringToNumber (js "12.5")
  /\ nonneg (StringToNumber (js "12.5")) = true.
Proof.
  assert (Hl : later textOrder Samples.noText (setup textOrder None)
                 (addExpense textOrder FormSamples.sundayNight
                    (changeText Category (js "Food")
                       (changeText Amount (js "12.50") (setup textOrder None))))).
  { eapply later_press; [eapply later_press; [eapply later_press; [apply later_now |] |] |].
    - apply (press_key textOrder Samples.noText Amount (js "12.50")).
    - apply (press_key textOrder Samples.noText Category (js "Food")).
    - apply (press_add textOrder Samples.noText FormSamples.sundayNight). }
  destruct (totals_of_a_session_are_sums_of_positive_amounts
              textOrder Samples.noText Samples.noSource (fixedOffset 0)
              WindowSamples.sampleParse None _ FormSamples.sundayNight I Hl)
    as (_ & Hnn & _).
  split; [vm_compute; reflexivity | exact Hnn].
Defined.

End SessionTotals.

(** ** Windows: which instants share one *)

Module WindowMore.
Import CalendarFacts WindowFacts.

(** The days from the first of a month up to the first of the next are
    the days of that month of that year. *)
Lemma month_unique x y m :
  0 <= m <= 11 ->
  MakeDay y m 1 <= Day x < MakeDay y (m + 1) 1 ->
  YearFromTime x = y /\ MonthFromTime x = m.
Proof.
  intros Hm [Hlo Hhi].
  rewrite MakeDay_in_year in Hlo by lia.
  pose proof (daysBeforeMonth_range y m Hm) as Hb.
  assert (Hup : Day x - DayFromYear y
                < (if m =? 11 then DaysInYear y else daysBeforeMonth y (m + 1))).
  { destruct (Z.eqb_spec m 11) as [-> | Hne].
    - unfold MakeDay in Hhi. change ((11 + 1) / 12) with 1 in Hhi.
      change ((11 + 1) mod 12) with 0 in Hhi. rewrite DayFromYear_succ in Hhi.
      unfold daysBeforeMonth at 1 in Hhi. lia.
    - rewrite MakeDay_in_year in Hhi by lia. lia. }
  assert (Hy : YearFromTime x = y).
  { apply YearFromTime_unique. rewrite DayFromYear_succ.
    destruct (Z.eqb_spec m 11) as [-> | Hne]; [lia |].
    pose proof (daysBeforeMonth_range y (m + 1)). lia. }
  split; [exact Hy |].
  unfold MonthFromTime, InLeapYear, DayWithinYear. rewrite Hy.
  set (d := Day x - DayFromYear y) in *.
  assert (Hd : daysBeforeMonth y m <= d) by (subst d; lia).
  clearbody d. clear Hlo Hhi Hy Hb. revert Hd Hup.
  unfold daysBeforeMonth.
  destruct (DaysInYear_range y) as [E | E]; rewrite E; cbn [Z.eqb Pos.eqb];
    month_cases m; cbn; intros Hd Hup; split_comparisons; lia.
Qed.

Section Sharing.
Variable LocalTZA : Z -> bool -> Z.
Hypothesis regular : regularZone LocalTZA.

Local Abbreviation localTime := (LocalTime LocalTZA).
Local Abbreviation utc := (UTC LocalTZA).
Local Abbreviation monday := (mondayOf LocalTZA).
Local Abbreviation mStart := (monthStartOf LocalTZA).
Local Abbreviation mEnd := (monthEndOf LocalTZA).

Lemma day_from_midnight d t : utc (d * msPerDay) <= t -> d <= Day (localTime t).
Proof.
  intro H. destruct (Z.le_gt_cases d (Day (localTime t))) as [Hle | Hgt]; [exact Hle |].
  pose proof (midnight_gt LocalTZA regular d t). lia.
Qed.

Lemma day_before_midnight d t : t < utc (d * msPerDay) -> Day (localTime t) < d.
Proof.
  intro H. destruct (Z.lt_ge_cases (Day (localTime t)) d) as [Hlt | Hge]; [exact Hlt |].
  pose proof (midnight_le LocalTZA regular d t). lia.
Qed.

Lemma midnight_inj d d' : utc (d * msPerDay) = utc (d' * msPerDay) -> d = d'.
Proof.
  intro H. apply (f_equal localTime) in H.
  rewrite !(local_of_midnight LocalTZA regular) in H. unfold msPerDay in H. lia.
Qed.

Lemma same_week t t' :
  monday t <= Day (localTime t') < monday t + 7 -> monday t' = monday t.
Proof.
  unfold mondayOf, weekdayIndex, WeekDay. intro H.
  Z.div_mod_to_equations. lia.
Qed.

Lemma midnight_bound d t k :
  0 <= k -> Z.abs (d - Day (localTime t)) <= k ->
  Z.abs (utc (d * msPerDay)) <= Z.abs t + (k + 3) * msPerDay.
Proof.
  intros Hk Hd.
  pose proof (utc_bound LocalTZA regular (d * msPerDay)) as Hu.
  pose proof (local_bound LocalTZA regular t) as Hl.
  pose proof (day_decomposition (localTime t)) as Hdec.
  pose proof (time_within_day_range (localTime t)) as Htod.
  unfold msPerDay in *. lia.
Qed.

Lemma week_window_shared t :
  wellInside 40 t ->
  let s := utc (monday t * msPerDay) in
  let e := utc ((monday t + 7) * msPerDay) in
  getWeekBounds LocalTZA (Some t) = (Some s, Some e)
  /\ s <= t < e
  /\ (forall t', s <= t' < e -> getWeekBounds LocalTZA (Some t') = (Some s, Some e))
  /\ (forall t', wellInside 40 t' ->
                 getWeekBounds LocalTZA (Some t') = (Some s, Some e) -> s <= t' < e)
  /\ fst (getWeekBounds LocalTZA (Some e)) = Some e
  /\ snd (getWeekBounds LocalTZA (Some (s - 1))) = Some s.
Proof.
  intros Hin s e.
  pose proof (weekdayIndex_range LocalTZA t) as Hw.
  assert (Hs : Z.abs s <= Z.abs t + 10 * msPerDay).
  { apply (midnight_bound (monday t) t 7); [lia |]. unfold mondayOf. lia. }
  assert (He : Z.abs e <= Z.abs t + 10 * msPerDay).
  { apply (midnight_bound (monday t + 7) t 7); [lia |]. unfold mondayOf. lia. }
  assert (Hin9 : forall x, Z.abs x <= Z.abs t + 11 * msPerDay -> wellInside 9 x).
  { intros x Hx. unfold wellInside in *. unfold msPerDay in *. lia. }
  assert (Hcontains : forall x, monday x = monday t -> s <= x < e).
  { intros x Hx. pose proof (weekdayIndex_range LocalTZA x) as Hwx. subst s e. split.
    - apply (midnight_le LocalTZA regular). rewrite <- Hx. unfold mondayOf. lia.
    - apply (midnight_gt LocalTZA regular). rewrite <- Hx. unfold mondayOf. lia. }
  assert (Hshare : forall x, s <= x < e -> monday x = monday t).
  { intros x [H1 H2]. apply same_week. split.
    - apply day_from_midnight, H1.
    - apply day_before_midnight, H2. }
  split; [apply (getWeekBounds_value LocalTZA regular), (wellInside_weaken 40 9); [lia | exact Hin] |].
  split; [apply Hcontains; reflexivity |].
  split; [| split; [| split]].
  - intros t' Ht'. rewrite (getWeekBounds_value LocalTZA regular).
    + rewrite (Hshare t' Ht'). reflexivity.
    + apply Hin9. unfold msPerDay in *. lia.
  - intros t' Hin' Hb.
    rewrite (getWeekBounds_value LocalTZA regular) in Hb
      by (apply (wellInside_weaken 40 9); [lia | exact Hin']).
    injection Hb as Hb _. apply Hcontains, midnight_inj, Hb.
  - assert (Hnext : monday e = monday t + 7).
    { pose proof (monday_is_monday LocalTZA t) as Hm. unfold WeekDay in Hm.
      rewrite day_of_midnight in Hm.
      unfold mondayOf at 1, weekdayIndex, WeekDay. subst e.
      rewrite (local_of_midnight LocalTZA regular), day_of_midnight.
      Z.div_mod_to_equations. lia. }
    rewrite (getWeekBounds_value LocalTZA regular)
      by (apply Hin9; unfold msPerDay in *; lia).
    cbn [fst]. rewrite Hnext. reflexivity.
  - assert (Hprev : monday (s - 1) = monday t - 7).
    { assert (Hlt : Day (localTime (s - 1)) < monday t)
        by (apply day_before_midnight; fold s; lia).
      assert (Hge : monday t - 3 <= Day (localTime (s - 1))).
      { pose proof (local_of_midnight LocalTZA regular (monday t)) as Hloc. fold s in Hloc.
        pose proof (zone_offsets _ regular s true) as O1.
        pose proof (zone_offsets _ regular (s - 1) true) as O2.
        unfold LocalTime in *.
        pose proof (day_decomposition (s - 1 + LocalTZA (s - 1) true)) as Hdec.
        pose proof (time_within_day_range (s - 1 + LocalTZA (s - 1) true)) as Htod.
        unfold msPerDay in *. lia. }
      pose proof (monday_is_monday LocalTZA t) as Hm. unfold WeekDay in Hm.
      rewrite day_of_midnight in Hm.
      unfold mondayOf at 1, weekdayIndex, WeekDay.
      Z.div_mod_to_equations. lia. }
    rewrite (getWeekBounds_value LocalTZA regular)
      by (apply Hin9; unfold msPerDay in *; lia).
    cbn [snd]. rewrite Hprev.
    replace (monday t - 7 + 7) with (monday t) by lia. reflexivity.
Qed.

Lemma MakeDay_next y m :
  0 <= m <= 11 ->
  MakeDay (y + (m + 1) / 12) ((m + 1) mod 12) 1 = MakeDay y (m + 1) 1.
Proof.
  intro Hm. unfold MakeDay.
  pose proof (Z.mod_pos_bound (m + 1) 12).
  rewrite (Z.div_small ((m + 1) mod 12) 12), Z.mod_mod, Z.add_0_r by lia.
  reflexivity.
Qed.

Lemma month_span_of t : 28 <= mEnd t - mStart t <= 31.
Proof.
  unfold monthEndOf, monthStartOf. apply month_span.
  destruct (month_table (localTime t)) as (Hm & _). exact Hm.
Qed.

Lemma month_shared x t :
  mStart t <= Day (localTime x) < mEnd t ->
  YearFromTime (localTime x) = YearFromTime (localTime t)
  /\ MonthFromTime (localTime x) = MonthFromTime (localTime t).
Proof.
  unfold monthStartOf, monthEndOf. intro H. apply month_unique; [| exact H].
  destruct (month_table (localTime t)) as (Hm & _). exact Hm.
Qed.

Lemma same_month x t :
  YearFromTime (localTime x) = YearFromTime (localTime t) ->
  MonthFromTime (localTime x) = MonthFromTime (localTime t) ->
  mStart x = mStart t /\ mEnd x = mEnd t.
Proof. unfold monthStartOf, monthEndOf. intros -> ->. split; reflexivity. Qed.

Lemma next_month_start t :
  ~ (-1 <= YearFromTime (localTime t) <= 99) ->
  mStart (utc (mEnd t * msPerDay)) = mEnd t
  /\ ~ (0 <= YearFromTime (localTime (utc (mEnd t * msPerDay))) <= 99).
Proof.
  intro Hy. destruct (month_table (localTime t)) as (Hm & _).
  destruct (month_end_fields LocalTZA t) as (F1 & F2 & _).
  unfold monthStartOf. rewrite (local_of_midnight LocalTZA regular (mEnd t)), F1, F2.
  split.
  - unfold monthEndOf. apply MakeDay_next, Hm.
  - assert (Hdiv : (MonthFromTime (localTime t) + 1) / 12 = 0
                   \/ (MonthFromTime (localTime t) + 1) / 12 = 1)
      by (Z.div_mod_to_equations; lia).
    lia.
Qed.

Lemma bounds_inj (a b c d : Z) : (Some a, Some b) = (Some c, Some d) -> a = c /\ b = d.
Proof. intros [= -> ->]. split; reflexivity. Qed.

Lemma month_window_shared t :
  wellInside 80 t ->
  ~ (-1 <= YearFromTime (localTime t) <= 99) ->
  getMonthBounds LocalTZA (Some t)
  = (Some (utc (mStart t * msPerDay)), Some (utc (mEnd t * msPerDay)))
  /\ utc (mStart t * msPerDay) <= t < utc (mEnd t * msPerDay)
  /\ (forall t',
         utc (mStart t * msPerDay) <= t' < utc (mEnd t * msPerDay) ->
         getMonthBounds LocalTZA (Some t') = getMonthBounds LocalTZA (Some t))
  /\ (forall t',
         wellInside 80 t' ->
         ~ (-1 <= YearFromTime (localTime t') <= 99) ->
         getMonthBounds LocalTZA (Some t') = getMonthBounds LocalTZA (Some t) ->
         utc (mStart t * msPerDay) <= t' < utc (mEnd t * msPerDay))
  /\ fst (getMonthBounds LocalTZA (Some (utc (mEnd t * msPerDay))))
     = Some (utc (mEnd t * msPerDay))
  /\ 28 * msPerDay
     <= localTime (utc (mEnd t * msPerDay)) - localTime (utc (mStart t * msPerDay))
     <= 31 * msPerDay.
Proof.
  intros Hin Hy.
  pose proof (month_contains LocalTZA t) as Hc.
  pose proof (month_span_of t) as Hspan.
  assert (Hs : Z.abs (utc (mStart t * msPerDay)) <= Z.abs t + 34 * msPerDay)
    by (apply (midnight_bound (mStart t) t 31); lia).
  assert (He : Z.abs (utc (mEnd t * msPerDay)) <= Z.abs t + 34 * msPerDay)
    by (apply (midnight_bound (mEnd t) t 31); lia).
  assert (Hin33 : forall x, Z.abs x <= Z.abs t + 34 * msPerDay -> wellInside 33 x).
  { intros x Hx. unfold wellInside in *. unfold msPerDay in *. lia. }
  assert (Hown : getMonthBounds LocalTZA (Some t)
                 = (Some (utc (mStart t * msPerDay)), Some (utc (mEnd t * msPerDay)))).
  { apply (getMonthBounds_value LocalTZA regular).
    - apply (wellInside_weaken 80 33); [lia | exact Hin].
    - lia. }
  split; [exact Hown |].
  split.
  { split; [apply (midnight_le LocalTZA regular) | apply (midnight_gt LocalTZA regular)];
      apply Hc. }
  split; [| split; [| split]].
  - intros t' [H1 H2].
    destruct (month_shared t' t) as [E1 E2].
    { split; [apply day_from_midnight; exact H1 | apply day_before_midnight; exact H2]. }
    destruct (same_month t' t E1 E2) as [E3 E4].
    rewrite Hown, (getMonthBounds_value LocalTZA regular t').
    + rewrite E3, E4. reflexivity.
    + apply Hin33. unfold msPerDay in *. lia.
    + rewrite E1. lia.
  - intros t' Hin' Hy' Hb. rewrite Hown in Hb.
    rewrite (getMonthBounds_value LocalTZA regular) in Hb;
      [| apply (wellInside_weaken 80 33); [lia | exact Hin'] | lia].
    apply bounds_inj in Hb. destruct Hb as [Hb1 Hb2].
    apply midnight_inj in Hb1, Hb2.
    pose proof (month_contains LocalTZA t') as Hc'. split.
    + apply (midnight_le LocalTZA regular). lia.
    + apply (midnight_gt LocalTZA regular). lia.
  - destruct (next_month_start t Hy) as [Hnext Hye].
    rewrite (getMonthBounds_value LocalTZA regular _ (Hin33 _ He) Hye).
    cbn [fst]. rewrite Hnext. reflexivity.
  - rewrite !(local_of_midnight LocalTZA regular). unfold msPerDay. lia.
Qed.

(** *** Years 0 to 99 *)

Lemma two_digit_day y m :
  0 <= y <= 99 -> 0 <= m <= 12 -> -26000 <= MakeDay (1900 + y) m 1 <= 12000.
Proof.
  intros Hy Hm.
  assert (Hd : forall k, 0 <= k <= 100 -> -25567 <= DayFromYear (1900 + k) <= 10957).
  { intros k Hk. unfold DayFromYear. Z.div_mod_to_equations. lia. }
  destruct (Z.eq_dec m 12) as [-> | Hne].
  - unfold MakeDay. change (12 / 12) with 1. change (12 mod 12) with 0.
    unfold daysBeforeMonth. cbv beta zeta iota.
    replace (1900 + y + 1) with (1900 + (y + 1)) by lia.
    pose proof (Hd (y + 1)). lia.
  - rewrite MakeDay_in_year by lia.
    pose proof (daysBeforeMonth_range (1900 + y) m).
    destruct (DaysInYear_range (1900 + y)); pose proof (Hd y); lia.
Qed.

Lemma newDateYM1_two_digit y m :
  0 <= y <= 99 -> 0 <= m <= 12 ->
  setHoursZero LocalTZA (newDateYM1 LocalTZA (Some y) (Some m))
  = Some (utc (MakeDay (1900 + y) m 1 * msPerDay)).
Proof.
  intros Hy Hm. cbn [newDateYM1].
  replace ((0 <=? y) && (y <=? 99)) with true.
  2:{ symmetry. apply andb_true_iff. split; apply Z.leb_le; lia. }
  assert (Hr : Z.abs (utc (MakeDay (1900 + y) m 1 * msPerDay)) <= maxTime).
  { pose proof (utc_bound LocalTZA regular (MakeDay (1900 + y) m 1 * msPerDay)) as Hu.
    pose proof (two_digit_day y m Hy Hm). unfold maxTime, msPerDay in *. lia. }
  unfold MakeDate, MakeTime.
  replace (MakeDay (1900 + y) m 1 * msPerDay
           + (0 * msPerHour + 0 * msPerMinute + 0 * msPerSecond + 0))
    with (MakeDay (1900 + y) m 1 * msPerDay) by lia.
  rewrite (TimeClip_inside _ Hr).
  rewrite (setHoursZero_midnight LocalTZA regular);
    rewrite day_of_midnight; [reflexivity | exact Hr].
Qed.

Lemma two_digit_year_window t :
  0 <= YearFromTime (localTime t) <= 99 ->
  getMonthBounds LocalTZA (Some t)
  = (Some (utc (MakeDay (1900 + YearFromTime (localTime t))
                        (MonthFromTime (localTime t)) 1 * msPerDay)),
     Some (utc (MakeDay (1900 + YearFromTime (localTime t))
                        (MonthFromTime (localTime t) + 1) 1 * msPerDay)))
  /\ t < utc (MakeDay (1900 + YearFromTime (localTime t))
                      (MonthFromTime (localTime t)) 1 * msPerDay).
Proof.
  intro Hy. destruct (month_table (localTime t)) as (Hm & _).
  split.
  - unfold getMonthBounds. cbn [getFullYear getMonth option_map lift2].
    rewrite (newDateYM1_two_digit _ _ Hy) by lia.
    rewrite (newDateYM1_two_digit _ _ Hy) by lia. reflexivity.
  - apply (midnight_gt LocalTZA regular).
    pose proof (YearFromTime_spec (localTime t)) as [_ Hup].
    pose proof (DayFromYear_le (YearFromTime (localTime t) + 1) 100) as Hle.
    assert (H100 : DayFromYear 100 = -683003) by reflexivity.
    pose proof (two_digit_day (YearFromTime (localTime t)) (MonthFromTime (localTime t))).
    lia.
Qed.

(** *** The instant that a stamp denotes *)

Lemma stamp_in_week now :
  wellInside 40 now ->
  (utc (monday now * msPerDay) <= Day now * msPerDay
   /\ Day now * msPerDay < utc ((monday now + 7) * msPerDay))
  <-> monday now <= Day (localTime (Day now * msPerDay)).
Proof.
  intro Hin. split.
  - intros [H _]. apply day_from_midnight, H.
  - intro H. split; [apply (midnight_le LocalTZA regular), H |].
    pose proof (week_window_shared now Hin) as (_ & [_ Hlt] & _).
    pose proof (day_decomposition now). pose proof (time_within_day_range now). lia.
Qed.

Lemma stamp_in_month now :
  (utc (mStart now * msPerDay) <= Day now * msPerDay
   /\ Day now * msPerDay < utc (mEnd now * msPerDay))
  <-> mStart now <= Day (localTime (Day now * msPerDay)).
Proof.
  split.
  - intros [H _]. apply day_from_midnight, H.
  - intro H. split; [apply (midnight_le LocalTZA regular), H |].
    assert (Hlt : now < utc (mEnd now * msPerDay))
      by (apply (midnight_gt LocalTZA regular), (month_contains LocalTZA now)).
    pose proof (day_decomposition now). pose proof (time_within_day_range now). lia.
Qed.

End Sharing.

End WindowMore.

Module WindowProperties.
Import Store Screen Handlers CalendarFacts WindowFacts WindowMore WindowSamples.

(** X17: the WEEK windows cut the time line into weeks.  In a regular
    zone, for a reference instant at least 40 days inside the range of
    time values, every instant of the window gets the very same window,
    only the instants of the window do, the window of its end starts at
    that end, and the window of the millisecond before its start ends at
    that start. *)
Theorem week_windows_tile_the_time_line :
  forall (LocalTZA : Z -> bool -> Z) (t : Z),
    regularZone LocalTZA ->
    wellInside 40 t ->
    exists s e,
      getWeekBounds LocalTZA (Some t) = (Some s, Some e)
      /\ s <= t < e
      /\ (forall t', s <= t' < e -> getWeekBounds LocalTZA (Some t') = (Some s, Some e))
      /\ (forall t', wellInside 40 t' ->
                     getWeekBounds LocalTZA (Some t') = (Some s, Some e) -> s <= t' < e)
      /\ fst (getWeekBounds LocalTZA (Some e)) = Some e
      /\ snd (getWeekBounds LocalTZA (Some (s - 1))) = Some s.
Proof.
  intros tza t Hz Hin.
  exists (UTC tza (mondayOf tza t * msPerDay)),
         (UTC tza ((mondayOf tza t + 7) * msPerDay)).
  exact (week_window_shared tza Hz t Hin).
Qed.

Lemma week_windows_tile_the_time_line_witness :
  getWeekBounds springForward (Some (clockChangeNoon + 2 * 86400000))
  = getWeekBounds springForward (Some clockChangeNoon)
  /\ fst (getWeekBounds springForward (Some 1710716400000)) = Some 1710716400000.
Proof.
  assert (Hin : wellInside 40 clockChangeNoon)
    by (unfold wellInside, clockChangeNoon, maxTime, msPerDay; lia).
  destruct (week_windows_tile_the_time_line springForward clockChangeNoon
              springForward_regular Hin) as (s & e & Hb & _ & Hshare & _ & Hnext & _).
  assert (Hv : getWeekBounds springForward (Some clockChangeNoon)
               = (Some 1710115200000, Some 1710716400000)) by (vm_compute; reflexivity).
  rewrite Hv in Hb. injection Hb as <- <-.
  split; [| exact Hnext].
  rewrite Hv. apply Hshare. unfold clockChangeNoon. lia.
Defined.

(** X18: the MONTH windows cut the time line into months.  In a regular
    zone, for a reference instant at least 80 days inside the range of
    time values whose local year is not one of -1 to 99, every instant of
    the window gets the very same window, only such instants do, the
    window of its end starts at that end, and the window spans 28 to 31
    local days. *)
Theorem month_windows_tile_the_time_line :
  forall (LocalTZA : Z -> bool -> Z) (t : Z),
    regularZone LocalTZA ->
    wellInside 80 t ->
    ~ (-1 <= YearFromTime (LocalTime LocalTZA t) <= 99) ->
    exists s e,
      getMonthBounds LocalTZA (Some t) = (Some s, Some e)
      /\ s <= t < e
      /\ (forall t', s <= t' < e ->
                     getMonthBounds LocalTZA (Some t') = getMonthBounds LocalTZA (Some t))
      /\ (forall t', wellInside 80 t' ->
                     ~ (-1 <= YearFromTime (LocalTime LocalTZA t') <= 99) ->
                     getMonthBounds LocalTZA (Some t') = getMonthBounds LocalTZA (Some t) ->
                     s <= t' < e)
      /\ fst (getMonthBounds LocalTZA (Some e)) = Some e
      /\ 28 * msPerDay <= LocalTime LocalTZA e - LocalTime LocalTZA s <= 31 * msPerDay.
Proof.
  intros tza t Hz Hin Hy.
  exists (UTC tza (monthStartOf tza t * msPerDay)),
         (UTC tza (monthEndOf tza t * msPerDay)).
  exact (month_window_shared tza Hz t Hin Hy).
Qed.

Lemma month_windows_tile_the_time_line_witness :
  getMonthBounds (fixedOffset 7200000) (Some (midJanuary + 10 * 86400000))
  = getMonthBounds (fixedOffset 7200000) (Some midJanuary)
  /\ fst (getMonthBounds (fixedOffset 7200000) (Some 1706738400000))
     = Some 1706738400000.
Proof.
  assert (Hz : regularZone (fixedOffset 7200000))
    by (apply fixedOffset_regular; unfold msPerDay; lia).
  assert (Hin : wellInside 80 midJanuary)
    by (unfold wellInside, midJanuary, maxTime, msPerDay; lia).
  assert (Hy : ~ (-1 <= YearFromTime (LocalTime (fixedOffset 7200000) midJanuary) <= 99))
    by (vm_compute; intros [_ H]; apply H; reflexivity).
  destruct (month_windows_tile_the_time_line (fixedOffset 7200000) midJanuary Hz Hin Hy)
    as (s & e & Hb & _ & Hshare & _ & Hnext & _).
  assert (Hv : getMonthBounds (fixedOffset 7200000) (Some midJanuary)
               = (Some 1704060000000, Some 1706738400000)) by (vm_compute; reflexivity).
  rewrite Hv in Hb. injection Hb as <- <-.
  split; [| exact Hnext].
  apply Hshare. unfold midJanuary. lia.
Defined.



Lemma filter_twice {A : Type} (p : A -> bool) (l : list A) :
  List.filter p (List.filter p l) = List.filter p l.
Proof.
  induction l as [| x l IH]; [reflexivity |]. cbn [List.filter].
  destruct (p x) eqn:E; [| exact IH]. cbn [List.filter]. rewrite E, IH. reflexivity.
Qed.

Lemma filter_swap {A : Type} (p q : A -> bool) (l : list A) :
  List.filter p (List.filter q l) = List.filter q (List.filter p l).
Proof.
  induction l as [| x l IH]; [reflexivity |]. cbn [List.filter].
  destruct (p x) eqn:Ep, (q x) eqn:Eq; cbn [List.filter]; rewrite ?Ep, ?Eq, IH; reflexivity.
Qed.

(** X20: the filter judges each record on its own.  At a given clock
    reading it keeps of a list what it keeps of its pieces, keeps all of
    what it has kept when applied again, and commutes with deleting the
    rows of an id; it never returns more records than it was given, and
    it returns none when the list of the screen is not an array. *)
Theorem the_filter_judges_each_record_on_its_own :
  forall (LocalTZA : Z -> bool -> Z) (DateParse : jsstring -> option Z)
         (f : filterKind) (now : Z) (a b : list expense) (i : Z),
    let keep := fun l => filteredExpenses LocalTZA DateParse (Some l) f now in
    keep (a ++ b)%list = (keep a ++ keep b)%list
    /\ keep (keep a) = keep a
    /\ keep (List.filter (fun r => negb (Expense.id r =? i)) a)
       = List.filter (fun r => negb (Expense.id r =? i)) (keep a)
    /\ (List.length (keep a) <= List.length a)%nat
    /\ filteredExpenses LocalTZA DateParse None f now = [].
Proof.
  intros tza parse f now a b i keep. subst keep. cbv beta.
  rewrite !(WindowClaims.filteredExpenses_window tza parse).
  destruct (windowOf tza f now) as [[s e] |].
  - split; [apply filter_app |]. split; [apply filter_twice |].
    split; [apply filter_swap |]. split; [apply filter_length_le | reflexivity].
  - repeat split. lia.
Qed.

Lemma stamped_row_window (tza : Z -> bool -> Z) (parse : jsstring -> option Z)
    (now s e : Z) (r : expense) :
  Z.abs now <= maxTime ->
  Expense.date r = VString (getTodayIsoDate now) ->
  parse (getTodayIsoDate now) = Some (Day now * msPerDay) ->
  inWindow parse (Some s) (Some e) r = true
  <-> s <= Day now * msPerDay /\ Day now * msPerDay < e.
Proof.
  intros Hr Hd Hp. unfold inWindow, newDate. rewrite Hd, Hp.
  rewrite TimeClip_inside.
  - cbn [dateGeb dateLtb]. rewrite andb_true_iff, Z.leb_le, Z.ltb_lt. reflexivity.
  - pose proof (day_decomposition now). pose proof (time_within_day_range now).
    unfold maxTime, msPerDay in *. lia.
Qed.

(** X21: whether a record shows in This Week or This Month right after
    it is added.  Its date is the stamp, which a parser of the date-only
    ISO format reads as the UTC midnight of the UTC day of the clock;
    the windows are made of local days.  In a regular zone the new
    record is shown under WEEK exactly when the local day of that UTC
    midnight is not before the Monday of the local week of the clock, and
    under MONTH (local year not 0 to 99) exactly when it is not before
    the first of the local month.  On a host at UTC it is always shown. *)
Theorem a_new_record_shows_when_its_utc_midnight_is_in_the_local_window :
  forall (compareStored : value -> value -> comparison)
         (LocalTZA : Z -> bool -> Z) (DateParse : jsstring -> option Z)
         (now : Z) (w : world),
    regularZone LocalTZA ->
    wellInside 40 now ->
    DateParse (getTodayIsoDate now) = Some (Day now * msPerDay) ->
    addRejected (ui w) = false ->
    let added := addExpense compareStored now w in
    let new := updatedRow (sequence (db added))
                 (parseFloat (amount (ui w))) (trim (category (ui w)))
                 (trimOrNull (note (ui w))) (getTodayIsoDate now) in
    let stampDay := Day (LocalTime LocalTZA (Day now * msPerDay)) in
    In new (shown added)
    /\ (In new (filteredExpenses LocalTZA DateParse (expenses (ui added)) FILTER_WEEK now)
        <-> mondayOf LocalTZA now <= stampDay)
    /\ (~ (0 <= YearFromTime (LocalTime LocalTZA now) <= 99) ->
        (In new (filteredExpenses LocalTZA DateParse (expenses (ui added)) FILTER_MONTH now)
         <-> monthStartOf LocalTZA now <= stampDay))
    /\ ((forall x b, LocalTZA x b = 0) ->
        mondayOf LocalTZA now <= stampDay /\ monthStartOf LocalTZA now <= stampDay).
Proof.
  intros cmp tza parse now w Hz Hin Hp Hok added new stampDay.
  assert (Hshown : In new (shown added)).
  { subst added new. unfold addExpense. rewrite Hok.
    cbn [loadExpenses clearForm execute db sent ui runAsync rows sequence expenses].
    unfold shown. cbn [ui expenses].
    apply StoreFacts.getAllAsync_In. cbn [rows]. apply in_or_app. right. left. reflexivity. }
  assert (Hcache : expenses (ui added) = Some (shown added)).
  { subst added. unfold addExpense. rewrite Hok. reflexivity. }
  assert (Hrange : Z.abs now <= maxTime)
    by (unfold wellInside in Hin; unfold msPerDay in Hin; lia).
  assert (Hdate : Expense.date new = VString (getTodayIsoDate now)) by reflexivity.
  split; [exact Hshown |]. split; [| split].
  - rewrite Hcache. cbn [filteredExpenses].
    rewrite (getWeekBounds_value tza Hz now)
      by (apply (wellInside_weaken 40 9); [lia | exact Hin]).
    rewrite filter_In, (stamped_row_window tza parse now _ _ new Hrange Hdate Hp).
    rewrite (stamp_in_week tza Hz now Hin). tauto.
  - intro Hy. rewrite Hcache. cbn [filteredExpenses].
    rewrite (getMonthBounds_value tza Hz now)
      by (try (apply (wellInside_weaken 40 33); [lia | exact Hin]); exact Hy).
    rewrite filter_In, (stamped_row_window tza parse now _ _ new Hrange Hdate Hp).
    rewrite (stamp_in_month tza Hz now). tauto.
  - intro Hutc. subst stampDay. unfold LocalTime. rewrite Hutc, Z.add_0_r, day_of_midnight.
    pose proof (weekdayIndex_range tza now) as Hw.
    pose proof (month_contains tza now) as Hc.
    unfold mondayOf in *. unfold LocalTime in *. rewrite Hutc, Z.add_0_r in *. lia.
Qed.

Lemma a_new_record_shows_witness :
  In (updatedRow 2 (ofZ 3) (js "Tea") VNull (js "2024-01-07"))
     (filteredExpenses (fixedOffset 0) sampleParse
        (expenses (ui (addExpense textOrder FormSamples.sundayNight
                         (FormSamples.typing "3" "Tea"))))
        FILTER_WEEK FormSamples.sundayNight)
  /\ ~ In (updatedRow 2 (ofZ 3) (js "Tea") VNull (js "2024-01-07"))
          (filteredExpenses (fixedOffset 7200000) sampleParse
             (expenses (ui (addExpense textOrder FormSamples.sundayNight
                              (FormSamples.typing "3" "Tea"))))
             FILTER_WEEK FormSamples.sundayNight).
Proof.
  assert (Hin : wellInside 40 FormSamples.sundayNight)
    by (unfold wellInside, FormSamples.sundayNight, maxTime, msPerDay; lia).
  split.
  - assert (Hz : regularZone (fixedOffset 0))
      by (apply fixedOffset_regular; unfold msPerDay; lia).
    destruct (a_new_record_shows_when_its_utc_midnight_is_in_the_local_window
                textOrder (fixedOffset 0) sampleParse FormSamples.sundayNight
                (FormSamples.typing "3" "Tea") Hz Hin eq_refl eq_refl)
      as (_ & Hweek & _ & Hutc).
    apply Hweek. apply Hutc. reflexivity.
  - assert (Hz : regularZone (fixedOffset 7200000))
      by (apply fixedOffset_regular; unfold msPerDay; lia).
    destruct (a_new_record_shows_when_its_utc_midnight_is_in_the_local_window
                textOrder (fixedOffset 7200000) sampleParse FormSamples.sundayNight
                (FormSamples.typing "3" "Tea") Hz Hin eq_refl eq_refl)
      as (_ & Hweek & _).
    intro H. pose proof (proj1 Hweek H) as Hle. vm_compute in Hle. apply Hle. reflexivity.
Defined.

End WindowProperties.

(** ** The stamp as a date text *)

Module StampMore.
Import CalendarFacts TextFacts GuardFacts StampFacts.

Lemma decimalValue_snoc ds c : decimalValue (ds ++ [c]) = 10 * decimalValue ds + digitValue c.
Proof. unfold decimalValue. rewrite fold_left_app. reflexivity. Qed.

Lemma digitValue_char k : 0 <= k <= 9 -> digitValue (Z.to_N (48 + k)) = k.
Proof. intro H. unfold digitValue. rewrite Z2N.id by lia. lia. Qed.

Lemma decimalValue_pad width n :
  0 <= n -> decimalValue (pad width n) = n mod 10 ^ Z.of_nat width.
Proof.
  revert n. induction width as [| w IH]; intros n Hn.
  - cbn [pad Z.of_nat]. rewrite Z.pow_0_r, Z.mod_1_r. reflexivity.
  - cbn [pad]. rewrite decimalValue_snoc, IH by (apply Z.div_pos; lia).
    rewrite digitValue_char by (pose proof (Z.mod_pos_bound n 10); lia).
    rewrite Nat2Z.inj_succ, Z.pow_succ_r by lia.
    assert (Hp : 0 < 10 ^ Z.of_nat w) by (apply Z.pow_pos_nonneg; lia).
    rewrite (Z.rem_mul_r n 10 (10 ^ Z.of_nat w)) by lia. lia.
Qed.

Lemma decimalValue_pad_small width n :
  0 <= n < 10 ^ Z.of_nat width -> decimalValue (pad width n) = n.
Proof. intro H. rewrite decimalValue_pad by lia. apply Z.mod_small, H. Qed.

Lemma hyphen : js "-" = [45%N].
Proof. reflexivity. Qed.

Lemma pad4_chars n : exists a b c d : char16, pad 4 n = [a; b; c; d].
Proof. do 4 eexists. reflexivity. Qed.

Lemma pad2_chars n : exists a b : char16, pad 2 n = [a; b].
Proof. do 2 eexists. reflexivity. Qed.

Lemma dateText_of_chars (y1 y2 y3 y4 m1 m2 d1 d2 : char16) :
  forallb isDigit [y1; y2; y3; y4] = true ->
  forallb isDigit [m1; m2] = true ->
  forallb isDigit [d1; d2] = true ->
  1 <= decimalValue [m1; m2] <= 12 ->
  1 <= decimalValue [d1; d2]
    <= MakeDay (decimalValue [y1; y2; y3; y4]) (decimalValue [m1; m2]) 1
       - MakeDay (decimalValue [y1; y2; y3; y4]) (decimalValue [m1; m2] - 1) 1 ->
  validDateText [y1; y2; y3; y4; 45%N; m1; m2; 45%N; d1; d2] = true
  /\ dayOfDateText [y1; y2; y3; y4; 45%N; m1; m2; 45%N; d1; d2]
     = Some (MakeDay (decimalValue [y1; y2; y3; y4]) (decimalValue [m1; m2] - 1)
                     (decimalValue [d1; d2])).
Proof.
  intros Dy Dm Dd Hm Hd.
  assert (Hvalid : validDateText [y1; y2; y3; y4; 45%N; m1; m2; 45%N; d1; d2] = true).
  { assert (F : forallb isDigit [y1; y2; y3; y4; m1; m2; d1; d2] = true).
    { change (forallb isDigit ([y1; y2; y3; y4] ++ [m1; m2] ++ [d1; d2]) = true).
      rewrite !forallb_app, Dy, Dm, Dd. reflexivity. }
    unfold validDateText. cbv beta iota zeta. rewrite F, !N.eqb_refl.
    rewrite (proj2 (Z.leb_le _ _) (proj1 Hm)), (proj2 (Z.leb_le _ _) (proj2 Hm)).
    rewrite (proj2 (Z.leb_le _ _) (proj1 Hd)), (proj2 (Z.leb_le _ _) (proj2 Hd)).
    reflexivity. }
  split; [exact Hvalid |]. unfold dayOfDateText. rewrite Hvalid. reflexivity.
Qed.

Lemma dateText_of_fields y m d :
  0 <= y <= 9999 -> 1 <= m <= 12 ->
  1 <= d <= MakeDay y m 1 - MakeDay y (m - 1) 1 ->
  validDateText (pad 4 y ++ js "-" ++ pad 2 m ++ js "-" ++ pad 2 d) = true
  /\ dayOfDateText (pad 4 y ++ js "-" ++ pad 2 m ++ js "-" ++ pad 2 d)
     = Some (MakeDay y (m - 1) d).
Proof.
  intros Hy Hm Hd.
  assert (Hd99 : d <= 31).
  { pose proof (WindowFacts.month_span y (m - 1)) as Hs.
    replace (m - 1 + 1) with m in Hs by lia. lia. }
  assert (Ey : decimalValue (pad 4 y) = y) by (apply decimalValue_pad_small; cbn; lia).
  assert (Em : decimalValue (pad 2 m) = m) by (apply decimalValue_pad_small; cbn; lia).
  assert (Ed : decimalValue (pad 2 d) = d) by (apply decimalValue_pad_small; cbn; lia).
  pose proof (pad_digits 4 y) as Dy.
  pose proof (pad_digits 2 m) as Dm.
  pose proof (pad_digits 2 d) as Dd.
  destruct (pad4_chars y) as (y1 & y2 & y3 & y4 & Py).
  destruct (pad2_chars m) as (m1 & m2 & Pm).
  destruct (pad2_chars d) as (d1 & d2 & Pd).
  rewrite Py in *. rewrite Pm in *. rewrite Pd in *. rewrite hyphen.
  cbn [app].
  destruct (dateText_of_chars y1 y2 y3 y4 m1 m2 d1 d2 Dy Dm Dd) as [V D].
  - rewrite Em. exact Hm.
  - rewrite Ey, Em, Ed. exact Hd.
  - split; [exact V |]. refine (eq_trans D _). rewrite Ey, Em, Ed. reflexivity.
Qed.

Lemma stamp_is_isoDay now :
  0 <= YearFromTime now <= 9999 -> getTodayIsoDate now = isoDay now.
Proof.
  intro Hy. unfold getTodayIsoDate, slice0.
  destruct (FormClaims.toISOString_day now Hy) as [rest ->].
  rewrite <- (FormClaims.length_isoDay now). apply FormClaims.firstn_prefix.
Qed.

Lemma MakeDay_date y m d : MakeDay y m d = MakeDay y m 1 + d - 1.
Proof. unfold MakeDay. lia. Qed.

(** X22: for a clock in the years 0 to 9999 the stamp is the UTC calendar
    day written [YYYY-MM-DD]: ten characters that make a valid date text
    of the data model, which names the very day of the clock (reading the
    stamp back gives the day number it was made from), and which [trim]
    leaves as it is, so that a Save of an untouched date keeps it. *)
Theorem the_stamp_is_a_valid_date_text_of_the_utc_day :
  forall now : Z,
    0 <= YearFromTime now <= 9999 ->
    getTodayIsoDate now = isoDay now
    /\ validDateText (getTodayIsoDate now) = true
    /\ dayOfDateText (getTodayIsoDate now) = Some (Day now)
    /\ trim (getTodayIsoDate now) = getTodayIsoDate now
    /\ List.length (getTodayIsoDate now) = 10%nat.
Proof.
  intros now Hy.
  split; [apply stamp_is_isoDay, Hy |].
  split; [| split; [| split; [apply tidy_fixed, stamp_tidy | apply stamp_length]]].
  - rewrite (stamp_is_isoDay now Hy). unfold isoDay.
    destruct (month_table now) as (Hm & _ & Hd1).
    pose proof (month_bounds now) as Hb.
    pose proof (MakeDay_roundtrip now 0) as Hr. rewrite !Z.add_0_r in Hr.
    rewrite MakeDay_date in Hr.
    set (y := YearFromTime now) in *. set (m := MonthFromTime now) in *.
    set (d := DateFromTime now) in *. clearbody y m d.
    apply dateText_of_fields; [exact Hy | lia |].
    replace (m + 1 - 1) with m by lia. lia.
  - rewrite (stamp_is_isoDay now Hy). unfold isoDay.
    destruct (month_table now) as (Hm & _ & Hd1).
    pose proof (month_bounds now) as Hb.
    pose proof (MakeDay_roundtrip now 0) as Hr. rewrite !Z.add_0_r in Hr.
    pose proof Hr as Hr'. rewrite MakeDay_date in Hr'.
    rewrite <- Hr.
    set (y := YearFromTime now) in *. set (m := MonthFromTime now) in *.
    set (d := DateFromTime now) in *. clearbody y m d.
    replace m with (m + 1 - 1) at 2 by lia.
    apply dateText_of_fields; [exact Hy | lia |].
    replace (m + 1 - 1) with m by lia. lia.
Qed.

Lemma the_stamp_is_a_valid_date_text_witness :
  getTodayIsoDate FormSamples.sundayNight = js "2024-01-07"
  /\ dayOfDateText (js "2024-01-07") = Some 19729
  /\ Day FormSamples.sundayNight = 19729.
Proof.
  assert (Hy : 0 <= YearFromTime FormSamples.sundayNight <= 9999)
    by (vm_compute; split; discriminate).
  destruct (the_stamp_is_a_valid_date_text_of_the_utc_day FormSamples.sundayNight Hy)
    as (_ & _ & Hday & _).
  assert (Hs : getTodayIsoDate FormSamples.sundayNight = js "2024-01-07")
    by (vm_compute; reflexivity).
  rewrite Hs in Hday. split; [exact Hs |]. split; [| vm_compute; reflexivity].
  rewrite Hday. vm_compute. reflexivity.
Defined.

(** *** Stamps in text order *)

Lemma compareUnits_app x x' y y' :
  List.length x = List.length x' ->
  compareUnits (x ++ y) (x' ++ y')
  = match compareUnits x x' with
    | Eq => compareUnits y y'
    | r => r
    end.
Proof.
  revert x'. induction x as [| a x IH]; intros [| a' x'] Hlen; try discriminate.
  - reflexivity.
  - cbn [app compareUnits]. destruct (a ?= a')%N; [| reflexivity | reflexivity].
    apply IH. cbn in Hlen. lia.
Qed.

Lemma compareUnits_refl x : compareUnits x x = Eq.
Proof. apply OrderFacts.compareUnits_eq. reflexivity. Qed.

Lemma digit_compare j k :
  0 <= j <= 9 -> 0 <= k <= 9 ->
  (Z.to_N (48 + j) ?= Z.to_N (48 + k))%N = (j ?= k).
Proof.
  intros Hj Hk. rewrite Z2N.inj_compare by lia. apply Z.add_compare_mono_l.
Qed.

Lemma compare_by_last_digit a b :
  (a ?= b)
  = match a / 10 ?= b / 10 with
    | Eq => a mod 10 ?= b mod 10
    | r => r
    end.
Proof.
  destruct (Z.compare_spec (a / 10) (b / 10)) as [E | E | E];
    destruct (Z.compare_spec a b) as [F | F | F];
    try reflexivity; try (exfalso; Z.div_mod_to_equations; lia).
  - symmetry. apply Z.compare_eq_iff. congruence.
  - symmetry. apply Z.compare_lt_iff. Z.div_mod_to_equations. lia.
  - symmetry. apply Z.compare_gt_iff. Z.div_mod_to_equations. lia.
Qed.

Lemma compareUnits_pad width a b :
  0 <= a < 10 ^ Z.of_nat width -> 0 <= b < 10 ^ Z.of_nat width ->
  compareUnits (pad width a) (pad width b) = (a ?= b).
Proof.
  revert a b. induction width as [| w IH]; intros a b Ha Hb.
  - cbn in Ha, Hb. replace a with 0 by lia. replace b with 0 by lia. reflexivity.
  - rewrite Nat2Z.inj_succ, Z.pow_succ_r in Ha, Hb by lia.
    cbn [pad]. rewrite compareUnits_app by (rewrite !FormClaims.length_pad; reflexivity).
    rewrite IH by (split; [apply Z.div_pos; lia | apply Z.div_lt_upper_bound; lia]).
    rewrite (compare_by_last_digit a b).
    destruct (a / 10 ?= b / 10); try reflexivity.
    cbn [compareUnits].
    rewrite digit_compare
      by (pose proof (Z.mod_pos_bound a 10); pose proof (Z.mod_pos_bound b 10); lia).
    destruct (a mod 10 ?= b mod 10); reflexivity.
Qed.

Lemma first_of_month_mono y a b :
  0 <= a -> a <= b -> b <= 12 -> MakeDay y a 1 <= MakeDay y b 1.
Proof.
  intros Ha Hab Hb. replace b with (a + Z.of_nat (Z.to_nat (b - a))) by lia.
  assert (Hn : a + Z.of_nat (Z.to_nat (b - a)) <= 12) by lia.
  induction (Z.to_nat (b - a)) as [| n IH].
  - rewrite Z.add_0_r. lia.
  - rewrite Nat2Z.inj_succ in *.
    pose proof (WindowFacts.month_span y (a + Z.of_nat n)) as Hs.
    replace (a + Z.succ (Z.of_nat n)) with (a + Z.of_nat n + 1) by lia.
    assert (MakeDay y a 1 <= MakeDay y (a + Z.of_nat n) 1) by (apply IH; lia).
    lia.
Qed.

(** Days compare as their years, months and dates do, in that order. *)
Lemma days_compare t u :
  (Day t ?= Day u)
  = match YearFromTime t ?= YearFromTime u with
    | Eq =>
        match MonthFromTime t ?= MonthFromTime u with
        | Eq => DateFromTime t ?= DateFromTime u
        | r => r
        end
    | r => r
    end.
Proof.
  pose proof (YearFromTime_spec t) as [Yt1 Yt2].
  pose proof (YearFromTime_spec u) as [Yu1 Yu2].
  pose proof (month_bounds t) as [Mt1 Mt2].
  pose proof (month_bounds u) as [Mu1 Mu2].
  destruct (month_table t) as (Rt & _). destruct (month_table u) as (Ru & _).
  pose proof (MakeDay_roundtrip t 0) as Dt. rewrite !Z.add_0_r, MakeDay_date in Dt.
  pose proof (MakeDay_roundtrip u 0) as Du. rewrite !Z.add_0_r, MakeDay_date in Du.
  destruct (Z.compare_spec (YearFromTime t) (YearFromTime u)) as [Ey | Ly | Gy].
  - rewrite Ey in *.
    destruct (Z.compare_spec (MonthFromTime t) (MonthFromTime u)) as [Em | Lm | Gm].
    + rewrite Em in *.
      destruct (Z.compare_spec (DateFromTime t) (DateFromTime u));
        [apply Z.compare_eq_iff | apply Z.compare_lt_iff | apply Z.compare_gt_iff]; lia.
    + apply Z.compare_lt_iff.
      pose proof (first_of_month_mono (YearFromTime u) (MonthFromTime t + 1)
                    (MonthFromTime u)). lia.
    + apply Z.compare_gt_iff.
      pose proof (first_of_month_mono (YearFromTime u) (MonthFromTime u + 1)
                    (MonthFromTime t)). lia.
  - apply Z.compare_lt_iff.
    pose proof (DayFromYear_le (YearFromTime t + 1) (YearFromTime u)). lia.
  - apply Z.compare_gt_iff.
    pose proof (DayFromYear_le (YearFromTime u + 1) (YearFromTime t)). lia.
Qed.

Lemma date_range t : 1 <= DateFromTime t <= 31.
Proof.
  destruct (month_table t) as (Hm & _ & Hd1).
  pose proof (month_bounds t) as Hb.
  pose proof (MakeDay_roundtrip t 0) as Hr. rewrite !Z.add_0_r, MakeDay_date in Hr.
  pose proof (WindowFacts.month_span (YearFromTime t) (MonthFromTime t) Hm). lia.
Qed.

Lemma isoDay_compare t u :
  0 <= YearFromTime t <= 9999 -> 0 <= YearFromTime u <= 9999 ->
  compareUnits (isoDay t) (isoDay u) = (Day t ?= Day u).
Proof.
  intros Ht Hu. rewrite days_compare. unfold isoDay.
  destruct (month_table t) as (Mt & _). destruct (month_table u) as (Mu & _).
  pose proof (date_range t) as Dt. pose proof (date_range u) as Du.
  set (y := YearFromTime t) in *. set (m := MonthFromTime t) in *.
  set (d := DateFromTime t) in *. set (y' := YearFromTime u) in *.
  set (m' := MonthFromTime u) in *. set (d' := DateFromTime u) in *.
  clearbody y m d y' m' d'.
  rewrite compareUnits_app by (rewrite !FormClaims.length_pad; reflexivity).
  rewrite compareUnits_pad by (cbn; lia).
  destruct (y ?= y'); try reflexivity.
  rewrite compareUnits_app by reflexivity. rewrite compareUnits_refl.
  rewrite compareUnits_app by (rewrite !FormClaims.length_pad; reflexivity).
  rewrite compareUnits_pad by (cbn; lia).
  rewrite (Z.add_comm m 1), (Z.add_comm m' 1), Z.add_compare_mono_l.
  destruct (m ?= m'); try reflexivity.
  rewrite compareUnits_app by reflexivity. rewrite compareUnits_refl.
  apply compareUnits_pad; cbn; lia.
Qed.

(** X23: stamps sort as days do.  For clocks in the years 0 to 9999,
    comparing two stamps as texts, character by character, gives the
    order of the UTC days they were made on.  So under an ordering of
    the stored dates as texts, [ORDER BY date DESC, id DESC] puts a
    stamped row before another exactly when its day is later, or the days
    are the same and its id is not smaller. *)
Theorem stamps_sort_as_days :
  forall t u : Z,
    0 <= YearFromTime t <= 9999 ->
    0 <= YearFromTime u <= 9999 ->
    compareUnits (getTodayIsoDate t) (getTodayIsoDate u) = (Day t ?= Day u)
    /\ (forall a b : expense,
           Expense.date a = VString (getTodayIsoDate t) ->
           Expense.date b = VString (getTodayIsoDate u) ->
           (Store.precedes textOrder a b = true
            <-> Day u < Day t \/ (Day t = Day u /\ Expense.id b <= Expense.id a))).
Proof.
  intros t u Ht Hu.
  assert (Hc : compareUnits (getTodayIsoDate t) (getTodayIsoDate u) = (Day t ?= Day u)).
  { rewrite (stamp_is_isoDay t Ht), (stamp_is_isoDay u Hu). apply isoDay_compare; assumption. }
  split; [exact Hc |].
  intros a b Ha Hb. unfold Store.precedes. rewrite Ha, Hb. cbn [textOrder]. rewrite Hc.
  destruct (Z.compare_spec (Day t) (Day u)) as [E | L | G].
  - rewrite Z.leb_le. split; [intro H; right; split; assumption |].
    intros [H | [_ H]]; [lia | exact H].
  - split; [discriminate |]. intros [H | [H _]]; lia.
  - split; [intros _; left; exact G | reflexivity].
Qed.

Lemma stamps_sort_as_days_witness :
  compareUnits (js "2024-01-07") (js "2024-01-15") = Lt
  /\ Day FormSamples.sundayNight < Day WindowSamples.midJanuary.
Proof.
  assert (Ht : 0 <= YearFromTime FormSamples.sundayNight <= 9999)
    by (vm_compute; split; discriminate).
  assert (Hu : 0 <= YearFromTime WindowSamples.midJanuary <= 9999)
    by (vm_compute; split; discriminate).
  destruct (stamps_sort_as_days FormSamples.sundayNight WindowSamples.midJanuary Ht Hu)
    as [Hc _].
  assert (Hs : getTodayIsoDate FormSamples.sundayNight = js "2024-01-07")
    by (vm_compute; reflexivity).
  assert (Hs' : getTodayIsoDate WindowSamples.midJanuary = js "2024-01-15")
    by (vm_compute; reflexivity).
  rewrite Hs, Hs' in Hc.
  split; [rewrite Hc |]; vm_compute; reflexivity.
Defined.

End StampMore.

(** ** What the screen prints for whole amounts *)

Module DisplayFacts.
Import NumberFacts Display.

Lemma digitsFuel_more f g n :
  (1 <= f)%nat -> (f <= g)%nat -> 0 <= n < 2 ^ Z.of_nat f ->
  digitsFuel g n = digitsFuel f n.
Proof.
  revert g n. induction f as [| f IH]; intros g n Hf Hfg Hn; [lia |].
  destruct g as [| g]; [lia |]. cbn [digitsFuel].
  destruct (Z.ltb_spec n 10) as [Hlt | Hge]; [reflexivity |].
  rewrite Nat2Z.inj_succ, Z.pow_succ_r in Hn by lia.
  assert (Hf1 : (1 <= f)%nat).
  { destruct f; [| lia]. cbn in Hn. lia. }
  rewrite (IH g (n / 10)); [reflexivity | exact Hf1 | lia |].
  split; [apply Z.div_pos; lia |].
  apply Z.div_lt_upper_bound; [lia |].
  assert (0 < 2 ^ Z.of_nat f) by (apply Z.pow_pos_nonneg; lia). lia.
Qed.

Lemma log2_fuel n : 0 <= n -> 0 <= n < 2 ^ Z.of_nat (S (Z.to_nat (Z.log2 n))).
Proof.
  intro H. split; [exact H |].
  rewrite Nat2Z.inj_succ, Z2Nat.id by apply Z.log2_nonneg.
  destruct (Z.eq_dec n 0) as [-> | Hne]; [reflexivity |].
  apply Z.log2_spec. lia.
Qed.

Lemma decimalDigits_fuel f n :
  0 <= n < 2 ^ Z.of_nat f -> (S (Z.to_nat (Z.log2 n)) <= f)%nat ->
  digitsFuel f n = decimalDigits n.
Proof.
  intros Hn Hf. unfold decimalDigits.
  apply digitsFuel_more; [lia | exact Hf | apply log2_fuel; lia].
Qed.

Lemma decimalDigits_times_ten k :
  0 < k -> decimalDigits (10 * k) = (decimalDigits k ++ [48%N])%list.
Proof.
  intro Hk. unfold decimalDigits at 1. cbn [digitsFuel].
  destruct (Z.ltb_spec (10 * k) 10) as [Hlt | _]; [lia |].
  replace (10 * k / 10) with k by (apply Z.div_unique_exact; lia).
  replace ((10 * k) mod 10) with 0
    by (symmetry; rewrite Z.mul_comm; apply Z.mod_mul; lia).
  f_equal. apply decimalDigits_fuel.
  - split; [lia |]. rewrite Z2Nat.id by apply Z.log2_nonneg.
    pose proof (Z.log2_spec (10 * k) ltac:(lia)) as [_ Hhi].
    rewrite Z.pow_succ_r in Hhi by apply Z.log2_nonneg. lia.
  - assert (Hmono : Z.log2 k + 3 <= Z.log2 (10 * k)).
    { replace (Z.log2 k + 3) with (Z.log2 (k * 2 ^ 3)).
      - apply Z.log2_le_mono. change (2 ^ 3) with 8. lia.
      - rewrite Z.log2_mul_pow2 by lia. lia. }
    pose proof (Z.log2_nonneg k). lia.
Qed.

Lemma decimalDigits_nonempty n : decimalDigits n <> [].
Proof.
  unfold decimalDigits. cbn [digitsFuel]. destruct (n <? 10); [discriminate |].
  destruct (digitsFuel _ _); discriminate.
Qed.

Lemma decimalDigits_times_hundred k :
  0 < k -> decimalDigits (100 * k) = (decimalDigits k ++ [48%N; 48%N])%list.
Proof.
  intro Hk. replace (100 * k) with (10 * (10 * k)) by lia.
  rewrite !decimalDigits_times_ten by lia. rewrite <- app_assoc. reflexivity.
Qed.

Lemma two_decimals ds :
  ds <> [] ->
  let all := (repeat 48%N (3 - List.length (ds ++ [48%N; 48%N])) ++ ds ++ [48%N; 48%N])%list in
  (firstn (List.length all - 2) all ++ js "." ++ skipn (List.length all - 2) all)%list
  = (ds ++ js ".00")%list.
Proof.
  intros Hne all. subst all.
  assert (Hlen : (1 <= List.length ds)%nat) by (destruct ds; [contradiction | cbn; lia]).
  assert (Hfill : repeat 48%N (3 - List.length (ds ++ [48%N; 48%N])) = []).
  { rewrite length_app. cbn [List.length].
    replace (3 - (List.length ds + 2))%nat with 0%nat by lia. reflexivity. }
  rewrite Hfill. cbn [app].
  assert (Hcut : (List.length (ds ++ [48%N; 48%N]) - 2)%nat = List.length ds).
  { rewrite length_app. cbn [List.length]. lia. }
  rewrite Hcut.
  rewrite firstn_app, Nat.sub_diag, firstn_all, firstn_O, app_nil_r.
  rewrite skipn_app, Nat.sub_diag, skipn_all. reflexivity.
Qed.

Lemma toFixed2_whole nts k :
  0 <= k < 2 ^ 53 -> toFixed2 nts (ofZ k) = (decimalDigits k ++ js ".00")%list.
Proof.
  intros [H0 H1]. destruct (Z.eq_dec k 0) as [-> | Hne]; [reflexivity |].
  rewrite ofZ_small by lia. unfold canonical.
  assert (Hc : Zpos (Z.to_pos k) = k) by (rewrite Z2Pos.id; lia).
  set (c := Z.to_pos k) in *.
  assert (Hd : Zpos (digits2_pos c) <= 53)
    by (apply digits_le; [lia | rewrite Hc; exact H1]).
  pose proof (shiftl_value c (Z.to_nat (53 - Zpos (digits2_pos c)))) as Hm.
  rewrite Z2Nat.id, Hc in Hm by lia.
  set (m := shiftl c (Z.to_nat (53 - Zpos (digits2_pos c)))) in *.
  set (d := Zpos (digits2_pos c)) in *.
  assert (Hd0 : 0 < d) by (subst d; lia).
  clearbody m d. clear c Hc.
  assert (H53 : 2 ^ 53 = 9007199254740992) by reflexivity.
  assert (H21 : 10 ^ 21 = 1000000000000000000000) by reflexivity.
  assert (Hlarge : (0 <=? d - 53) && (10 ^ 21 <=? Zpos m * 2 ^ (d - 53)) = false).
  { destruct (Z.leb_spec 0 (d - 53)) as [Hz | Hz]; [| reflexivity]. cbn [andb].
    apply Z.leb_gt. assert (d = 53) by lia. subst d.
    change (53 - 53) with 0 in *. rewrite Z.pow_0_r in *. lia. }
  assert (Hn : match d - 53 with
               | Zneg q => (200 * Zpos m + 2 ^ Zpos q) / 2 ^ (Zpos q + 1)
               | _ => 100 * (Zpos m * 2 ^ (d - 53))
               end = 100 * k).
  { destruct (d - 53) as [| p | p] eqn:E.
    - rewrite Hm. replace (53 - d) with 0 by lia. rewrite Z.pow_0_r. lia.
    - lia.
    - rewrite Hm. replace (53 - d) with (Zpos p) by lia.
      assert (Hp : 0 < 2 ^ Zpos p) by (apply Z.pow_pos_nonneg; lia).
      assert (Hp2 : 2 ^ (Zpos p + 1) = 2 * 2 ^ Zpos p).
      { rewrite Z.pow_add_r by lia. change (2 ^ 1) with 2. lia. }
      rewrite Hp2. symmetry. apply (Z.div_unique _ _ _ (2 ^ Zpos p)).
      + left. lia.
      + ring. }
  unfold toFixed2. rewrite Hlarge. cbv zeta. rewrite Hn.
  rewrite decimalDigits_times_hundred by lia.
  cbn [app]. apply two_decimals, decimalDigits_nonempty.
Qed.

Lemma digitsFuel_digits f n : 0 <= n -> forallb isDigit (digitsFuel f n) = true.
Proof.
  revert n. induction f as [| f IH]; intros n Hn; [reflexivity |]. cbn [digitsFuel].
  destruct (Z.ltb_spec n 10) as [Hlt | Hge].
  - cbn [forallb]. rewrite StampFacts.digit_char by lia. reflexivity.
  - rewrite forallb_app, IH by (apply Z.div_pos; lia). cbn [forallb].
    rewrite StampFacts.digit_char by (pose proof (Z.mod_pos_bound n 10); lia).
    reflexivity.
Qed.

Lemma decimalValue_digitsFuel f n :
  0 <= n < 2 ^ Z.of_nat f -> decimalValue (digitsFuel f n) = n.
Proof.
  revert n. induction f as [| f IH]; intros n Hn.
  - cbn in Hn. assert (n = 0) by lia. subst n. reflexivity.
  - cbn [digitsFuel]. destruct (Z.ltb_spec n 10) as [Hlt | Hge].
    + change (decimalValue [Z.to_N (48 + n)]) with (10 * 0 + digitValue (Z.to_N (48 + n))).
      rewrite StampMore.digitValue_char by lia. lia.
    + rewrite StampMore.decimalValue_snoc, IH.
      * rewrite StampMore.digitValue_char by (pose proof (Z.mod_pos_bound n 10); lia).
        pose proof (Z.div_mod n 10). lia.
      * rewrite Nat2Z.inj_succ, Z.pow_succ_r in Hn by lia.
        split; [apply Z.div_pos; lia |].
        apply Z.div_lt_upper_bound; [lia |].
        assert (0 < 2 ^ Z.of_nat f) by (apply Z.pow_pos_nonneg; lia). lia.
Qed.

(** The digits of a natural number spell it. *)
Lemma decimalValue_decimalDigits n : 0 <= n -> decimalValue (decimalDigits n) = n.
Proof. intro H. apply decimalValue_digitsFuel, log2_fuel, H. Qed.

Lemma decimalValue_zeros j ds : decimalValue (repeat 48%N j ++ ds) = decimalValue ds.
Proof.
  unfold decimalValue. rewrite fold_left_app. f_equal.
  induction j as [| j IH]; [reflexivity |]. cbn [repeat fold_left].
  change (10 * 0 + digitValue 48%N) with 0. exact IH.
Qed.

Lemma fill_length (ds : list N) :
  (3 <= List.length (repeat 48%N (3 - List.length ds) ++ ds))%nat.
Proof. rewrite length_app, repeat_length. lia. Qed.

Lemma zeros_digits j : forallb isDigit (repeat 48%N j) = true.
Proof. induction j as [| j IH]; [reflexivity | exact IH]. Qed.

(** The integer that [toFixed2] prints for a finite number. *)
Lemma hundredths_nearest (m : positive) (e : Z) :
  let n := match e with
           | Zneg k => (200 * Zpos m + 2 ^ Zpos k) / 2 ^ (Zpos k + 1)
           | _ => 100 * (Zpos m * 2 ^ e)
           end in
  0 <= n
  /\ - 2 ^ Z.max (- e) 0
     <= 2 * (100 * (Zpos m * 2 ^ Z.max e 0) - n * 2 ^ Z.max (- e) 0)
     < 2 ^ Z.max (- e) 0.
Proof.
  destruct e as [| p | p]; cbv zeta.
  - cbn [Z.opp Z.max Z.compare]. rewrite Z.pow_0_r. lia.
  - assert (Hp : 0 < 2 ^ Zpos p) by (apply Z.pow_pos_nonneg; lia).
    replace (Z.max (Zpos p) 0) with (Zpos p) by lia.
    replace (Z.max (- Zpos p) 0) with 0 by lia. rewrite Z.pow_0_r. nia.
  - assert (Hp : 0 < 2 ^ Zpos p) by (apply Z.pow_pos_nonneg; lia).
    assert (Hp2 : 2 ^ (Zpos p + 1) = 2 * 2 ^ Zpos p).
    { rewrite Z.pow_add_r by lia. change (2 ^ 1) with 2. lia. }
    replace (Z.max (Zneg p) 0) with 0 by lia.
    replace (Z.max (- Zneg p) 0) with (Zpos p) by lia.
    rewrite Z.pow_0_r, Hp2.
    set (q := 2 ^ Zpos p) in *.
    pose proof (Z.div_mod (200 * Zpos m + q) (2 * q) ltac:(lia)) as Hdm.
    pose proof (Z.mod_pos_bound (200 * Zpos m + q) (2 * q) ltac:(lia)) as Hmod.
    assert (Hn0 : 0 <= (200 * Zpos m + q) / (2 * q)) by (apply Z.div_pos; lia).
    split; [exact Hn0 |]. nia.
Qed.

End DisplayFacts.

Module DisplayProperties.
Import NumberFacts AggregatorFacts Handlers Display DisplayFacts.

(** X24: a finite amount below 10^21 in magnitude is printed by
    [toFixed(2)] as an optional minus sign, at least one digit, a dot and
    exactly two digits.  The digits spell the whole number of hundredths
    nearest to the magnitude of the amount, the larger one when two are
    as near.  (The magnitude is [m * 2^e]; the statement multiplies it out
    so that only whole numbers are compared.) *)
Theorem amounts_are_printed_to_the_nearest_hundredth :
  forall (NumberToString : number -> jsstring) (s : bool) (m : positive) (e : Z),
    Zpos m * 2 ^ Z.max e 0 < 10 ^ 21 * 2 ^ Z.max (- e) 0 ->
    exists (n : Z) (whole frac : jsstring),
      toFixed2 NumberToString (S754_finite s m e)
      = ((if s then js "-" else []) ++ whole ++ js "." ++ frac)%list
      /\ whole <> []
      /\ List.length frac = 2%nat
      /\ forallb isDigit (whole ++ frac) = true
      /\ decimalValue (whole ++ frac) = n
      /\ - 2 ^ Z.max (- e) 0
         <= 2 * (100 * (Zpos m * 2 ^ Z.max e 0) - n * 2 ^ Z.max (- e) 0)
         < 2 ^ Z.max (- e) 0.
Proof.
  intros nts s m e Hsmall.
  assert (Hlarge : (0 <=? e) && (10 ^ 21 <=? Zpos m * 2 ^ e) = false).
  { destruct (Z.leb_spec 0 e) as [Hz | Hz]; [| reflexivity]. cbn [andb].
    apply Z.leb_gt. replace (Z.max e 0) with e in Hsmall by lia.
    replace (Z.max (- e) 0) with 0 in Hsmall by lia.
    rewrite Z.pow_0_r in Hsmall. lia. }
  destruct (hundredths_nearest m e) as [Hn0 Hnear]. cbv zeta in Hn0, Hnear.
  unfold toFixed2. rewrite Hlarge. cbv zeta.
  set (n := match e with
            | Zneg k => (200 * Zpos m + 2 ^ Zpos k) / 2 ^ (Zpos k + 1)
            | _ => 100 * (Zpos m * 2 ^ e)
            end) in *.
  clearbody n.
  set (all := (repeat 48%N (3 - List.length (decimalDigits n)) ++ decimalDigits n)%list).
  assert (Hlen : (3 <= List.length all)%nat).
  { subst all. apply fill_length. }
  assert (Hdigits : forallb isDigit all = true).
  { subst all. rewrite forallb_app, zeros_digits.
    apply digitsFuel_digits, Hn0. }
  assert (Hvalue : decimalValue all = n).
  { subst all. rewrite decimalValue_zeros. apply decimalValue_decimalDigits, Hn0. }
  clearbody all.
  exists n, (firstn (List.length all - 2) all), (skipn (List.length all - 2) all).
  split; [reflexivity |]. split; [| split; [| split; [| split]]].
  - intro H. apply (f_equal (@List.length char16)) in H.
    rewrite length_firstn in H. cbn [List.length] in H. clear - H Hlen. lia.
  - rewrite length_skipn. clear - Hlen. lia.
  - rewrite firstn_skipn. exact Hdigits.
  - rewrite firstn_skipn. exact Hvalue.
  - exact Hnear.
Qed.

Lemma amounts_are_printed_to_the_nearest_hundredth_witness :
  toFixed2 Samples.noText (StringToNumber (js "12.5")) = js "12.50"
  /\ toFixed2 Samples.noText (StringToNumber (js "1.005")) = js "1.00"
  /\ exists n whole frac,
       toFixed2 Samples.noText (S754_finite false 5044031582654956 (-52))
       = ([] ++ whole ++ js "." ++ frac)%list
       /\ whole <> [] /\ List.length frac = 2%nat
       /\ forallb isDigit (whole ++ frac) = true
       /\ decimalValue (whole ++ frac) = n
       /\ - 2 ^ Z.max (- (-52)) 0
          <= 2 * (100 * (Zpos 5044031582654956 * 2 ^ Z.max (-52) 0)
                  - n * 2 ^ Z.max (- (-52)) 0)
          < 2 ^ Z.max (- (-52)) 0.
Proof.
  split; [vm_compute; reflexivity |]. split; [vm_compute; reflexivity |].
  apply (amounts_are_printed_to_the_nearest_hundredth Samples.noText false
           5044031582654956 (-52)).
  vm_compute. reflexivity.
Defined.

Lemma whole_member l ns :
  Forall2 wholeAmount l ns ->
  Forall (fun n => 0 <= n <= zsum ns) ns.
Proof.
  intro H. pose proof (whole_amounts_bounds l ns H) as Hb. clear H.
  induction Hb as [| n ns Hn Hns IH]; constructor.
  - cbn [zsum fold_right]. pose proof (zsum_nonneg ns Hns). unfold zsum in *. lia.
  - apply Forall_forall. intros k Hk. rewrite Forall_forall in IH.
    pose proof (IH k Hk). cbn [zsum fold_right]. unfold zsum in *. lia.
Qed.

(** X25: amounts that are whole numbers are printed exactly.  When the
    amounts of the rows are whole numbers adding up to less than 2^53,
    the summary card shows a dollar sign, the decimal digits of their sum
    and [.00], and each row shows a dollar sign, the digits of its amount
    and [.00]. *)
Theorem whole_amounts_are_printed_with_two_zeros :
  forall (NumberToString : number -> jsstring) (records : list expense) (ns : list Z),
    Forall2 wholeAmount records ns ->
    zsum ns < 2 ^ 53 ->
    summaryAmount NumberToString (overallTotal records)
    = (js "$" ++ decimalDigits (zsum ns) ++ js ".00")%list
    /\ decimalValue (decimalDigits (zsum ns)) = zsum ns
    /\ Forall2 (fun item n =>
                  expenseAmount NumberToString item
                  = (js "$" ++ decimalDigits n ++ js ".00")%list)
               records ns.
Proof.
  intros nts l ns Hw Hlt.
  pose proof (whole_amounts_bounds l ns Hw) as Hb.
  pose proof (zsum_nonneg ns Hb) as Hs.
  split; [| split].
  - unfold summaryAmount. rewrite (overallTotal_whole l ns Hw Hlt).
    rewrite toFixed2_whole by lia. reflexivity.
  - apply decimalValue_decimalDigits, Hs.
  - pose proof (whole_member l ns Hw) as Hm.
    induction Hw as [| item n l ns [Hn Ha] Hw IH]; constructor.
    + inversion Hm as [| ? ? Hle _]; subst.
      unfold expenseAmount. rewrite Ha. cbn [ToNumber].
      rewrite toFixed2_whole by lia. reflexivity.
    + apply IH.
      * cbn [zsum fold_right] in Hlt. unfold zsum. lia.
      * inversion Hb; assumption.
      * inversion Hb as [| ? ? Hn0 Hb']; subst. apply (zsum_nonneg ns Hb').
      * inversion Hb as [| ? ? Hn0 Hb']; subst. apply (whole_member l ns Hw).
Qed.

Lemma whole_amounts_are_printed_with_two_zeros_witness :
  summaryAmount Samples.noText (overallTotal Samples.january) = js "$35.00"
  /\ map (expenseAmount Samples.noText) Samples.january
     = [js "$10.00"; js "$20.00"; js "$5.00"].
Proof.
  assert (Hw : Forall2 wholeAmount Samples.january [10; 20; 5]).
  { repeat (apply Forall2_cons; [split; [lia | vm_compute; reflexivity] |]).
    apply Forall2_nil. }
  destruct (whole_amounts_are_printed_with_two_zeros Samples.noText Samples.january
              [10; 20; 5] Hw ltac:(vm_compute; reflexivity)) as (Hsum & _ & _).
  split; [etransitivity; [exact Hsum |] |]; vm_compute; reflexivity.
Defined.


End DisplayProperties.
